(** * History: a tree-structured undo/redo stack (History.h, History.cpp)

    A shallow embedding of [HistoryContext], [History], [HistoryWithParams],
    [HistoryPushController] and [HistoryPopController].  The C++ objects live
    in an explicit store: contexts and records are addressed, pointers are
    optional addresses, and every member function is a state transformer
    over the store.  Host code (the bound do/undo member functions) is a
    parameter of the development. *)

From stdpp Require Import gmap strings list fin_maps.
From Stdlib Require Import ZArith Lia.

Local Open Scope Z_scope.

(** ** Machine integers

    [m_PresentHistoryIdx] is an [int]; [std::vector::size()] is a 64-bit
    [size_t].  A comparison of the two converts the [int] to [size_t]. *)
Module Int.

Definition INT_MAX : Z := 2147483647.
Definition INT_MIN : Z := -2147483648.

(** Conversion of a signed value to [size_t]. *)
Definition to_size_t (z : Z) : Z := z mod 2 ^ 64.

(** [int(x)] of a [size_t]. *)
Definition to_int (z : Z) : Z := (z + 2 ^ 31) mod 2 ^ 32 - 2 ^ 31.

(** [++i] and [--i] on an [int]: signed overflow has no defined result. *)
Definition incr (i : Z) : option Z := if i <? INT_MAX then Some (i + 1) else None.
Definition decr (i : Z) : option Z := if INT_MIN <? i then Some (i - 1) else None.

(** [++id] on an [unsigned int]. *)
Definition uincr (u : Z) : Z := (u + 1) mod 2 ^ 32.

End Int.

(** ** Values held by [std::any] and by the captured argument tuple *)

Inductive TypeId := TyInt | TyBool | TyString | TyIntSet.

Inductive Value :=
| VInt (z : Z)
| VBool (b : bool)
| VString (s : string)
| VIntSet (l : list Z).

Definition type_of (v : Value) : TypeId :=
  match v with
  | VInt _ => TyInt
  | VBool _ => TyBool
  | VString _ => TyString
  | VIntSet _ => TyIntSet
  end.

Definition TypeId_eqb (a b : TypeId) : bool :=
  match a, b with
  | TyInt, TyInt | TyBool, TyBool | TyString, TyString | TyIntSet, TyIntSet => true
  | _, _ => false
  end.

(** [std::any]: empty, or a value together with its dynamic type. *)
Abbreviation any := (option Value) (only parsing).

(** [std::any_cast<T>(a)] by value: [None] stands for [std::bad_any_cast]. *)
Definition any_cast (T : TypeId) (a : any) : option Value :=
  match a with
  | Some v => if TypeId_eqb (type_of v) T then Some v else None
  | None => None
  end.

(** ** [std::string::find] and [std::string::erase] *)

(** [s.find(needle)]: index of the first occurrence, [None] for [npos]. *)
Fixpoint find (needle s : string) : option nat :=
  if String.prefix needle s then Some 0%nat
  else match s with
       | EmptyString => None
       | String _ s' => option_map S (find needle s')
       end.

(** [s.erase(pos)]: drops everything from [pos] to the end. *)
Definition erase (s : string) (pos : nat) : string := String.substring 0 pos s.

(** ** The store *)

Abbreviation CtxAddr := nat (only parsing).
Abbreviation RecAddr := nat (only parsing).

(** A bound member function is named by the function it binds. *)
Abbreviation FnId := string (only parsing).

(** [std::function<void(int)>]: the constructor's [[](int) {}] or a host
    function. *)
Inductive Observer :=
| NoopObserver
| HostObserver (f : FnId).

Record HistoryContext := mkContext {
  m_HistoryStack : list (option RecAddr);
  m_PresentHistoryIdx : Z;
  m_IsUndoing : bool;
  m_IsRedoing : bool;
  m_ParentContext : option CtxAddr;
  m_OnStackChanged : Observer;
  (** [true] while a [std::scoped_lock] holds [m_Mutex]. *)
  m_Mutex : bool
}.

(** [History] with the members of [HistoryWithParams].  [m_SubContext] is
    the address of the embedded sub-context object. *)
Record History := mkHistory {
  m_Data : gmap string any;
  m_Label : string;
  m_ID : Z;
  m_SubContext : CtxAddr;
  m_Params : list Value;
  m_DoFunc : FnId;
  m_UndoFunc : FnId
}.

(** A storage cell keeps its address after [delete]: addresses are never
    handed out twice, and a freed cell cannot be dereferenced. *)
Inductive Cell (A : Type) :=
| Live (a : A)
| Freed.
Arguments Live {A} a.
Arguments Freed {A}.

(** One call of a context's [m_OnStackChanged]. *)
Record Event := StackChanged {
  ev_context : CtxAddr;
  ev_observer : Observer;
  ev_index : Z
}.

Section Model.

Context {Host : Type}.

Record World := mkWorld {
  s_Context : option CtxAddr;
  s_Lock : bool;
  (** the function-local [static unsigned int id] of [History::NewID] *)
  s_id : Z;
  contexts : gmap nat (Cell HistoryContext);
  records : gmap nat (Cell History);
  (** calls of [m_OnStackChanged], oldest first *)
  events : list Event;
  (** the host application's own data *)
  host : Host
}.

(** *** Outcomes *)

Inductive Outcome (A : Type) :=
| Returns (a : A) (w : World)
| Throws (w : World)        (** [std::bad_any_cast] propagates *)
| Undefined.                (** undefined behaviour or no termination *)
Arguments Returns {A} a w.
Arguments Throws {A} w.
Arguments Undefined {A}.

Definition M (A : Type) : Type := World -> Outcome A.

Definition ret {A} (a : A) : M A := fun w => Returns a w.

Definition bind {A B} (m : M A) (k : A -> M B) : M B :=
  fun w =>
    match m w with
    | Returns a w' => k a w'
    | Throws w' => Throws w'
    | Undefined => Undefined
    end.

Definition undefined {A} : M A := fun _ => Undefined.
Definition throw {A} : M A := fun w => Throws w.

Definition gets {A} (f : World -> A) : M A := fun w => Returns (f w) w.
Definition modify (f : World -> World) : M unit := fun w => Returns tt (f w).

Definition lift {A} (o : option A) : M A :=
  match o with
  | Some a => ret a
  | None => undefined
  end.

Notation "'let*' x ':=' m 'in' k" := (bind m (fun x => k))
  (at level 10, x name, m at level 100, k at level 200).
Notation "m ';;' k" := (bind m (fun _ => k))
  (at level 100, k at level 200, right associativity).

(** *** Access to the store *)

Definition set_Context (p : option CtxAddr) (w : World) : World :=
  mkWorld p (s_Lock w) (s_id w) (contexts w) (records w) (events w) (host w).

Definition set_Lock (b : bool) (w : World) : World :=
  mkWorld (s_Context w) b (s_id w) (contexts w) (records w) (events w) (host w).

Definition set_id (i : Z) (w : World) : World :=
  mkWorld (s_Context w) (s_Lock w) i (contexts w) (records w) (events w) (host w).

Definition set_contexts (m : gmap nat (Cell HistoryContext)) (w : World) : World :=
  mkWorld (s_Context w) (s_Lock w) (s_id w) m (records w) (events w) (host w).

Definition set_records (m : gmap nat (Cell History)) (w : World) : World :=
  mkWorld (s_Context w) (s_Lock w) (s_id w) (contexts w) m (events w) (host w).

Definition set_events (l : list Event) (w : World) : World :=
  mkWorld (s_Context w) (s_Lock w) (s_id w) (contexts w) (records w) l (host w).

Definition set_host (h : Host) (w : World) : World :=
  mkWorld (s_Context w) (s_Lock w) (s_id w) (contexts w) (records w) (events w) h.

(** Reading through a [HistoryContext*] or a [History*]: the object has to
    be alive. *)
Definition load_ctx (c : CtxAddr) : M HistoryContext :=
  fun w =>
    match contexts w !! c with
    | Some (Live x) => Returns x w
    | _ => Undefined
    end.

Definition store_ctx (c : CtxAddr) (x : HistoryContext) : M unit :=
  modify (fun w => set_contexts (<[c := Live x]> (contexts w)) w).

Definition load_rec (r : RecAddr) : M History :=
  fun w =>
    match records w !! r with
    | Some (Live h) => Returns h w
    | _ => Undefined
    end.

Definition store_rec (r : RecAddr) (h : History) : M unit :=
  modify (fun w => set_records (<[r := Live h]> (records w)) w).

(** Assignments to single members. *)
Definition with_stack (s : list (option RecAddr)) (x : HistoryContext) :=
  mkContext s (m_PresentHistoryIdx x) (m_IsUndoing x) (m_IsRedoing x)
            (m_ParentContext x) (m_OnStackChanged x) (m_Mutex x).

Definition with_present (i : Z) (x : HistoryContext) :=
  mkContext (m_HistoryStack x) i (m_IsUndoing x) (m_IsRedoing x)
            (m_ParentContext x) (m_OnStackChanged x) (m_Mutex x).

Definition with_undoing (b : bool) (x : HistoryContext) :=
  mkContext (m_HistoryStack x) (m_PresentHistoryIdx x) b (m_IsRedoing x)
            (m_ParentContext x) (m_OnStackChanged x) (m_Mutex x).

Definition with_redoing (b : bool) (x : HistoryContext) :=
  mkContext (m_HistoryStack x) (m_PresentHistoryIdx x) (m_IsUndoing x) b
            (m_ParentContext x) (m_OnStackChanged x) (m_Mutex x).

Definition with_observer (o : Observer) (x : HistoryContext) :=
  mkContext (m_HistoryStack x) (m_PresentHistoryIdx x) (m_IsUndoing x) (m_IsRedoing x)
            (m_ParentContext x) o (m_Mutex x).

Definition with_mutex (b : bool) (x : HistoryContext) :=
  mkContext (m_HistoryStack x) (m_PresentHistoryIdx x) (m_IsUndoing x) (m_IsRedoing x)
            (m_ParentContext x) (m_OnStackChanged x) b.

Definition with_data (d : gmap string any) (h : History) :=
  mkHistory d (m_Label h) (m_ID h) (m_SubContext h) (m_Params h) (m_DoFunc h) (m_UndoFunc h).

Definition update_ctx (c : CtxAddr) (f : HistoryContext -> HistoryContext) : M unit :=
  let* x := load_ctx c in store_ctx c (f x).

(** *** [std::vector<History*>] *)

Definition vec_size {A} (v : list A) : Z := Z.of_nat (length v).

(** [v[i]] with an [int] index: the index is converted to [size_t]; outside
    the vector the access is undefined. *)
Definition vec_at {A} (v : list A) (i : Z) : option A :=
  let u := Int.to_size_t i in
  if u <? vec_size v then v !! Z.to_nat u else None.

(** *** History.cpp: the global state *)

Definition GetContext : M (option CtxAddr) := gets s_Context.

Definition SetContext (newContext : option CtxAddr) : M unit :=
  modify (set_Context newContext).

Definition Disable : M unit := modify (set_Lock true).

Definition Enable : M unit := modify (set_Lock false).

Definition NewID : M Z :=
  let* id := gets s_id in
  modify (set_id (Int.uincr id)) ;;
  ret (Int.uincr id).

(** [History::GetContext()->...]: a member access through the active
    context pointer. *)
Definition GetContext_deref : M CtxAddr :=
  let* c := GetContext in lift c.

(** *** HistoryContext: queries *)

Definition ParentContext (c : CtxAddr) : M (option CtxAddr) :=
  let* l := gets s_Lock in
  if l then ret None else
  let* x := load_ctx c in
  ret (m_ParentContext x).

(** The [while (true)] walks of [IsUndoing] and [IsRedoing].  A walk that
    visits more contexts than the store holds has entered a cycle of
    parent pointers and never ends. *)
Fixpoint IsUndoing_walk (fuel : nat) (context : CtxAddr) : M bool :=
  match fuel with
  | O => undefined
  | S fuel' =>
      let* x := load_ctx context in
      if m_IsUndoing x then ret true else
      let* p := ParentContext context in
      match p with
      | Some p => IsUndoing_walk fuel' p
      | None => ret false
      end
  end.

Fixpoint IsRedoing_walk (fuel : nat) (context : CtxAddr) : M bool :=
  match fuel with
  | O => undefined
  | S fuel' =>
      let* x := load_ctx context in
      if m_IsRedoing x then ret true else
      let* p := ParentContext context in
      match p with
      | Some p => IsRedoing_walk fuel' p
      | None => ret false
      end
  end.

Definition IsUndoing (c : CtxAddr) : M bool :=
  fun w => IsUndoing_walk (size (contexts w)) c w.

Definition IsRedoing (c : CtxAddr) : M bool :=
  fun w => IsRedoing_walk (size (contexts w)) c w.

Definition IsUndoingOrRedoing (c : CtxAddr) : M bool :=
  let* u := IsUndoing c in
  if u then ret true else IsRedoing c.

Definition Present (c : CtxAddr) : M (option RecAddr) :=
  let* l := gets s_Lock in
  if l then ret None else
  let* x := load_ctx c in
  lift (vec_at (m_HistoryStack x) (m_PresentHistoryIdx x)).

Definition PeekFuture (c : CtxAddr) : M (option RecAddr) :=
  let* l := gets s_Lock in
  if l then ret None else
  let* x := load_ctx c in
  if m_PresentHistoryIdx x <? Int.to_int (vec_size (m_HistoryStack x)) - 1
  then lift (vec_at (m_HistoryStack x) (m_PresentHistoryIdx x + 1))
  else ret None.

(** *** HistoryContext: construction and the stack *)

(** The member initialisers and the constructor: a one-slot stack holding a
    null pointer, the cursor on it, and the empty lambda as observer. *)
Definition HistoryContext_ctor (parent : option CtxAddr) : HistoryContext :=
  mkContext [None] 0 false false parent NoopObserver false.

(** A context object created by the host. *)
Definition new_HistoryContext (parent : option CtxAddr) : M CtxAddr :=
  let* c := gets (fun w => fresh (dom (contexts w))) in
  store_ctx c (HistoryContext_ctor parent) ;;
  ret c.

(** [new HistoryWithParams<Args...>(this, name, do_func, undo_func, args...)] *)
Definition new_HistoryWithParams (parentContext : CtxAddr) (name : string)
    (d ud : FnId) (args : list Value) : M RecAddr :=
  let* r := gets (fun w => fresh (dom (records w))) in
  let* sub := gets (fun w => fresh (dom (contexts w))) in
  let* id := NewID in
  store_ctx sub (HistoryContext_ctor (Some parentContext)) ;;
  store_rec r (mkHistory ∅ name id sub args d ud) ;;
  ret r.

(** [delete p]: nothing for a null pointer; otherwise the record and its
    embedded sub-context end their lifetime.  The records of the
    sub-context's own stack are raw pointers and stay allocated. *)
Definition delete_History (p : option RecAddr) : M unit :=
  match p with
  | None => ret tt
  | Some r =>
      let* h := load_rec r in
      modify (fun w => set_contexts (<[m_SubContext h := Freed]> (contexts w)) w) ;;
      modify (fun w => set_records (<[r := Freed]> (records w)) w)
  end.

(** The [while] loop of [PrePush].  Every round pops one element, and
    [back()] on an empty vector is undefined, so the length of the stack
    plus one bounds the number of rounds. *)
Fixpoint PrePush_loop (fuel : nat) (c : CtxAddr) : M unit :=
  let* x := load_ctx c in
  if vec_size (m_HistoryStack x) =? Int.to_size_t (m_PresentHistoryIdx x)
  then ret tt
  else
    match fuel with
    | O => undefined
    | S fuel' =>
        let* p := lift (last (m_HistoryStack x)) in
        delete_History p ;;
        update_ctx c (fun x => with_stack (removelast (m_HistoryStack x)) x) ;;
        PrePush_loop fuel' c
    end.

Definition PrePush (c : CtxAddr) : M unit :=
  let* l := gets s_Lock in
  if l then ret tt else
  let* x := load_ctx c in
  let* i := lift (Int.incr (m_PresentHistoryIdx x)) in
  store_ctx c (with_present i x) ;;
  PrePush_loop (S (length (m_HistoryStack x))) c.

Definition Push (c : CtxAddr) (name : string) (do_func undo_func : FnId)
    (args : list Value) : M unit :=
  let* l := gets s_Lock in
  if l then ret tt else
  let* b := IsUndoingOrRedoing c in
  if b then ret tt else
  PrePush c ;;
  let* r := new_HistoryWithParams c name do_func undo_func args in
  update_ctx c (fun x => with_stack (m_HistoryStack x ++ [Some r]) x).

Definition AbortPush (c : CtxAddr) : M unit :=
  let* l := gets s_Lock in
  if l then ret tt else
  let* b := IsUndoingOrRedoing c in
  if b then ret tt else
  let* x := load_ctx c in
  let* i := lift (Int.decr (m_PresentHistoryIdx x)) in
  store_ctx c (with_present i x) ;;
  match m_HistoryStack x with
  | [] => undefined
  | _ => update_ctx c (fun x => with_stack (removelast (m_HistoryStack x)) x)
  end.

(** *** The observer *)

(** A call [m_OnStackChanged(idx)] through context [c].  The observer is
    host code that is told about the stack; the call is recorded with the
    function object and its argument, and the observer is taken not to
    call back into the history. *)
Definition OnStackChanged (c : CtxAddr) (idx : Z) : M unit :=
  let* x := load_ctx c in
  modify (fun w => set_events (events w ++ [StackChanged c (m_OnStackChanged x) idx]) w).

Definition BindOnStackChanged (c : CtxAddr) (func : FnId) : M unit :=
  let* l := gets s_Lock in
  if l then ret tt else
  update_ctx c (with_observer (HostObserver func)).

Definition UnbindOnStackChanged (c : CtxAddr) : M unit :=
  update_ctx c (with_observer NoopObserver).

Definition Clear (c : CtxAddr) : M unit :=
  let* l := gets s_Lock in
  if l then ret tt else
  update_ctx c (with_present 0) ;;
  update_ctx c (with_stack [None]) ;;
  OnStackChanged c 0.

(** *** History: the memento store *)

Definition Save (r : RecAddr) (key : string) (value : Value) : M bool :=
  let* l := gets s_Lock in
  if l then ret false else
  let* h := load_rec r in
  let* b := IsUndoingOrRedoing (m_SubContext h) in
  if b then ret false else
  store_rec r (with_data (<[key := Some value]> (m_Data h)) h) ;;
  ret true.

(** The key as [Load] looks it up: cut at the first occurrence of
    ["_Undo"], when there is one. *)
Definition lookup_id (key : string) : string :=
  match find "_Undo" key with
  | Some it => erase key it
  | None => key
  end.

(** [m[id]] on a [std::map]: a missing key is inserted with an empty
    [std::any]. *)
Definition map_subscript (m : gmap string any) (id : string) : gmap string any * any :=
  match m !! id with
  | Some a => (m, a)
  | None => (<[id := None]> m, None)
  end.

(** [m.count(id)] *)
Definition map_count (m : gmap string any) (id : string) : Z :=
  match m !! id with
  | Some _ => 1
  | None => 0
  end.

(** [Load<T>(key, output)].  The result carries the value of [output]
    after the call; when the cast throws, [output] is never assigned. *)
Definition Load (r : RecAddr) (T : TypeId) (key : string) (output : Value)
    : M (bool * Value) :=
  let* l := gets s_Lock in
  if l then ret (false, output) else
  let* h := load_rec r in
  let* b := IsUndoingOrRedoing (m_SubContext h) in
  if negb b then ret (false, output) else
  let id := lookup_id key in
  if map_count (m_Data h) id =? 0 then ret (false, output) else
  let (m', a) := map_subscript (m_Data h) id in
  store_rec r (with_data m' h) ;;
  match any_cast T a with
  | Some v => ret (true, v)
  | None => throw
  end.

(** *** Scoped controllers *)

Record HistoryPushController := mkPushController { active : bool }.

(** [&p->m_SubContext] *)
Definition SubContext_of (p : option RecAddr) : M CtxAddr :=
  let* r := lift p in
  let* h := load_rec r in
  ret (m_SubContext h).

Definition HistoryPushController_ctor : M HistoryPushController :=
  let ctl := mkPushController true in
  let* l := gets s_Lock in
  if l then ret ctl else
  let* c := GetContext_deref in
  let* u := IsUndoing c in
  if u then ret ctl else
  let* p := Present c in
  let* sub := SubContext_of p in
  SetContext (Some sub) ;;
  ret ctl.

Definition HistoryPushController_dtor (ctl : HistoryPushController)
    : M HistoryPushController :=
  let* l := gets s_Lock in
  if l then ret ctl else
  if negb (active ctl) then ret ctl else
  let* c := GetContext_deref in
  let* u := IsUndoing c in
  if u then ret ctl else
  let* parent := ParentContext c in
  SetContext parent ;;
  let* c := GetContext_deref in
  let* pp := ParentContext c in
  let* advance :=
    match pp with
    | None => ret false
    | Some _ =>
        let* rd := IsRedoing c in
        if rd then
          let* x := load_ctx c in
          ret (m_PresentHistoryIdx x <? Int.to_int (vec_size (m_HistoryStack x)) - 1)
        else ret false
    end in
  (if advance then
     let* x := load_ctx c in
     let* i := lift (Int.incr (m_PresentHistoryIdx x)) in
     store_ctx c (with_present i x)
   else
     let* rd := IsRedoing c in
     if negb rd then
       let* x := load_ctx c in
       OnStackChanged c (m_PresentHistoryIdx x)
     else ret tt) ;;
  ret (mkPushController false).

Definition HistoryPopController_ctor : M unit :=
  let* l := gets s_Lock in
  if l then ret tt else
  let* c := GetContext_deref in
  let* p := Present c in
  let* sub := SubContext_of p in
  SetContext (Some sub).

Definition HistoryPopController_dtor : M unit :=
  let* l := gets s_Lock in
  if l then ret tt else
  let* c := GetContext_deref in
  let* parent := ParentContext c in
  SetContext parent ;;
  let* c := GetContext_deref in
  let* pp := ParentContext c in
  match pp with
  | Some _ =>
      let* x := load_ctx c in
      if 1 <? m_PresentHistoryIdx x then
        let* i := lift (Int.decr (m_PresentHistoryIdx x)) in
        store_ctx c (with_present i x)
      else ret tt
  | None => ret tt
  end.

(** *** Undo and redo

    The closures stored by [Push] are host code: [call f args] runs the
    bound member function [f] on the captured arguments. *)

Section Replay.

Variable call : FnId -> list Value -> M bool.

(** [HistoryWithParams::Redo] and [::Undo], reached through a [History*]. *)
Definition History_Redo (p : option RecAddr) : M bool :=
  let* r := lift p in
  let* h := load_rec r in
  call (m_DoFunc h) (m_Params h).

Definition History_Undo (p : option RecAddr) : M bool :=
  let* r := lift p in
  let* h := load_rec r in
  call (m_UndoFunc h) (m_Params h).

(** [std::scoped_lock<std::mutex> lock(m_Mutex)] around the rest of the
    function: the mutex is released on return and on unwinding.  Locking a
    mutex the running thread already holds is undefined. *)
Definition unlock (c : CtxAddr) : M unit := update_ctx c (with_mutex false).

Definition scoped_lock {A} (c : CtxAddr) (body : M A) : M A :=
  fun w =>
    match (let* x := load_ctx c in
           if m_Mutex x then undefined else store_ctx c (with_mutex true x)) w with
    | Returns _ w1 =>
        match body w1 with
        | Returns a w2 => (unlock c ;; ret a) w2
        | Throws w2 => (unlock c ;; throw) w2
        | Undefined => Undefined
        end
    | Throws w1 => Throws w1
    | Undefined => Undefined
    end.

Definition Redo (c : CtxAddr) : M bool :=
  let* l := gets s_Lock in
  if l then ret false else
  scoped_lock c (
    let* x := load_ctx c in
    if Int.to_size_t (m_PresentHistoryIdx x)
       =? Int.to_size_t (vec_size (m_HistoryStack x) - 1)
    then ret false else
    store_ctx c (with_redoing true x) ;;
    let* x := load_ctx c in
    let* i := lift (Int.incr (m_PresentHistoryIdx x)) in
    store_ctx c (with_present i x) ;;
    let* p := lift (vec_at (m_HistoryStack x) i) in
    let* result := History_Redo p in
    update_ctx c (with_redoing false) ;;
    let* x := load_ctx c in
    OnStackChanged c (m_PresentHistoryIdx x) ;;
    ret result).

Definition Undo (c : CtxAddr) : M bool :=
  let* l := gets s_Lock in
  if l then ret false else
  scoped_lock c (
    let* x := load_ctx c in
    if m_PresentHistoryIdx x =? 0 then ret false else
    store_ctx c (with_undoing true x) ;;
    let* p := lift (vec_at (m_HistoryStack x) (m_PresentHistoryIdx x)) in
    let* result := History_Undo p in
    let* x := load_ctx c in
    let* i := lift (Int.decr (m_PresentHistoryIdx x)) in
    store_ctx c (with_present i x) ;;
    update_ctx c (with_undoing false) ;;
    let* x := load_ctx c in
    OnStackChanged c (m_PresentHistoryIdx x) ;;
    ret result).

(** *** Sequences of public operations *)

Inductive Operation :=
| OpPush (c : CtxAddr) (name : string) (do_func undo_func : FnId) (args : list Value)
| OpAbortPush (c : CtxAddr)
| OpUndo (c : CtxAddr)
| OpRedo (c : CtxAddr)
| OpClear (c : CtxAddr)
| OpSave (r : RecAddr) (key : string) (value : Value)
| OpLoad (r : RecAddr) (T : TypeId) (key : string) (output : Value)
| OpBindOnStackChanged (c : CtxAddr) (func : FnId)
| OpPushControllerCtor
| OpPushControllerDtor (ctl : HistoryPushController)
| OpPopControllerCtor
| OpPopControllerDtor.

Definition perform (op : Operation) : M unit :=
  match op with
  | OpPush c name d ud args => Push c name d ud args
  | OpAbortPush c => AbortPush c
  | OpUndo c => Undo c ;; ret tt
  | OpRedo c => Redo c ;; ret tt
  | OpClear c => Clear c
  | OpSave r key value => Save r key value ;; ret tt
  | OpLoad r T key output => Load r T key output ;; ret tt
  | OpBindOnStackChanged c func => BindOnStackChanged c func
  | OpPushControllerCtor => HistoryPushController_ctor ;; ret tt
  | OpPushControllerDtor ctl => HistoryPushController_dtor ctl ;; ret tt
  | OpPopControllerCtor => HistoryPopController_ctor
  | OpPopControllerDtor => HistoryPopController_dtor
  end.

Fixpoint perform_all (ops : list Operation) : M unit :=
  match ops with
  | [] => ret tt
  | op :: rest => perform op ;; perform_all rest
  end.

End Replay.

End Model.

Arguments World Host : clear implicits.
Arguments Outcome Host A : clear implicits.
Arguments M Host A : clear implicits.
Arguments Returns {Host A} a w.
Arguments Throws {Host A} w.
Arguments Undefined {Host A}.
Arguments mkWorld {Host} _ _ _ _ _ _ _.

Notation "'let*' x ':=' m 'in' k" := (bind m (fun x => k))
  (at level 10, x name, m at level 100, k at level 200).
Notation "m ';;' k" := (bind m (fun _ => k))
  (at level 100, k at level 200, right associativity).

(** ** History.cpp: the root context and the dump *)

Section Inspection.

Context {Host : Type}.

(** The [while] loop of [History::GetRootContext]: [ParentContext()] is
    called once for the test and once more for the assignment.  As in the
    walks of [IsUndoing], more rounds than there are contexts means a cycle
    of parent pointers. *)
Fixpoint GetRootContext_walk (fuel : nat) (context : CtxAddr) : M Host CtxAddr :=
  match fuel with
  | O => undefined
  | S fuel' =>
      let* p := ParentContext context in
      match p with
      | None => ret context
      | Some _ =>
          let* q := ParentContext context in
          let* q := lift q in
          GetRootContext_walk fuel' q
      end
  end.

Definition GetRootContext : M Host CtxAddr :=
  let* c := GetContext_deref in
  fun w => GetRootContext_walk (S (size (contexts w))) c w.

Definition tab : Ascii.ascii := Ascii.ascii_of_nat 9.
Definition newline : Ascii.ascii := Ascii.ascii_of_nat 10.

(** The first loop of [Dump]: [indentCount] tabs, none for a count below 1. *)
Fixpoint Dump_tabs_loop (n : nat) : string :=
  match n with
  | O => ""
  | S n' => String tab (Dump_tabs_loop n')
  end.

Definition Dump_tabs (indentCount : Z) : string := Dump_tabs_loop (Z.to_nat indentCount).

(** The second loop of [Dump], from index [n] down to 1: the line of the
    record, then the dump of its sub-context one level deeper. *)
Fixpoint Dump_rows (Dump_sub : CtxAddr -> Z -> M Host string) (x : HistoryContext)
    (tabs : string) (indentCount : Z) (n : nat) : M Host string :=
  match n with
  | O => ret ""
  | S n' =>
      let i := Z.of_nat n in
      let* p := lift (vec_at (m_HistoryStack x) i) in
      let* r := lift p in
      let* h := load_rec r in
      let record := tabs +:+ m_Label h in
      let record := if m_PresentHistoryIdx x =? i then record +:+ " <<<" else record in
      let record := record +:+ String newline "" in
      let* deeper := lift (Int.incr indentCount) in
      let* sub := Dump_sub (m_SubContext h) deeper in
      let* rest := Dump_rows Dump_sub x tabs indentCount n' in
      ret (record +:+ sub +:+ rest)
  end.

(** [HistoryContext::Dump].  The recursion follows records into their
    sub-contexts; a nesting deeper than the number of contexts has met one
    context twice and does not end. *)
Fixpoint Dump_nested (fuel : nat) (c : CtxAddr) (indentCount : Z) : M Host string :=
  match fuel with
  | O => undefined
  | S fuel' =>
      let* x := load_ctx c in
      let tabs := Dump_tabs indentCount in
      let* top := lift (Int.decr (Int.to_int (vec_size (m_HistoryStack x)))) in
      Dump_rows (Dump_nested fuel') x tabs indentCount (Z.to_nat top)
  end.

Definition Dump (c : CtxAddr) (indentCount : Z) : M Host string :=
  fun w => Dump_nested (S (size (contexts w))) c indentCount w.

End Inspection.

(** ** Vocabulary of the properties *)

Section Vocabulary.

Context {Host : Type}.
Implicit Types (w : World Host) (x : HistoryContext) (h : History).

(** The object at an address is alive and has the given contents. *)
Definition live_ctx w (c : CtxAddr) x : Prop := contexts w !! c = Some (Live x).
Definition live_rec w (r : RecAddr) h : Prop := records w !! r = Some (Live h).

(** The cursor is a valid [int] index into the stack. *)
Definition cursor_in_range x : Prop :=
  0 <= m_PresentHistoryIdx x <= vec_size (m_HistoryStack x) - 1.

(** The stack is short enough for [int(size())] to be exact. *)
Definition int_sized x : Prop := vec_size (m_HistoryStack x) <= Int.INT_MAX.

(** The chain of parent pointers from [c]: [c] itself, its parent, and so
    on up to the root. *)
Inductive ancestors w : CtxAddr -> list CtxAddr -> Prop :=
| ancestors_root c x :
    live_ctx w c x -> m_ParentContext x = None -> ancestors w c [c]
| ancestors_step c x p l :
    live_ctx w c x -> m_ParentContext x = Some p -> ancestors w p l ->
    ancestors w c (c :: l).

(** Some context of the list has its own flag set. *)
Definition undoing_in w (l : list CtxAddr) : Prop :=
  exists a x, a ∈ l /\ live_ctx w a x /\ m_IsUndoing x = true.

Definition redoing_in w (l : list CtxAddr) : Prop :=
  exists a x, a ∈ l /\ live_ctx w a x /\ m_IsRedoing x = true.

(** Every live context of the store has its cursor in range. *)
Definition cell_in_range (cell : Cell HistoryContext) : Prop :=
  match cell with
  | Live x => cursor_in_range x
  | Freed => True
  end.

Definition ctxs_in_range (m : gmap nat (Cell HistoryContext)) : Prop :=
  map_Forall (fun _ cell => cell_in_range cell) m.

Definition all_in_range w : Prop := ctxs_in_range (contexts w).

(** The records of a redo tail can be deleted one after the other: the
    non-null pointers are distinct and point to live records, none of
    which embeds the context [c] itself. *)
Definition deletable w (c : CtxAddr) (tail : list (option RecAddr)) : Prop :=
  NoDup (omap id tail) /\
  forall r, Some r ∈ tail -> exists h, live_rec w r h /\ m_SubContext h <> c.

(** Weakest precondition for a normal return: [Q] holds of the result and
    the store whenever [m] returns. *)
Definition wp {A} (m : M Host A) (Q : A -> World Host -> Prop) w : Prop :=
  match m w with
  | Returns a w' => Q a w'
  | Throws _ => True
  | Undefined => True
  end.

(** The store on which [Redo()] invokes the do-closure, and the store it
    leaves when the closure has returned in [w1] with the context as [x1]. *)
Definition entering_redo (c : CtxAddr) x w : World Host :=
  set_contexts
    (<[c := Live (with_present (m_PresentHistoryIdx x + 1)
                    (with_redoing true (with_mutex true x)))]> (contexts w)) w.

Definition leaving_redo (c : CtxAddr) x1 w1 : World Host :=
  set_events
    (events w1 ++ [StackChanged c (m_OnStackChanged x1) (m_PresentHistoryIdx x1)])
    (set_contexts
       (<[c := Live (with_mutex false (with_redoing false x1))]> (contexts w1)) w1).

(** The same for [Undo()] and the undo-closure. *)
Definition entering_undo (c : CtxAddr) x w : World Host :=
  set_contexts (<[c := Live (with_undoing true (with_mutex true x))]> (contexts w)) w.

Definition leaving_undo (c : CtxAddr) x1 w1 : World Host :=
  set_events
    (events w1 ++ [StackChanged c (m_OnStackChanged x1) (m_PresentHistoryIdx x1 - 1)])
    (set_contexts
       (<[c := Live (with_mutex false
                       (with_undoing false
                          (with_present (m_PresentHistoryIdx x1 - 1) x1)))]>
          (contexts w1)) w1).

(** What the cursors need from outside to stay in range: [AbortPush()]
    from its caller a record to remove, [Undo()] and [Redo()] from the
    closure they invoke that it leaves the cursors in range and, for
    [Undo()], the cursor of the context off the sentinel. *)
Definition keeps_range (call : FnId -> list Value -> M Host bool)
    (op : Operation) w : Prop :=
  match op with
  | OpAbortPush c => forall x, live_ctx w c x -> 1 <= m_PresentHistoryIdx x
  | OpUndo c =>
      forall x r h result w1,
        live_ctx w c x -> live_rec w r h ->
        vec_at (m_HistoryStack x) (m_PresentHistoryIdx x) = Some (Some r) ->
        call (m_UndoFunc h) (m_Params h) (entering_undo c x w) = Returns result w1 ->
        all_in_range w1 /\ forall x1, live_ctx w1 c x1 -> 1 <= m_PresentHistoryIdx x1
  | OpRedo c =>
      forall x r h result w1,
        live_ctx w c x -> live_rec w r h ->
        vec_at (m_HistoryStack x) (m_PresentHistoryIdx x + 1) = Some (Some r) ->
        call (m_DoFunc h) (m_Params h) (entering_redo c x w) = Returns result w1 ->
        all_in_range w1
  | _ => True
  end.

(** Slot 0 of the stack - the sentinel - holds the null pointer. *)
Definition sentinel_is_null x : Prop := m_HistoryStack x !! 0%nat = Some None.

(** Every live context of the store has the null pointer in slot 0. *)
Definition cell_sentinel (cell : Cell HistoryContext) : Prop :=
  match cell with
  | Live x => sentinel_is_null x
  | Freed => True
  end.

Definition all_sentinels w : Prop :=
  map_Forall (fun _ cell => cell_sentinel cell) (contexts w).

(** What the sentinels need from outside to stay in place: from the
    closure that [Undo()] or [Redo()] invokes, that it leaves the null
    pointer in slot 0 of every context. *)
Definition keeps_sentinel (call : FnId -> list Value -> M Host bool)
    (op : Operation) w : Prop :=
  match op with
  | OpUndo c =>
      forall x r h result w1,
        live_ctx w c x -> live_rec w r h ->
        vec_at (m_HistoryStack x) (m_PresentHistoryIdx x) = Some (Some r) ->
        call (m_UndoFunc h) (m_Params h) (entering_undo c x w) = Returns result w1 ->
        all_sentinels w1
  | OpRedo c =>
      forall x r h result w1,
        live_ctx w c x -> live_rec w r h ->
        vec_at (m_HistoryStack x) (m_PresentHistoryIdx x + 1) = Some (Some r) ->
        call (m_DoFunc h) (m_Params h) (entering_redo c x w) = Returns result w1 ->
        all_sentinels w1
  | _ => True
  end.

End Vocabulary.

Section ScopeVocabulary.

Context {Host : Type}.
Implicit Types (w : World Host) (x : HistoryContext) (h : History).

(** The active context is a sub-context whose parent has record [r] under
    its cursor: the situation inside a do- or an undo-function between the
    construction and the release of its controller. *)
Definition inside_scope_of w (r : RecAddr) h : Prop :=
  exists sub xs c xc,
    s_Context w = Some sub /\ live_ctx w sub xs /\ m_ParentContext xs = Some c /\
    live_ctx w c xc /\ 0 <= m_PresentHistoryIdx xc <= Int.INT_MAX /\
    m_HistoryStack xc !! Z.to_nat (m_PresentHistoryIdx xc) = Some (Some r) /\
    live_rec w r h.

(** What a push on context [c] needs to go through and to leave the parent
    chain [l] of [c] alone: the global lock released, no replay under way
    on the chain, the cursor in range, and a redo tail that can be deleted
    and none of whose records embeds a context of the chain. *)
Definition accepts_push w (c : CtxAddr) x (l : list CtxAddr) : Prop :=
  s_Lock w = false /\ live_ctx w c x /\ ancestors w c l /\
  ~ undoing_in w l /\ ~ redoing_in w l /\
  cursor_in_range x /\ int_sized x /\
  deletable w c (drop (Z.to_nat (m_PresentHistoryIdx x + 1)) (m_HistoryStack x)) /\
  forall r h,
    Some r ∈ drop (Z.to_nat (m_PresentHistoryIdx x + 1)) (m_HistoryStack x) ->
    live_rec w r h -> m_SubContext h ∉ l.

(** The context [x] after a push of record [r]: the redo tail is cut, the
    record appended, the cursor on it. *)
Definition pushed (r : RecAddr) x : HistoryContext :=
  with_stack (take (Z.to_nat (m_PresentHistoryIdx x + 1)) (m_HistoryStack x) ++ [Some r])
    (with_present (m_PresentHistoryIdx x + 1) x).

(** One line of a dump: the indentation, the label, the mark on the
    present record, the end of the line. *)
Definition Dump_line (tabs label : string) (present : bool) : string :=
  (if present then (tabs +:+ label) +:+ " <<<" else tabs +:+ label) +:+ String newline "".

End ScopeVocabulary.

(** ** The tree a dump shows *)

(** A record as a dump shows it: its label, whether the cursor of its
    context is on it, and the records of its sub-context, newest first. *)
Inductive Entry :=
| entry (label : string) (marked : bool) (nested : Entries)
with Entries :=
| no_entries
| more_entries (newest : Entry) (older : Entries).

Fixpoint count_entries (es : Entries) : nat :=
  match es with
  | no_entries => 0
  | more_entries _ older => S (count_entries older)
  end.

(** The number of levels below a context that hold a record. *)
Fixpoint height_entry (e : Entry) : nat :=
  match e with
  | entry _ _ nested => S (height_entries nested)
  end
with height_entries (es : Entries) : nat :=
  match es with
  | no_entries => 0
  | more_entries newest older => Nat.max (height_entry newest) (height_entries older)
  end.

(** The text of a tree: every record on a line of its own, followed by
    its nested records one tab deeper. *)
Fixpoint Dump_entry (indentCount : Z) (e : Entry) : string :=
  match e with
  | entry label marked nested =>
      Dump_line (Dump_tabs indentCount) label marked +:+ Dump_entries (indentCount + 1) nested
  end
with Dump_entries (indentCount : Z) (es : Entries) : string :=
  match es with
  | no_entries => ""
  | more_entries newest older =>
      Dump_entry indentCount newest +:+ Dump_entries indentCount older
  end.

Section TreeVocabulary.

Context {Host : Type}.
Implicit Types (w : World Host) (x : HistoryContext) (h : History).

(** The store holds the tree [es] at context [c]: the stack of [c] is the
    sentinel followed by as many records as [es] has entries, the entry of
    the record in slot [k] carries its label and is marked when the cursor
    is [k], and the sub-context of the record holds the nested entries. *)
Inductive shows w : CtxAddr -> Entries -> Prop :=
| shows_context c x es :
    live_ctx w c x -> int_sized x ->
    length (m_HistoryStack x) = S (count_entries es) ->
    shows_rows w x es ->
    shows w c es
with shows_rows w : HistoryContext -> Entries -> Prop :=
| shows_no_rows x : shows_rows w x no_entries
| shows_more_rows x r h nested older :
    m_HistoryStack x !! S (count_entries older) = Some (Some r) ->
    live_rec w r h ->
    shows w (m_SubContext h) nested ->
    shows_rows w x older ->
    shows_rows w x
      (more_entries
         (entry (m_Label h) (m_PresentHistoryIdx x =? Z.of_nat (S (count_entries older)))
            nested)
         older).

End TreeVocabulary.

Scheme shows_mut := Induction for shows Sort Prop
  with shows_rows_mut := Induction for shows_rows Sort Prop.

Combined Scheme shows_mutual from shows_mut, shows_rows_mut.

(** ** Concrete stores used by the examples *)

Module Example.

(** Nothing allocated, the global lock released, no active context. *)
Definition empty_world : World unit := mkWorld None false 0 ∅ ∅ [] tt.

(** One host-made root context at address 0, as its constructor leaves it. *)
Definition fresh_root : World unit :=
  mkWorld None false 0 {[ 0%nat := Live (HistoryContext_ctor None) ]} ∅ [] tt.

(** The same with the root installed as the active context. *)
Definition fresh_active : World unit :=
  mkWorld (Some 0%nat) false 0 {[ 0%nat := Live (HistoryContext_ctor None) ]} ∅ [] tt.

(** The root context after one [Push] of "RemoveObject" with the captured
    argument "foo": record 0 sits in slot 1, its sub-context is context 1. *)
Definition recorded (data : gmap string any) : World unit :=
  mkWorld (Some 0%nat) false 1
    {[ 0%nat := Live (mkContext [None; Some 0%nat] 1 false false None NoopObserver false);
       1%nat := Live (HistoryContext_ctor (Some 0%nat)) ]}
    {[ 0%nat := Live (mkHistory data "RemoveObject" 1 1%nat [VString "foo"]
                        "RemoveObject" "RemoveObject_Undo") ]}
    [] tt.

(** The same store in the middle of [Undo()] on the root, inside the body
    of the undo function after its pop controller was constructed: the
    mutex is held, [m_IsUndoing] is set, the active context is the record's
    sub-context. *)
Definition in_undo (data : gmap string any) : World unit :=
  mkWorld (Some 1%nat) false 1
    {[ 0%nat := Live (mkContext [None; Some 0%nat] 1 true false None NoopObserver true);
       1%nat := Live (HistoryContext_ctor (Some 0%nat)) ]}
    {[ 0%nat := Live (mkHistory data "RemoveObject" 1 1%nat [VString "foo"]
                        "RemoveObject" "RemoveObject_Undo") ]}
    [] tt.

(** The store of [recorded] after an undo: the cursor is back on the
    sentinel and record 0 is the redo tail. *)
Definition undone : World unit :=
  mkWorld (Some 0%nat) false 1
    {[ 0%nat := Live (mkContext [None; Some 0%nat] 0 false false None NoopObserver false);
       1%nat := Live (HistoryContext_ctor (Some 0%nat)) ]}
    {[ 0%nat := Live (mkHistory ∅ "RemoveObject" 1 1%nat [VString "foo"]
                        "RemoveObject" "RemoveObject_Undo") ]}
    [] tt.

(** The store [Undo()] with an idle undo function leaves from [recorded]:
    the observer has been called once. *)
Definition after_undo : World unit :=
  mkWorld (Some 0%nat) false 1
    {[ 0%nat := Live (mkContext [None; Some 0%nat] 0 false false None NoopObserver false);
       1%nat := Live (HistoryContext_ctor (Some 0%nat)) ]}
    {[ 0%nat := Live (mkHistory ∅ "RemoveObject" 1 1%nat [VString "foo"]
                        "RemoveObject" "RemoveObject_Undo") ]}
    [StackChanged 0%nat NoopObserver 0] tt.

(** The store of [recorded] with a host observer bound and the global lock set. *)
Definition locked_observed : World unit :=
  mkWorld (Some 0%nat) true 1
    {[ 0%nat := Live (mkContext [None; Some 0%nat] 1 false false None
                        (HostObserver "Refresh") false);
       1%nat := Live (HistoryContext_ctor (Some 0%nat)) ]}
    {[ 0%nat := Live (mkHistory ∅ "RemoveObject" 1 1%nat [VString "foo"]
                        "RemoveObject" "RemoveObject_Undo") ]}
    [] tt.

(** The store of [recorded] inside the body of the do-function, after its
    push controller was constructed: the active context is the new
    record's sub-context. *)
Definition in_do : World unit :=
  mkWorld (Some 1%nat) false 1
    {[ 0%nat := Live (mkContext [None; Some 0%nat] 1 false false None NoopObserver false);
       1%nat := Live (HistoryContext_ctor (Some 0%nat)) ]}
    {[ 0%nat := Live (mkHistory ∅ "RemoveObject" 1 1%nat [VString "foo"]
                        "RemoveObject" "RemoveObject_Undo") ]}
    [] tt.

(** [HISTORY_PUSH(Doomed)] followed by [HISTORY_ABORT_PUSH()] on the
    active context: the push, the declaration of the controller, the
    explicit call of its destructor, and [AbortPush] on the context that
    is active by then. *)
Definition aborted_push : M unit unit :=
  let* c := GetContext_deref in
  Push c "Doomed" "Doomed" "Doomed_Undo" [] ;;
  let* ctl := HistoryPushController_ctor in
  HistoryPushController_dtor ctl ;;
  let* c := GetContext_deref in
  AbortPush c.

(** A host function that looks at the cursor of context [c] and answers
    whether it stands at [expected]. *)
Definition cursor_probe (c : CtxAddr) (expected : Z)
    (f : FnId) (args : list Value) : M unit bool :=
  let* x := load_ctx c in
  ret (m_PresentHistoryIdx x =? expected).

(** A host function that wipes context [c]. *)
Definition clearing (c : CtxAddr) (f : FnId) (args : list Value) : M unit bool :=
  Clear c ;; ret true.

(** A host function that does nothing and reports success. *)
Definition idle (f : FnId) (args : list Value) : M unit bool := ret true.

(** A host function that leaves by an exception. *)
Definition throwing (f : FnId) (args : list Value) : M unit bool := throw.

(** The store of [in_undo] with the global lock set. *)
Definition in_undo_locked : World unit :=
  mkWorld (Some 1%nat) true 1
    {[ 0%nat := Live (mkContext [None; Some 0%nat] 1 true false None NoopObserver true);
       1%nat := Live (HistoryContext_ctor (Some 0%nat)) ]}
    {[ 0%nat := Live (mkHistory ∅ "RemoveObject" 1 1%nat [VString "foo"]
                        "RemoveObject" "RemoveObject_Undo") ]}
    [] tt.

(** A redo of a "MergeObjects" record on the root, inside the first of the
    two nested do-functions it replays: the root is redoing, the cursor of
    the record's sub-context (context 1) is on the first nested record, and
    the active context is that record's sub-context (context 2). *)
Definition in_nested_redo : World unit :=
  mkWorld (Some 2%nat) false 3
    {[ 0%nat := Live (mkContext [None; Some 0%nat] 1 false true None NoopObserver true);
       1%nat := Live (mkContext [None; Some 1%nat; Some 2%nat] 1 false false (Some 0%nat)
                        NoopObserver false);
       2%nat := Live (HistoryContext_ctor (Some 1%nat));
       3%nat := Live (HistoryContext_ctor (Some 1%nat)) ]}
    {[ 0%nat := Live (mkHistory ∅ "MergeObjects" 1 1%nat [VString "foo"; VString "bar"]
                        "MergeObjects" "MergeObjects_Undo");
       1%nat := Live (mkHistory ∅ "SetObject" 2 2%nat [VString "foo"; VInt 3]
                        "SetObject" "SetObject_Undo");
       2%nat := Live (mkHistory ∅ "RemoveObject" 3 3%nat [VString "bar"]
                        "RemoveObject" "RemoveObject_Undo") ]}
    [] tt.

End Example.

(** ** The showcase (Showcase.cpp): the macros and two managers *)

Module Showcase.

(** [HISTORY_PUSH(func, ...)]: the assertion, the push on the active
    context, and the declaration of the push controller. *)
Definition HISTORY_PUSH {Host} (func : string) (args : list Value)
    : M Host HistoryPushController :=
  let* c := GetContext_deref in
  Push c func func (func +:+ "_Undo") args ;;
  HistoryPushController_ctor.

(** [HISTORY_ABORT_PUSH()]: the explicit destructor call on the scope's
    controller, then [AbortPush] on the context that is active by then.
    The destructor call ends the lifetime of the controller. *)
Definition HISTORY_ABORT_PUSH {Host} (ctl : HistoryPushController) : M Host unit :=
  HistoryPushController_dtor ctl ;;
  let* c := GetContext_deref in
  AbortPush c.

(** [HISTORY_KEY(var)] inside the function [func]. *)
Definition HISTORY_KEY (var func : string) : string := var +:+ "<-" +:+ func.

(** [History::GetContext()->ParentContext()->Present()] *)
Definition record_in_progress {Host} : M Host RecAddr :=
  let* c := GetContext_deref in
  let* parent := ParentContext c in
  let* parent := lift parent in
  let* p := Present parent in
  lift p.

Definition HISTORY_SAVE {Host} (var func : string) (value : Value) : M Host bool :=
  let* r := record_in_progress in
  Save r (HISTORY_KEY var func) value.

Definition HISTORY_LOAD {Host} (var func : string) (T : TypeId) (output : Value)
    : M Host (bool * Value) :=
  let* r := record_in_progress in
  Load r T (HISTORY_KEY var func) output.

(** [TrivialManager]: [objects] is a vector of [int]. *)
Definition AddNewObject : M (list Z) bool :=
  let* ctl := HISTORY_PUSH "AddNewObject" [] in
  modify (fun w => set_host (host w ++ [0]) w) ;;
  HistoryPushController_dtor ctl ;;
  ret true.

Definition AddNewObject_Undo : M (list Z) bool :=
  HistoryPopController_ctor ;;
  modify (fun w => set_host (removelast (host w)) w) ;;
  HistoryPopController_dtor ;;
  ret true.

Definition TrivialManager (f : FnId) (args : list Value) : M (list Z) bool :=
  if String.eqb f "AddNewObject" then AddNewObject
  else if String.eqb f "AddNewObject_Undo" then AddNewObject_Undo
  else undefined.

(** [HistoryShowcase_Basics] up to a given step: the manager's constructor
    installs its context, then the calls of the showcase follow. *)
Definition basics_added : M (list Z) unit :=
  let* c := new_HistoryContext None in
  SetContext (Some c) ;;
  AddNewObject ;;
  ret tt.

Definition basics_undone : M (list Z) unit :=
  basics_added ;;
  let* c := GetContext_deref in
  Undo TrivialManager c ;;
  ret tt.

Definition basics_redone : M (list Z) unit :=
  basics_undone ;;
  let* c := GetContext_deref in
  Redo TrivialManager c ;;
  ret tt.

(** [MapWithRemoveManager]: [objects] maps strings to [int]. *)
Definition AddObject (key : string) (value : Z) : M (gmap string Z) bool :=
  let* objects := gets host in
  match objects !! key with
  | Some _ => ret false
  | None =>
      let* ctl := HISTORY_PUSH "AddObject" [VString key; VInt value] in
      modify (fun w => set_host (<[key := value]> (host w)) w) ;;
      HistoryPushController_dtor ctl ;;
      ret true
  end.

Definition AddObject_Undo (key : string) : M (gmap string Z) bool :=
  HistoryPopController_ctor ;;
  modify (fun w => set_host (delete key (host w)) w) ;;
  HistoryPopController_dtor ;;
  ret true.

(** [objects[key]] of the host map: a missing key reads as 0 (and is
    inserted, which the following [erase] undoes). *)
Definition RemoveObject (key : string) : M (gmap string Z) bool :=
  let* ctl := HISTORY_PUSH "RemoveObject" [VString key] in
  let* objects := gets host in
  let hOldValue := default 0 (objects !! key) in
  HISTORY_SAVE "hOldValue" "RemoveObject" (VInt hOldValue) ;;
  modify (fun w => set_host (delete key (host w)) w) ;;
  HistoryPushController_dtor ctl ;;
  ret true.

Definition RemoveObject_Undo (key : string) : M (gmap string Z) bool :=
  HistoryPopController_ctor ;;
  let* loaded := HISTORY_LOAD "hOldValue" "RemoveObject_Undo" TyInt (VInt 0) in
  match snd loaded with
  | VInt hOldValue =>
      AddObject key hOldValue ;;
      HistoryPopController_dtor ;;
      ret true
  | _ => undefined
  end.

Definition MapWithRemoveManager (f : FnId) (args : list Value)
    : M (gmap string Z) bool :=
  match args with
  | [VString key; VInt value] =>
      if String.eqb f "AddObject" then AddObject key value
      else if String.eqb f "AddObject_Undo" then AddObject_Undo key
      else undefined
  | [VString key] =>
      if String.eqb f "RemoveObject" then RemoveObject key
      else if String.eqb f "RemoveObject_Undo" then RemoveObject_Undo key
      else undefined
  | _ => undefined
  end.

Definition userparams_removed : M (gmap string Z) unit :=
  let* c := new_HistoryContext None in
  SetContext (Some c) ;;
  AddObject "foo" 11 ;;
  RemoveObject "foo" ;;
  ret tt.

Definition userparams_undone : M (gmap string Z) unit :=
  userparams_removed ;;
  let* c := GetContext_deref in
  Undo MapWithRemoveManager c ;;
  ret tt.

Definition userparams_redone : M (gmap string Z) unit :=
  userparams_undone ;;
  let* c := GetContext_deref in
  Redo MapWithRemoveManager c ;;
  ret tt.

(** The store when a manager has been constructed: its context is the
    active context, nothing is recorded, [objects] is as given. *)
Definition constructed {Host} (objects : Host) : World Host :=
  mkWorld (Some 0%nat) false 0 {[ 0%nat := Live (HistoryContext_ctor None) ]} ∅ [] objects.

(** The host data and the cursor of the root context when a run has
    returned. *)
Definition outcome {Host A} (o : Outcome Host A) : option (Host * option Z) :=
  match o with
  | Returns _ w =>
      Some (host w,
            match contexts w !! 0%nat with
            | Some (Live x) => Some (m_PresentHistoryIdx x)
            | _ => None
            end)
  | _ => None
  end.

End Showcase.

(** ** Properties *)

Section Basics.

Context {Host : Type}.
Implicit Types (w : World Host) (x : HistoryContext) (h : History).

Lemma load_ctx_live w c x : live_ctx w c x -> load_ctx c w = Returns x w.
Proof. unfold live_ctx, load_ctx. intros ->. reflexivity. Qed.

Lemma load_rec_live w r h : live_rec w r h -> load_rec r w = Returns h w.
Proof. unfold live_rec, load_rec. intros ->. reflexivity. Qed.

Lemma to_size_t_small z : 0 <= z <= Int.INT_MAX -> Int.to_size_t z = z.
Proof.
  intros Hz. unfold Int.to_size_t, Int.INT_MAX in *.
  apply Z.mod_small. lia.
Qed.

Lemma vec_at_in_range {A} (v : list A) (i : Z) (a : A) :
  0 <= i <= Int.INT_MAX -> v !! Z.to_nat i = Some a -> vec_at v i = Some a.
Proof.
  intros Hi Ha. unfold vec_at. rewrite to_size_t_small by assumption.
  pose proof (lookup_lt_Some _ _ _ Ha) as Hlt. unfold vec_size.
  destruct (Z.ltb_spec i (Z.of_nat (length v))) as [_|Hge]; [assumption|lia].
Qed.

Lemma incr_Some i j : Int.incr i = Some j -> i < 2147483647 /\ j = i + 1.
Proof.
  unfold Int.incr, Int.INT_MAX. destruct (Z.ltb_spec i 2147483647); [|discriminate].
  intros [= <-]. split; [assumption | reflexivity].
Qed.

Lemma decr_Some i j : Int.decr i = Some j -> -2147483648 < i /\ j = i - 1.
Proof.
  unfold Int.decr, Int.INT_MIN. destruct (Z.ltb_spec (-2147483648) i); [|discriminate].
  intros [= <-]. split; [assumption | reflexivity].
Qed.

Lemma length_removelast {A} (l : list A) : length (removelast l) = pred (length l).
Proof. rewrite removelast_firstn_len, length_take. lia. Qed.

End Basics.

(** Unfolding of the monadic plumbing, with reads of cells just written. *)
Ltac unfold_m :=
  unfold OnStackChanged, update_ctx, store_ctx, store_rec, load_ctx, load_rec,
    bind, gets, ret, modify, lift, undefined, throw in *.

Ltac run :=
  repeat (unfold_m; cbn [s_Context s_Lock s_id contexts records events host
                         set_Context set_Lock set_id set_contexts set_records
                         set_events set_host];
          rewrite ?lookup_insert_eq).

(** Stores written as one record, for comparing two of them. *)
Ltac flat_world :=
  unfold set_Context, set_Lock, set_id, set_contexts, set_records, set_events, set_host in *;
  cbn [s_Context s_Lock s_id contexts records events host] in *.

Section PresentProperties.

Context {Host : Type}.
Implicit Types (w : World Host) (x : HistoryContext) (h : History).

Lemma Present_locked w c : s_Lock w = true -> Present c w = Returns None w.
Proof. intros Hl. unfold Present. run. rewrite Hl. reflexivity. Qed.

Lemma Present_unlocked w c x slot :
  live_ctx w c x -> s_Lock w = false ->
  0 <= m_PresentHistoryIdx x <= Int.INT_MAX ->
  m_HistoryStack x !! Z.to_nat (m_PresentHistoryIdx x) = Some slot ->
  Present c w = Returns slot w.
Proof.
  intros Hc Hl Hp Hs. unfold Present. run. rewrite Hl, Hc.
  rewrite (vec_at_in_range _ _ slot) by assumption. reflexivity.
Qed.

Lemma Clear_unlocked w c x :
  live_ctx w c x -> s_Lock w = false ->
  Clear c w =
  Returns tt
    (set_events (events w ++ [StackChanged c (m_OnStackChanged x) 0])
       (set_contexts (<[c := Live (with_stack [None] (with_present 0 x))]> (contexts w)) w)).
Proof.
  intros Hc Hl. unfold Clear. run. rewrite Hl, Hc. run.
  rewrite insert_insert_eq. reflexivity.
Qed.

Lemma with_mutex_released x : m_Mutex x = false -> with_mutex false (with_mutex true x) = x.
Proof. destruct x; cbn. intros ->. reflexivity. Qed.

(** [Undo()] with the cursor on the sentinel: the mutex is taken and
    released, nothing is invoked, nothing changes. *)
Lemma Undo_at_sentinel (call : FnId -> list Value -> M Host bool) w c x :
  s_Lock w = false -> live_ctx w c x -> m_Mutex x = false ->
  m_PresentHistoryIdx x = 0 ->
  Undo call c w = Returns false w.
Proof.
  intros Hl Hc Hm Hp. unfold Undo, scoped_lock, unlock. run. rewrite Hl, Hc, Hm. run.
  cbn [m_PresentHistoryIdx with_mutex]. rewrite Hp. cbn. run.
  flat_world. rewrite !insert_insert_eq, with_mutex_released by exact Hm.
  rewrite insert_id by exact Hc. destruct w; reflexivity.
Qed.

End PresentProperties.

(** ** The memento store *)

Section StringSearch.

Lemma append_String a s t : String a s +:+ t = String a (s +:+ t).
Proof. reflexivity. Qed.

Lemma append_empty t : "" +:+ t = t.
Proof. reflexivity. Qed.

Lemma prefix_String a s b t :
  String.prefix (String a s) (String b t) = true <-> a = b /\ String.prefix s t = true.
Proof.
  change (String.prefix (String a s) (String b t))
    with (if Ascii.ascii_dec a b then String.prefix s t else false).
  destruct (Ascii.ascii_dec a b); intuition congruence.
Qed.

(** No proper suffix of "_Undo" is a prefix of it, so an occurrence of
    "_Undo" that starts inside [K] lies inside [K]. *)
Lemma prefix_Undo_inside K :
  K <> EmptyString ->
  String.prefix "_Undo" (K +:+ "_Undo") = true -> String.prefix "_Undo" K = true.
Proof.
  intros Hne H.
  destruct K as [|a1 [|a2 [|a3 [|a4 [|a5 K']]]]]; [congruence|..];
    rewrite ?append_String, ?append_empty in H;
    repeat match goal with
           | H : String.prefix (String _ _) (String _ _) = true |- _ =>
               apply prefix_String in H as [? H]
           end; try discriminate.
  subst. repeat (apply prefix_String; split; [reflexivity|]).
  destruct K'; reflexivity.
Qed.

Lemma find_step needle a s :
  find needle (String a s) =
  if String.prefix needle (String a s) then Some 0%nat else option_map S (find needle s).
Proof. reflexivity. Qed.

Lemma find_Undo_suffix K :
  find "_Undo" K = None -> find "_Undo" (K +:+ "_Undo") = Some (String.length K).
Proof.
  induction K as [|a K IH]; [reflexivity|].
  rewrite append_String, !find_step. intros H.
  destruct (String.prefix "_Undo" (String a K)) eqn:Hp; [discriminate|].
  destruct (find "_Undo" K) eqn:Hf; [discriminate|].
  destruct (String.prefix "_Undo" (String a (K +:+ "_Undo"))) eqn:Hq.
  - rewrite <- append_String in Hq. apply prefix_Undo_inside in Hq; congruence.
  - rewrite IH by reflexivity. reflexivity.
Qed.

Lemma erase_append K s : erase (K +:+ s) (String.length K) = K.
Proof.
  unfold erase. induction K as [|a K IH].
  - destruct s; reflexivity.
  - rewrite append_String. cbn. rewrite IH. reflexivity.
Qed.

Lemma lookup_id_Undo_suffix K :
  find "_Undo" K = None -> lookup_id (K +:+ "_Undo") = K.
Proof.
  intros H. unfold lookup_id. rewrite find_Undo_suffix by assumption.
  apply erase_append.
Qed.

End StringSearch.

Section Memento.

Context {Host : Type}.
Implicit Types (w : World Host) (x : HistoryContext) (h : History).

Lemma with_data_same h : with_data (m_Data h) h = h.
Proof. destruct h; reflexivity. Qed.

Lemma set_records_same w r h :
  live_rec w r h -> set_records (<[r := Live h]> (records w)) w = w.
Proof.
  intros Hr. unfold set_records. rewrite insert_id by exact Hr.
  destruct w; reflexivity.
Qed.

(** What [Load] does once its two guards are passed. *)
Lemma Load_replaying w r h T key output :
  s_Lock w = false -> live_rec w r h ->
  IsUndoingOrRedoing (m_SubContext h) w = Returns true w ->
  Load r T key output w =
  match m_Data h !! lookup_id key with
  | None => Returns (false, output) w
  | Some a => match any_cast T a with
              | Some v => Returns (true, v) w
              | None => Throws w
              end
  end.
Proof.
  intros Hl Hr Hu. unfold Load. run. rewrite Hl, Hr.
  unfold bind in Hu. rewrite Hu. cbn.
  unfold map_count, map_subscript.
  destruct (m_Data h !! lookup_id key) as [a|]; cbn; [|reflexivity].
  rewrite with_data_same, set_records_same by assumption.
  destruct (any_cast T a); reflexivity.
Qed.

Lemma Save_recording w r h key v :
  s_Lock w = false -> live_rec w r h ->
  IsUndoingOrRedoing (m_SubContext h) w = Returns false w ->
  Save r key v w =
  Returns true
    (set_records (<[r := Live (with_data (<[key := Some v]> (m_Data h)) h)]> (records w)) w).
Proof.
  intros Hl Hr Hu. unfold Save. run. rewrite Hl, Hr.
  unfold bind in Hu. rewrite Hu. reflexivity.
Qed.

Lemma any_cast_mismatch T v : type_of v <> T -> any_cast T (Some v) = None.
Proof. intros Hne. destruct v, T; cbn in *; congruence. Qed.

Lemma any_cast_same v : any_cast (type_of v) (Some v) = Some v.
Proof. destruct v; reflexivity. Qed.

(** C2 (as amended).  With the global lock released and the sub-context undoing or
    redoing, [Load<T>] on a key whose slot holds a value of another dynamic
    type does not return: [std::any_cast] throws and the exception leaves
    [Load].  The store - the memento map included - is as before, and
    [output] was not assigned. *)
Theorem Load_type_mismatch_throws w r h T key output v :
  s_Lock w = false -> live_rec w r h ->
  IsUndoingOrRedoing (m_SubContext h) w = Returns true w ->
  m_Data h !! lookup_id key = Some (Some v) ->
  type_of v <> T ->
  Load r T key output w = Throws w.
Proof.
  intros Hl Hr Hu Hk Hne.
  rewrite (Load_replaying w r h) by assumption.
  rewrite Hk, any_cast_mismatch by assumption. reflexivity.
Qed.

(** C5 (as amended).  For a key [K] that does not contain "_Undo":
    [Save(K, v)] during the natural execution succeeds, and as long as the
    memento map is not written again, [Load(K + "_Undo", out)] during undo
    or redo, at the type of [v], returns true and hands back [v].  [Load]
    cuts the requested key at its first occurrence of "_Undo". *)
Theorem Save_then_Load_Undo_suffix w r h K v :
  s_Lock w = false -> live_rec w r h ->
  IsUndoingOrRedoing (m_SubContext h) w = Returns false w ->
  find "_Undo" K = None ->
  exists w1 h1,
    Save r K v w = Returns true w1 /\ live_rec w1 r h1 /\
    forall w2 h2 output,
      s_Lock w2 = false -> live_rec w2 r h2 -> m_Data h2 = m_Data h1 ->
      IsUndoingOrRedoing (m_SubContext h2) w2 = Returns true w2 ->
      Load r (type_of v) (K +:+ "_Undo") output w2 = Returns (true, v) w2.
Proof.
  intros Hl Hr Hu HK. eexists. eexists. split; [|split].
  - apply Save_recording; eassumption.
  - unfold live_rec. cbn. apply lookup_insert_eq.
  - intros w2 h2 output Hl2 Hr2 Hd Hu2.
    rewrite (Load_replaying w2 r h2) by assumption.
    rewrite lookup_id_Undo_suffix, Hd by assumption. cbn.
    rewrite lookup_insert_eq, any_cast_same. reflexivity.
Qed.

End Memento.

Lemma Load_type_mismatch_throws_witness :
  Load 0%nat TyString "hOldValue<-RemoveObject_Undo" (VString "")
    (Example.in_undo {[ "hOldValue<-RemoveObject" := Some (VInt 11) ]})
  = Throws (Example.in_undo {[ "hOldValue<-RemoveObject" := Some (VInt 11) ]}).
Proof.
  eapply (Load_type_mismatch_throws _ 0%nat _ TyString _ _ (VInt 11));
    [reflexivity | reflexivity | reflexivity | reflexivity | discriminate].
Defined.

(** C2 (as stated) fails: a slot holding an [int], loaded as a string in the
    middle of an undo, makes [Load] throw instead of returning false. *)
Lemma Load_type_mismatch_does_not_return_false :
  let w := Example.in_undo {[ "hOldValue<-RemoveObject" := Some (VInt 11) ]} in
  Load 0%nat TyString "hOldValue<-RemoveObject_Undo" (VString "") w = Throws w /\
  forall out w', Load 0%nat TyString "hOldValue<-RemoveObject_Undo" (VString "") w
                 <> Returns (false, out) w'.
Proof.
  split; [vm_compute; reflexivity|].
  intros out w' H. vm_compute in H. discriminate.
Qed.

Lemma Save_then_Load_Undo_suffix_witness :
  exists w1,
    Save 0%nat "hOldValue<-RemoveObject" (VInt 11) (Example.recorded ∅) = Returns true w1 /\
    Load 0%nat TyInt "hOldValue<-RemoveObject_Undo" (VInt 0)
      (Example.in_undo {[ "hOldValue<-RemoveObject" := Some (VInt 11) ]})
    = Returns (true, VInt 11)
        (Example.in_undo {[ "hOldValue<-RemoveObject" := Some (VInt 11) ]}).
Proof.
  destruct (Save_then_Load_Undo_suffix (Example.recorded ∅) 0%nat _
              "hOldValue<-RemoveObject" (VInt 11) eq_refl eq_refl eq_refl eq_refl)
    as (w1 & h1 & HS & Hh1 & HL).
  exists w1. split; [exact HS|].
  refine (HL (Example.in_undo {[ "hOldValue<-RemoveObject" := Some (VInt 11) ]}) _
             (VInt 0) eq_refl eq_refl _ eq_refl).
  unfold live_rec in Hh1. vm_compute in HS. injection HS as <-.
  vm_compute in Hh1. injection Hh1 as <-. reflexivity.
Defined.

(** C5 (as stated) fails for a key that itself contains "_Undo": the value
    saved under "h_Undo" is looked up under "h" when "h_Undo_Undo" is
    requested, and [Load] returns false. *)
Lemma Load_Undo_suffix_cuts_at_first_occurrence :
  exists w1 w2,
    Save 0%nat "h_Undo" (VInt 11) (Example.recorded ∅) = Returns true w1 /\
    update_ctx 0%nat (with_undoing true) w1 = Returns tt w2 /\
    Load 0%nat TyInt ("h_Undo" +:+ "_Undo") (VInt 0) w2 = Returns (false, VInt 0) w2.
Proof.
  eexists. eexists. split; [|split]; vm_compute; reflexivity.
Qed.

(** ** The phase guard *)

Section PhaseGuard.

Context {Host : Type}.
Implicit Types (w : World Host) (x : HistoryContext) (h : History).

Lemma live_ctx_functional w c x y : live_ctx w c x -> live_ctx w c y -> x = y.
Proof. unfold live_ctx. congruence. Qed.

Lemma ancestors_functional w c l1 :
  ancestors w c l1 -> forall l2, ancestors w c l2 -> l1 = l2.
Proof.
  induction 1 as [c x Hx Hp | c x p l Hx Hp Hl IH]; intros l2 H2;
    inversion H2 as [c' y Hy Hq | c' y q l' Hy Hq Hl']; subst;
    pose proof (live_ctx_functional _ _ _ _ Hx Hy); subst y; try congruence.
  f_equal. apply IH. congruence.
Qed.

Lemma ancestors_of_member w c l :
  ancestors w c l ->
  forall a, a ∈ l -> exists l', ancestors w a l' /\ (length l' <= length l)%nat.
Proof.
  induction 1 as [c x Hx Hp | c x p l Hx Hp Hl IH]; intros a Ha.
  - apply list_elem_of_singleton in Ha as ->. exists [c]. split; [|lia].
    eapply ancestors_root; eassumption.
  - apply elem_of_cons in Ha as [->|Ha].
    + exists (c :: l). split; [|lia]. eapply ancestors_step; eassumption.
    + destruct (IH a Ha) as (l' & Hl' & Hlen). exists l'. split; [assumption|].
      cbn. lia.
Qed.

Lemma ancestors_NoDup w c l : ancestors w c l -> NoDup l.
Proof.
  induction 1 as [c x Hx Hp | c x p l Hx Hp Hl IH].
  - apply NoDup_singleton.
  - apply NoDup_cons. split; [|assumption]. intros Hin.
    destruct (ancestors_of_member _ _ _ Hl c Hin) as (l' & Hl' & Hlen).
    assert (l' = c :: l) as ->.
    { eapply ancestors_functional; [eassumption|]. eapply ancestors_step; eassumption. }
    cbn in Hlen. lia.
Qed.

Lemma ancestors_live w c l : ancestors w c l -> forall a, a ∈ l -> a ∈ dom (contexts w).
Proof.
  induction 1 as [c x Hx Hp | c x p l Hx Hp Hl IH]; intros a Ha.
  - apply list_elem_of_singleton in Ha as ->. apply elem_of_dom. eexists. exact Hx.
  - apply elem_of_cons in Ha as [->|Ha]; [|auto].
    apply elem_of_dom. eexists. exact Hx.
Qed.

(** A parent chain that ends in a root is no longer than the store. *)
Lemma ancestors_length w c l : ancestors w c l -> (length l <= size (contexts w))%nat.
Proof.
  intros H. rewrite <- size_dom.
  rewrite <- (size_list_to_set (C := gset nat) l) by (eapply ancestors_NoDup; eassumption).
  apply subseteq_size. intros a Ha. apply elem_of_list_to_set in Ha.
  eapply ancestors_live; eassumption.
Qed.

Lemma ParentContext_unlocked w c x :
  s_Lock w = false -> live_ctx w c x -> ParentContext c w = Returns (m_ParentContext x) w.
Proof. intros Hl Hx. unfold ParentContext. run. rewrite Hl, Hx. reflexivity. Qed.

Lemma IsUndoing_walk_chain w c l :
  s_Lock w = false -> ancestors w c l ->
  forall fuel, (length l <= fuel)%nat ->
  exists b, IsUndoing_walk fuel c w = Returns b w /\ (b = true <-> undoing_in w l).
Proof.
  intros Hlock. induction 1 as [c x Hx Hp | c x p l Hx Hp Hl IH];
    intros [|fuel] Hfuel; cbn in Hfuel; try lia; cbn [IsUndoing_walk];
    unfold bind at 1; rewrite (load_ctx_live _ _ _ Hx);
    destruct (m_IsUndoing x) eqn:Hu.
  - exists true. split; [reflexivity|]. split; [|reflexivity]. intros _.
    exists c, x. split; [apply list_elem_of_singleton; reflexivity | auto].
  - unfold bind. rewrite (ParentContext_unlocked _ _ _ Hlock Hx), Hp.
    exists false. split; [reflexivity|]. split; [discriminate|].
    intros (a & y & Ha & Hy & Hf). apply list_elem_of_singleton in Ha as ->.
    pose proof (live_ctx_functional _ _ _ _ Hx Hy). congruence.
  - exists true. split; [reflexivity|]. split; [|reflexivity]. intros _.
    exists c, x. split; [apply elem_of_cons; auto | auto].
  - unfold bind. rewrite (ParentContext_unlocked _ _ _ Hlock Hx), Hp.
    destruct (IH fuel ltac:(lia)) as (b & Hb & Hiff). exists b. split; [exact Hb|].
    rewrite Hiff. split.
    + intros (a & y & Ha & Hy & Hf). exists a, y. split; [apply elem_of_cons; auto | auto].
    + intros (a & y & Ha & Hy & Hf). apply elem_of_cons in Ha as [->|Ha].
      * pose proof (live_ctx_functional _ _ _ _ Hx Hy). congruence.
      * exists a, y. auto.
Qed.

Lemma IsRedoing_walk_chain w c l :
  s_Lock w = false -> ancestors w c l ->
  forall fuel, (length l <= fuel)%nat ->
  exists b, IsRedoing_walk fuel c w = Returns b w /\ (b = true <-> redoing_in w l).
Proof.
  intros Hlock. induction 1 as [c x Hx Hp | c x p l Hx Hp Hl IH];
    intros [|fuel] Hfuel; cbn in Hfuel; try lia; cbn [IsRedoing_walk];
    unfold bind at 1; rewrite (load_ctx_live _ _ _ Hx);
    destruct (m_IsRedoing x) eqn:Hu.
  - exists true. split; [reflexivity|]. split; [|reflexivity]. intros _.
    exists c, x. split; [apply list_elem_of_singleton; reflexivity | auto].
  - unfold bind. rewrite (ParentContext_unlocked _ _ _ Hlock Hx), Hp.
    exists false. split; [reflexivity|]. split; [discriminate|].
    intros (a & y & Ha & Hy & Hf). apply list_elem_of_singleton in Ha as ->.
    pose proof (live_ctx_functional _ _ _ _ Hx Hy). congruence.
  - exists true. split; [reflexivity|]. split; [|reflexivity]. intros _.
    exists c, x. split; [apply elem_of_cons; auto | auto].
  - unfold bind. rewrite (ParentContext_unlocked _ _ _ Hlock Hx), Hp.
    destruct (IH fuel ltac:(lia)) as (b & Hb & Hiff). exists b. split; [exact Hb|].
    rewrite Hiff. split.
    + intros (a & y & Ha & Hy & Hf). exists a, y. split; [apply elem_of_cons; auto | auto].
    + intros (a & y & Ha & Hy & Hf). apply elem_of_cons in Ha as [->|Ha].
      * pose proof (live_ctx_functional _ _ _ _ Hx Hy). congruence.
      * exists a, y. auto.
Qed.

Lemma IsUndoing_chain w c l :
  s_Lock w = false -> ancestors w c l ->
  exists b, IsUndoing c w = Returns b w /\ (b = true <-> undoing_in w l).
Proof.
  intros Hlock Hl. unfold IsUndoing.
  apply IsUndoing_walk_chain; [assumption..|]. eapply ancestors_length; eassumption.
Qed.

Lemma IsRedoing_chain w c l :
  s_Lock w = false -> ancestors w c l ->
  exists b, IsRedoing c w = Returns b w /\ (b = true <-> redoing_in w l).
Proof.
  intros Hlock Hl. unfold IsRedoing.
  apply IsRedoing_walk_chain; [assumption..|]. eapply ancestors_length; eassumption.
Qed.

Lemma IsUndoing_false w c l :
  s_Lock w = false -> ancestors w c l -> ~ undoing_in w l ->
  IsUndoing c w = Returns false w.
Proof.
  intros Hlock Hl Hn. destruct (IsUndoing_chain _ _ _ Hlock Hl) as ([|] & Hb & Hiff);
    [exfalso; apply Hn, Hiff; reflexivity | exact Hb].
Qed.

Lemma IsRedoing_false w c l :
  s_Lock w = false -> ancestors w c l -> ~ redoing_in w l ->
  IsRedoing c w = Returns false w.
Proof.
  intros Hlock Hl Hn. destruct (IsRedoing_chain _ _ _ Hlock Hl) as ([|] & Hb & Hiff);
    [exfalso; apply Hn, Hiff; reflexivity | exact Hb].
Qed.

Lemma ancestors_head w c l : ancestors w c l -> head l = Some c.
Proof. destruct 1; reflexivity. Qed.

Lemma ancestors_set_Context w p c l :
  ancestors w c l -> ancestors (set_Context p w) c l.
Proof.
  induction 1 as [c x Hx Hp | c x q l Hx Hp Hl IH].
  - eapply ancestors_root; [exact Hx | exact Hp].
  - eapply ancestors_step; [exact Hx | exact Hp | exact IH].
Qed.

(** On a chain that reaches a root the two walks end, and
    [IsUndoingOrRedoing] answers whether a flag is set along the chain. *)
Lemma IsUndoingOrRedoing_chain w c l :
  s_Lock w = false -> ancestors w c l ->
  exists b, IsUndoingOrRedoing c w = Returns b w /\
            (b = true <-> undoing_in w l \/ redoing_in w l).
Proof.
  intros Hlock Hl. pose proof (ancestors_length _ _ _ Hl) as Hlen.
  destruct (IsUndoing_walk_chain _ _ _ Hlock Hl _ Hlen) as (bu & Hu & Hiu).
  destruct (IsRedoing_walk_chain _ _ _ Hlock Hl _ Hlen) as (br & Hr & Hir).
  unfold IsUndoingOrRedoing, bind, IsUndoing. rewrite Hu.
  destruct bu.
  - exists true. split; [reflexivity|]. intuition.
  - unfold IsRedoing. exists br. split; [exact Hr|]. rewrite Hir.
    split; [auto|]. intros [H|H]; [|exact H]. apply Hiu in H. discriminate.
Qed.

(** C6 (as amended).  While the context or one of its ancestors has
    [m_IsUndoing] or [m_IsRedoing] set, [Push] on the context returns
    without touching the store (stack, cursor and memento maps are as
    before), and [Save] on a record whose sub-context is that context
    returns false, again with the store untouched.  [Push] is a [void]
    function: it returns no value, refused or not. *)
Theorem Push_and_Save_refused_while_replaying w c l :
  ancestors w c l -> undoing_in w l \/ redoing_in w l ->
  (forall name d ud args, Push c name d ud args w = Returns tt w) /\
  (forall r h key v,
      live_rec w r h -> m_SubContext h = c -> Save r key v w = Returns false w).
Proof.
  intros Hl Hflag. destruct (s_Lock w) eqn:Hlock.
  - split.
    + intros. unfold Push. run. rewrite Hlock. reflexivity.
    + intros. unfold Save. run. rewrite Hlock. reflexivity.
  - destruct (IsUndoingOrRedoing_chain _ _ _ Hlock Hl) as (b & Hb & Hiff).
    apply Hiff in Hflag. subst b. split.
    + intros. unfold Push. run. rewrite Hlock. unfold bind in Hb. rewrite Hb. reflexivity.
    + intros r h key v Hr Hsub. unfold Save. run. rewrite Hlock, Hr, Hsub.
      unfold bind in Hb. rewrite Hb. reflexivity.
Qed.

End PhaseGuard.

Lemma Push_and_Save_refused_while_replaying_witness :
  Push 1%nat "SetObject" "SetObject" "SetObject_Undo" [VString "foo"] (Example.in_undo ∅)
  = Returns tt (Example.in_undo ∅) /\
  Save 0%nat "hOldValue<-RemoveObject" (VInt 11) (Example.in_undo ∅)
  = Returns false (Example.in_undo ∅).
Proof.
  assert (Hchain : ancestors (Example.in_undo ∅) 1%nat [1%nat; 0%nat]).
  { eapply ancestors_step; [reflexivity | reflexivity |].
    eapply ancestors_root; reflexivity. }
  assert (Hflag : undoing_in (Example.in_undo ∅) [1%nat; 0%nat]
                  \/ redoing_in (Example.in_undo ∅) [1%nat; 0%nat]).
  { left. eexists 0%nat, _. split; [|split; reflexivity].
    apply elem_of_cons. right. apply elem_of_cons. left. reflexivity. }
  destruct (Push_and_Save_refused_while_replaying _ _ _ Hchain Hflag) as [HP HS].
  split; [apply HP|]. eapply HS; reflexivity.
Defined.

(** C6 (as stated) fails for the result of [Push]: the function is
    [void], so a push that is refused during an undo and a push that goes
    through hand the caller the same empty result; no false is returned. *)
Lemma refused_Push_returns_no_value :
  exists refused accepted w',
    Push 1%nat "SetObject" "SetObject" "SetObject_Undo" [VString "foo"] (Example.in_undo ∅)
    = Returns refused (Example.in_undo ∅) /\
    Push 0%nat "SetObject" "SetObject" "SetObject_Undo" [VString "foo"] Example.undone
    = Returns accepted w' /\
    w' <> Example.undone /\
    refused = accepted.
Proof.
  eexists. eexists. eexists. split; [vm_compute; reflexivity|].
  split; [vm_compute; reflexivity|]. split; [discriminate | reflexivity].
Qed.

(** ** The global lock *)

Section GlobalLock.

Context {Host : Type}.
Implicit Types (w : World Host) (x : HistoryContext) (h : History).

Variable call : FnId -> list Value -> M Host bool.

Lemma perform_locked w op : s_Lock w = true -> perform call op w = Returns tt w.
Proof.
  intros Hl. destruct op; cbn [perform];
    unfold Push, AbortPush, Undo, Redo, Clear, Save, Load, BindOnStackChanged,
      HistoryPushController_ctor, HistoryPushController_dtor,
      HistoryPopController_ctor, HistoryPopController_dtor;
    run; rewrite Hl; reflexivity.
Qed.

(** C7.  While the global lock is set, a sequence of pushes, aborted pushes,
    undos, redos, clears and saves (and of loads, observer bindings and
    controller constructions and destructions) returns with the store
    exactly as it was: no stack and no cursor of any context changes. *)
Theorem global_lock_freezes_store w ops :
  s_Lock w = true -> perform_all call ops w = Returns tt w.
Proof.
  intros Hl. induction ops as [|op ops IH]; [reflexivity|].
  cbn [perform_all]. unfold bind. rewrite perform_locked by assumption. exact IH.
Qed.

Lemma BindOnStackChanged_unlocked w c x f :
  s_Lock w = false -> live_ctx w c x ->
  BindOnStackChanged c f w =
  Returns tt (set_contexts (<[c := Live (with_observer (HostObserver f) x)]> (contexts w)) w).
Proof. intros Hl Hc. unfold BindOnStackChanged. run. rewrite Hl, Hc. reflexivity. Qed.

(** C10.  While the global lock is set, [BindOnStackChanged] leaves the store
    as it is - the observer in place stays - whereas
    [UnbindOnStackChanged] still replaces the observer by the empty
    lambda. *)
Theorem Bind_is_locked_out_Unbind_is_not w c x f :
  s_Lock w = true -> live_ctx w c x ->
  BindOnStackChanged c f w = Returns tt w /\
  exists w',
    UnbindOnStackChanged c w = Returns tt w' /\
    live_ctx w' c (with_observer NoopObserver x) /\
    s_Lock w' = true.
Proof.
  intros Hl Hc. split.
  - unfold BindOnStackChanged. run. rewrite Hl. reflexivity.
  - eexists. split; [|split].
    + unfold UnbindOnStackChanged. run. rewrite Hc. reflexivity.
    + unfold live_ctx. cbn. apply lookup_insert_eq.
    + exact Hl.
Qed.

End GlobalLock.

Lemma global_lock_freezes_store_witness :
  perform_all Example.idle
    [OpPush 0%nat "SetObject" "SetObject" "SetObject_Undo" [VString "foo"];
     OpAbortPush 0%nat; OpUndo 0%nat; OpRedo 0%nat; OpClear 0%nat;
     OpSave 0%nat "hOldValue<-RemoveObject" (VInt 11)]
    Example.locked_observed
  = Returns tt Example.locked_observed.
Proof. apply global_lock_freezes_store. reflexivity. Defined.

Lemma Bind_is_locked_out_Unbind_is_not_witness :
  BindOnStackChanged 0%nat "Repaint" Example.locked_observed
  = Returns tt Example.locked_observed /\
  exists w',
    UnbindOnStackChanged 0%nat Example.locked_observed = Returns tt w' /\
    live_ctx w' 0%nat
      (mkContext [None; Some 0%nat] 1 false false None NoopObserver false) /\
    s_Lock w' = true.
Proof.
  exact (Bind_is_locked_out_Unbind_is_not Example.locked_observed 0%nat _ "Repaint"
           eq_refl eq_refl).
Defined.

(** ** Undo and redo *)

Section ReplayOrder.

Context {Host : Type}.
Implicit Types (w : World Host) (x : HistoryContext) (h : History).

Variable call : FnId -> list Value -> M Host bool.

Lemma incr_in_range i : i < Int.INT_MAX -> Int.incr i = Some (i + 1).
Proof. intros H. unfold Int.incr. destruct (Z.ltb_spec i Int.INT_MAX); [reflexivity|lia]. Qed.

Lemma decr_in_range i : Int.INT_MIN < i -> Int.decr i = Some (i - 1).
Proof. intros H. unfold Int.decr. destruct (Z.ltb_spec Int.INT_MIN i); [reflexivity|lia]. Qed.

Lemma Redo_runs_body w c x r h :
  s_Lock w = false -> live_ctx w c x -> m_Mutex x = false ->
  0 <= m_PresentHistoryIdx x < vec_size (m_HistoryStack x) - 1 -> int_sized x ->
  m_HistoryStack x !! Z.to_nat (m_PresentHistoryIdx x + 1) = Some (Some r) ->
  live_rec w r h ->
  forall result w1 x1,
    call (m_DoFunc h) (m_Params h) (entering_redo c x w) = Returns result w1 ->
    live_ctx w1 c x1 ->
    Redo call c w = Returns result (leaving_redo c x1 w1).
Proof.
  intros Hl Hc Hm Hp Hsz Hr Hh result w1 x1 Hcall Hc1.
  unfold int_sized in Hsz.
  unfold Redo, scoped_lock, unlock, History_Redo. run. rewrite Hl, Hc, Hm. run.
  cbn [m_PresentHistoryIdx m_HistoryStack with_mutex with_redoing with_present].
  rewrite !to_size_t_small by lia.
  destruct (Z.eqb_spec (m_PresentHistoryIdx x) (vec_size (m_HistoryStack x) - 1)); [lia|].
  run. cbn [m_PresentHistoryIdx m_HistoryStack with_mutex with_redoing with_present].
  rewrite incr_in_range by lia. run.
  rewrite (vec_at_in_range _ _ (Some r)) by (assumption || lia).
  rewrite Hh. unfold entering_redo, leaving_redo in *. flat_world.
  rewrite !insert_insert_eq, Hcall, Hc1.
  repeat (flat_world; rewrite ?lookup_insert_eq, ?insert_insert_eq).
  reflexivity.
Qed.

Lemma Undo_runs_body w c x r h :
  s_Lock w = false -> live_ctx w c x -> m_Mutex x = false ->
  1 <= m_PresentHistoryIdx x <= Int.INT_MAX ->
  m_HistoryStack x !! Z.to_nat (m_PresentHistoryIdx x) = Some (Some r) ->
  live_rec w r h ->
  forall result w1 x1,
    call (m_UndoFunc h) (m_Params h) (entering_undo c x w) = Returns result w1 ->
    live_ctx w1 c x1 -> Int.INT_MIN < m_PresentHistoryIdx x1 ->
    Undo call c w = Returns result (leaving_undo c x1 w1).
Proof.
  intros Hl Hc Hm Hp Hr Hh result w1 x1 Hcall Hc1 Hmin.
  unfold Undo, scoped_lock, unlock, History_Undo. run. rewrite Hl, Hc, Hm. run.
  cbn [m_PresentHistoryIdx m_HistoryStack with_mutex with_undoing with_present].
  destruct (Z.eqb_spec (m_PresentHistoryIdx x) 0); [lia|].
  run. cbn [m_PresentHistoryIdx m_HistoryStack with_mutex with_undoing with_present].
  rewrite (vec_at_in_range _ _ (Some r)) by (assumption || lia).
  rewrite Hh. unfold entering_undo, leaving_undo in *. flat_world.
  rewrite !insert_insert_eq, Hcall, Hc1. rewrite decr_in_range by assumption.
  repeat (flat_world; rewrite ?lookup_insert_eq, ?insert_insert_eq).
  reflexivity.
Qed.

(** C3 (as amended).  [Redo()] moves the cursor first: the do-closure of
    the record in slot [present+1] is invoked on a store in which the
    cursor already stands on that record and [m_IsRedoing] is set; when the
    closure has returned, [Redo()] leaves the cursor where the closure left
    it, clears the flag, notifies and returns the closure's result.
    [Undo()] invokes the undo-closure of the record under the cursor with
    [m_IsUndoing] set and the cursor unmoved, and decrements the cursor only
    when the closure has returned, before it clears the flag. *)
Theorem Redo_moves_cursor_before_body_Undo_after w c x :
  s_Lock w = false -> live_ctx w c x -> m_Mutex x = false ->
  (forall r h,
      0 <= m_PresentHistoryIdx x < vec_size (m_HistoryStack x) - 1 -> int_sized x ->
      m_HistoryStack x !! Z.to_nat (m_PresentHistoryIdx x + 1) = Some (Some r) ->
      live_rec w r h ->
      (exists x_in,
          live_ctx (entering_redo c x w) c x_in /\
          m_PresentHistoryIdx x_in = m_PresentHistoryIdx x + 1 /\
          m_IsRedoing x_in = true) /\
      forall result w1 x1,
        call (m_DoFunc h) (m_Params h) (entering_redo c x w) = Returns result w1 ->
        live_ctx w1 c x1 ->
        Redo call c w = Returns result (leaving_redo c x1 w1) /\
        exists x_out,
          live_ctx (leaving_redo c x1 w1) c x_out /\
          m_PresentHistoryIdx x_out = m_PresentHistoryIdx x1 /\
          m_IsRedoing x_out = false) /\
  (forall r h,
      1 <= m_PresentHistoryIdx x <= Int.INT_MAX ->
      m_HistoryStack x !! Z.to_nat (m_PresentHistoryIdx x) = Some (Some r) ->
      live_rec w r h ->
      (exists x_in,
          live_ctx (entering_undo c x w) c x_in /\
          m_PresentHistoryIdx x_in = m_PresentHistoryIdx x /\
          m_IsUndoing x_in = true) /\
      forall result w1 x1,
        call (m_UndoFunc h) (m_Params h) (entering_undo c x w) = Returns result w1 ->
        live_ctx w1 c x1 -> Int.INT_MIN < m_PresentHistoryIdx x1 ->
        Undo call c w = Returns result (leaving_undo c x1 w1) /\
        exists x_out,
          live_ctx (leaving_undo c x1 w1) c x_out /\
          m_PresentHistoryIdx x_out = m_PresentHistoryIdx x1 - 1 /\
          m_IsUndoing x_out = false).
Proof.
  intros Hl Hc Hm. split.
  - intros r h Hp Hsz Hr Hh. split.
    + eexists. split; [unfold live_ctx, entering_redo; cbn; apply lookup_insert_eq|].
      split; reflexivity.
    + intros result w1 x1 Hcall Hc1. split.
      * eapply Redo_runs_body; eassumption.
      * eexists. split; [unfold live_ctx, leaving_redo; cbn; apply lookup_insert_eq|].
        split; reflexivity.
  - intros r h Hp Hr Hh. split.
    + eexists. split; [unfold live_ctx, entering_undo; cbn; apply lookup_insert_eq|].
      split; reflexivity.
    + intros result w1 x1 Hcall Hc1 Hmin. split.
      * eapply Undo_runs_body; eassumption.
      * eexists. split; [unfold live_ctx, leaving_undo; cbn; apply lookup_insert_eq|].
        split; reflexivity.
Qed.

End ReplayOrder.

Lemma Redo_moves_cursor_before_body_Undo_after_witness :
  (exists w', Redo Example.idle 0%nat Example.undone = Returns true w') /\
  (exists w', Undo Example.idle 0%nat (Example.recorded ∅) = Returns true w').
Proof.
  split.
  - destruct (Redo_moves_cursor_before_body_Undo_after Example.idle Example.undone 0%nat _
                eq_refl eq_refl eq_refl) as [HR _].
    destruct (HR 0%nat _ ltac:(vm_compute; split; congruence)
                ltac:(vm_compute; congruence) eq_refl eq_refl) as [_ HR'].
    destruct (HR' true _ _ eq_refl eq_refl) as [HR'' _].
    eexists. exact HR''.
  - destruct (Redo_moves_cursor_before_body_Undo_after Example.idle (Example.recorded ∅) 0%nat _
                eq_refl eq_refl eq_refl) as [_ HU].
    destruct (HU 0%nat _ ltac:(vm_compute; split; congruence) eq_refl eq_refl) as [_ HU'].
    destruct (HU' true _ _ eq_refl eq_refl ltac:(vm_compute; reflexivity)) as [HU'' _].
    eexists. exact HU''.
Defined.

(** C3 (as stated) fails for redo: with the cursor at 0 before [Redo()],
    the do-closure already finds it at 1. *)
Lemma Redo_body_finds_cursor_advanced :
  (forall x, live_ctx Example.undone 0%nat x -> m_PresentHistoryIdx x = 0) /\
  (exists w', Redo (Example.cursor_probe 0%nat 0) 0%nat Example.undone = Returns false w') /\
  (exists w', Redo (Example.cursor_probe 0%nat 1) 0%nat Example.undone = Returns true w').
Proof.
  split; [|split].
  - intros x Hx. unfold live_ctx in Hx. vm_compute in Hx. injection Hx as <-. reflexivity.
  - eexists. vm_compute. reflexivity.
  - eexists. vm_compute. reflexivity.
Qed.

(** ** Notifications *)

Section Notifications.

Context {Host : Type}.
Implicit Types (w : World Host) (x : HistoryContext) (h : History).

Variable call : FnId -> list Value -> M Host bool.

(** The queries read the store and leave it alone. *)
Lemma ParentContext_pure w c p w' : ParentContext c w = Returns p w' -> w' = w.
Proof.
  unfold ParentContext. run. destruct (s_Lock w); [congruence|].
  destruct (contexts w !! c) as [[x|]|]; congruence.
Qed.

Lemma IsUndoing_walk_pure fuel :
  forall c w b w', IsUndoing_walk fuel c w = Returns b w' -> w' = w.
Proof.
  induction fuel as [|fuel IH]; intros c w b w'; cbn [IsUndoing_walk]; [discriminate|].
  unfold bind at 1. unfold load_ctx.
  destruct (contexts w !! c) as [[x|]|]; try discriminate.
  destruct (m_IsUndoing x); [unfold ret; congruence|].
  unfold bind. destruct (ParentContext c w) as [p w1| |] eqn:Hp; try discriminate.
  apply ParentContext_pure in Hp as ->.
  destruct p as [p|]; [apply IH | unfold ret; congruence].
Qed.

Lemma IsRedoing_walk_pure fuel :
  forall c w b w', IsRedoing_walk fuel c w = Returns b w' -> w' = w.
Proof.
  induction fuel as [|fuel IH]; intros c w b w'; cbn [IsRedoing_walk]; [discriminate|].
  unfold bind at 1. unfold load_ctx.
  destruct (contexts w !! c) as [[x|]|]; try discriminate.
  destruct (m_IsRedoing x); [unfold ret; congruence|].
  unfold bind. destruct (ParentContext c w) as [p w1| |] eqn:Hp; try discriminate.
  apply ParentContext_pure in Hp as ->.
  destruct p as [p|]; [apply IH | unfold ret; congruence].
Qed.

Lemma IsUndoing_pure c w b w' : IsUndoing c w = Returns b w' -> w' = w.
Proof. apply IsUndoing_walk_pure. Qed.

Lemma IsRedoing_pure c w b w' : IsRedoing c w = Returns b w' -> w' = w.
Proof. apply IsRedoing_walk_pure. Qed.

Lemma IsUndoingOrRedoing_pure c w b w' :
  IsUndoingOrRedoing c w = Returns b w' -> w' = w.
Proof.
  unfold IsUndoingOrRedoing, bind.
  destruct (IsUndoing c w) as [u w1| |] eqn:Hu; try discriminate.
  apply IsUndoing_pure in Hu as ->.
  destruct u; [unfold ret; congruence | apply IsRedoing_pure].
Qed.

(** [AbortPush] never calls the observer. *)
Lemma AbortPush_silent w c w' :
  AbortPush c w = Returns tt w' -> events w' = events w.
Proof.
  unfold AbortPush. run. destruct (s_Lock w); [congruence|].
  destruct (IsUndoingOrRedoing c w) as [b w1| |] eqn:Hb; try discriminate.
  apply IsUndoingOrRedoing_pure in Hb as ->.
  destruct b; [congruence|].
  destruct (contexts w !! c) as [[x|]|]; try discriminate.
  destruct (Int.decr (m_PresentHistoryIdx x)); try discriminate.
  destruct (m_HistoryStack x); [discriminate|].
  run. intros [= <-]. reflexivity.
Qed.

(** The release of a push scope whose context is neither undoing nor, after
    the ascent, redoing: the parent becomes the active context and its
    observer is called once with its cursor. *)
Lemma PushController_release_fires w sub c xc l :
  s_Lock w = false -> s_Context w = Some sub ->
  ancestors w sub (sub :: l) -> ancestors w c l -> live_ctx w c xc ->
  ~ undoing_in w (sub :: l) -> ~ redoing_in w l ->
  HistoryPushController_dtor (mkPushController true) w =
  Returns (mkPushController false)
    (set_events (events w ++ [StackChanged c (m_OnStackChanged xc) (m_PresentHistoryIdx xc)])
       (set_Context (Some c) w)).
Proof.
  intros Hl Hs Hsub Hc Hxc Hnu Hnr.
  assert (Hpar : ParentContext sub w = Returns (Some c) w).
  { pose proof (ancestors_head _ _ _ Hc) as Hhd.
    inversion Hsub as [? xs Hxs Hp | ? xs p l' Hxs Hp Hl']; subst; [discriminate|].
    apply ancestors_head in Hl'. rewrite Hhd in Hl'. injection Hl' as <-.
    rewrite (ParentContext_unlocked _ _ _ Hl Hxs), Hp. reflexivity. }
  pose proof (IsUndoing_false _ _ _ Hl Hsub Hnu) as Hu.
  assert (Hr : IsRedoing c (set_Context (Some c) w) = Returns false (set_Context (Some c) w)).
  { eapply IsRedoing_false; [exact Hl | apply ancestors_set_Context; exact Hc | exact Hnr]. }
  assert (Hpc : ParentContext c (set_Context (Some c) w)
                = Returns (m_ParentContext xc) (set_Context (Some c) w)).
  { apply ParentContext_unlocked; [exact Hl | exact Hxc]. }
  unfold HistoryPushController_dtor, GetContext_deref, GetContext, SetContext.
  repeat (unfold bind, gets, ret, modify, lift, undefined;
          cbn [active negb s_Context s_Lock set_Context];
          rewrite ?Hl, ?Hs, ?Hu, ?Hpar).
  fold (set_Context (Some c) w). rewrite Hpc.
  destruct (m_ParentContext xc); rewrite !Hr; cbn [negb];
    unfold OnStackChanged, bind, load_ctx, modify, ret;
    change (contexts (set_Context (Some c) w)) with (contexts w);
    rewrite !Hxc; reflexivity.
Qed.

(** C9 (as amended).  Each of the following calls the observer of the
    context exactly once: an [Undo()] and a [Redo()] that get past their
    guards (after the closure has returned, with the new cursor), the
    release of a push scope that ascends to a context which is not
    redoing - the completion of a top-level push -, and [Clear()].
    [AbortPush()] itself never calls the observer; the forced release
    that starts an abort is a release like any other and does call the
    observer. *)
Theorem observer_called_once_per_operation w c x :
  s_Lock w = false -> live_ctx w c x ->
  (forall r h result w1 x1,
      m_Mutex x = false -> 1 <= m_PresentHistoryIdx x <= Int.INT_MAX ->
      m_HistoryStack x !! Z.to_nat (m_PresentHistoryIdx x) = Some (Some r) ->
      live_rec w r h ->
      call (m_UndoFunc h) (m_Params h) (entering_undo c x w) = Returns result w1 ->
      live_ctx w1 c x1 -> Int.INT_MIN < m_PresentHistoryIdx x1 ->
      exists w', Undo call c w = Returns result w' /\
        events w' = events w1 ++
          [StackChanged c (m_OnStackChanged x1) (m_PresentHistoryIdx x1 - 1)]) /\
  (forall r h result w1 x1,
      m_Mutex x = false ->
      0 <= m_PresentHistoryIdx x < vec_size (m_HistoryStack x) - 1 -> int_sized x ->
      m_HistoryStack x !! Z.to_nat (m_PresentHistoryIdx x + 1) = Some (Some r) ->
      live_rec w r h ->
      call (m_DoFunc h) (m_Params h) (entering_redo c x w) = Returns result w1 ->
      live_ctx w1 c x1 ->
      exists w', Redo call c w = Returns result w' /\
        events w' = events w1 ++
          [StackChanged c (m_OnStackChanged x1) (m_PresentHistoryIdx x1)]) /\
  (forall sub l,
      s_Context w = Some sub ->
      ancestors w sub (sub :: l) -> ancestors w c l ->
      ~ undoing_in w (sub :: l) -> ~ redoing_in w l ->
      exists w', HistoryPushController_dtor (mkPushController true) w
                 = Returns (mkPushController false) w' /\
        events w' = events w ++
          [StackChanged c (m_OnStackChanged x) (m_PresentHistoryIdx x)]) /\
  (exists w', Clear c w = Returns tt w' /\
      events w' = events w ++ [StackChanged c (m_OnStackChanged x) 0]) /\
  (forall w', AbortPush c w = Returns tt w' -> events w' = events w).
Proof.
  intros Hl Hc. split; [|split; [|split; [|split]]].
  - intros r h result w1 x1 Hm Hp Hr Hh Hcall Hc1 Hmin.
    eexists. split; [eapply Undo_runs_body; eassumption | reflexivity].
  - intros r h result w1 x1 Hm Hp Hsz Hr Hh Hcall Hc1.
    eexists. split; [eapply Redo_runs_body; eassumption | reflexivity].
  - intros sub l Hs Hsub Hcl Hnu Hnr.
    eexists. split; [eapply PushController_release_fires; eassumption | reflexivity].
  - eexists. split; [eapply Clear_unlocked; eassumption | reflexivity].
  - intros w'. apply AbortPush_silent.
Qed.

End Notifications.

Lemma observer_called_once_per_operation_witness :
  (exists w', Undo Example.idle 0%nat (Example.recorded ∅) = Returns true w' /\
              events w' = [StackChanged 0%nat NoopObserver 0]) /\
  (exists w', Redo Example.idle 0%nat Example.undone = Returns true w' /\
              events w' = [StackChanged 0%nat NoopObserver 1]) /\
  (exists w', HistoryPushController_dtor (mkPushController true) Example.in_do
              = Returns (mkPushController false) w' /\
              events w' = [StackChanged 0%nat NoopObserver 1]) /\
  (exists w', Clear 0%nat (Example.recorded ∅) = Returns tt w' /\
              events w' = [StackChanged 0%nat NoopObserver 0]).
Proof.
  split; [|split; [|split]].
  - destruct (observer_called_once_per_operation Example.idle (Example.recorded ∅) 0%nat _
                eq_refl eq_refl) as (HU & _).
    destruct (HU 0%nat _ true _ _ eq_refl ltac:(vm_compute; split; congruence)
                eq_refl eq_refl eq_refl eq_refl ltac:(vm_compute; reflexivity))
      as (w' & HU' & He).
    exists w'. split; [exact HU' | exact He].
  - destruct (observer_called_once_per_operation Example.idle Example.undone 0%nat _
                eq_refl eq_refl) as (_ & HR & _).
    destruct (HR 0%nat _ true _ _ eq_refl ltac:(vm_compute; split; congruence)
                ltac:(vm_compute; congruence) eq_refl eq_refl eq_refl eq_refl)
      as (w' & HR' & He).
    exists w'. split; [exact HR' | exact He].
  - destruct (observer_called_once_per_operation Example.idle Example.in_do 0%nat _
                eq_refl eq_refl) as (_ & _ & HP & _).
    assert (Hroot : ancestors Example.in_do 0%nat [0%nat])
      by (eapply ancestors_root; reflexivity).
    assert (Hsub : ancestors Example.in_do 1%nat [1%nat; 0%nat])
      by (eapply ancestors_step; [reflexivity | reflexivity | exact Hroot]).
    destruct (HP 1%nat [0%nat] eq_refl Hsub Hroot) as (w' & HP' & He).
    + intros (a & y & Ha & Hy & Hf). unfold live_ctx in Hy.
      apply elem_of_cons in Ha as [->|Ha];
        [|apply list_elem_of_singleton in Ha as ->];
        vm_compute in Hy; injection Hy as <-; discriminate.
    + intros (a & y & Ha & Hy & Hf). unfold live_ctx in Hy.
      apply list_elem_of_singleton in Ha as ->.
      vm_compute in Hy; injection Hy as <-; discriminate.
    + exists w'. split; [exact HP' | exact He].
  - destruct (observer_called_once_per_operation Example.idle (Example.recorded ∅) 0%nat _
                eq_refl eq_refl) as (_ & _ & _ & HC & _).
    exact HC.
Defined.

(** C9 (as stated) fails for the aborted push: when [HISTORY_PUSH]
    followed by [HISTORY_ABORT_PUSH] has run, cursor and stack are back,
    but the forced release of the push scope has called the observer. *)
Lemma aborted_push_notifies :
  exists w',
    Example.aborted_push Example.fresh_active = Returns tt w' /\
    live_ctx w' 0%nat (HistoryContext_ctor None) /\
    events w' = [StackChanged 0%nat NoopObserver 1] /\
    events w' <> events Example.fresh_active.
Proof.
  eexists. split; [vm_compute; reflexivity|].
  split; [reflexivity|]. split; [reflexivity | discriminate].
Qed.

(** ** The cursor invariant *)

Section WeakestPreconditions.

Context {Host : Type}.
Implicit Types (w : World Host) (x : HistoryContext) (h : History).

Lemma wp_returns {A} (m : M Host A) Q w a w' :
  wp m Q w -> m w = Returns a w' -> Q a w'.
Proof. unfold wp. intros H E. rewrite E in H. exact H. Qed.

Lemma wp_bind {A B} (m : M Host A) (k : A -> M Host B) Q w :
  wp m (fun a w' => wp (k a) Q w') w -> wp (bind m k) Q w.
Proof. unfold wp, bind. destruct (m w); auto. Qed.

Lemma wp_ret {A} (a : A) (Q : A -> World Host -> Prop) w : Q a w -> wp (ret a) Q w.
Proof. auto. Qed.

Lemma wp_gets {A} (f : World Host -> A) (Q : A -> World Host -> Prop) w :
  Q (f w) w -> wp (gets f) Q w.
Proof. auto. Qed.

Lemma wp_modify (f : World Host -> World Host) (Q : unit -> World Host -> Prop) w :
  Q tt (f w) -> wp (modify f) Q w.
Proof. auto. Qed.

Lemma wp_lift {A} (o : option A) (Q : A -> World Host -> Prop) w :
  (forall a, o = Some a -> Q a w) -> wp (lift o) Q w.
Proof. intros H. destruct o; cbn; auto. Qed.

Lemma wp_load_ctx c (Q : HistoryContext -> World Host -> Prop) w :
  (forall x, live_ctx w c x -> Q x w) -> wp (load_ctx c) Q w.
Proof.
  intros H. unfold wp, load_ctx.
  destruct (contexts w !! c) as [[x|]|] eqn:E; auto.
Qed.

Lemma wp_load_rec r (Q : History -> World Host -> Prop) w :
  (forall h, live_rec w r h -> Q h w) -> wp (load_rec r) Q w.
Proof.
  intros H. unfold wp, load_rec.
  destruct (records w !! r) as [[h|]|] eqn:E; auto.
Qed.

Lemma wp_pure {A} (m : M Host A) (Q : A -> World Host -> Prop) w :
  (forall a w', m w = Returns a w' -> w' = w) ->
  (forall a, m w = Returns a w -> Q a w) -> wp m Q w.
Proof.
  intros Hpure H. unfold wp. destruct (m w) as [a w'| |] eqn:E; auto.
  pose proof (Hpure _ _ eq_refl). subst w'. auto.
Qed.

Lemma in_range_live w c x : all_in_range w -> live_ctx w c x -> cursor_in_range x.
Proof. intros H Hc. exact (H c (Live x) Hc). Qed.

Lemma in_range_store m c x :
  ctxs_in_range m -> cursor_in_range x -> ctxs_in_range (<[c := Live x]> m).
Proof. intros Hm Hx. apply map_Forall_insert_2; assumption. Qed.

End WeakestPreconditions.

(** One step of a weakest-precondition proof, following the shape of the
    program. *)
Ltac wp_step :=
  cbn beta iota;
  lazymatch goal with
  | |- wp (bind _ _) _ _ => apply wp_bind
  | |- wp (ret _) _ _ => apply wp_ret
  | |- wp (gets _) _ _ => apply wp_gets
  | |- wp (modify _) _ _ => apply wp_modify
  | |- wp undefined _ _ => exact I
  | |- wp throw _ _ => exact I
  | |- wp (lift _) _ _ => apply wp_lift; intros ? ?; subst
  | |- wp (load_ctx _) _ _ =>
      let H := fresh "Hlive" in
      apply wp_load_ctx; intros ? H; unfold live_ctx in H;
      cbn [contexts set_Context set_Lock set_id set_contexts set_records
           set_events set_host] in H;
      try (rewrite lookup_insert_eq in H; injection H as <-)
  | |- wp (load_rec _) _ _ =>
      let H := fresh "Hlive" in
      apply wp_load_rec; intros ? H; unfold live_rec in H;
      cbn [records set_Context set_Lock set_id set_contexts set_records
           set_events set_host] in H;
      try (rewrite lookup_insert_eq in H; injection H as <-)
  | |- wp (store_ctx _ _) _ _ => unfold store_ctx
  | |- wp (store_rec _ _) _ _ => unfold store_rec
  | |- wp (update_ctx _ _) _ _ => unfold update_ctx
  | |- wp (OnStackChanged _ _) _ _ => unfold OnStackChanged
  | |- wp (SetContext _) _ _ => unfold SetContext
  | |- wp GetContext_deref _ _ => unfold GetContext_deref
  | |- wp GetContext _ _ => unfold GetContext
  | |- wp (unlock _) _ _ => unfold unlock
  | |- wp (History_Undo _ _) _ _ => unfold History_Undo
  | |- wp (History_Redo _ _) _ _ => unfold History_Redo
  | |- wp (if ?b then _ else _) _ _ => destruct b eqn:?
  | |- wp (match ?o with Some _ => _ | None => _ end) _ _ => destruct o eqn:?
  | |- wp (match ?l with [] => _ | _ :: _ => _ end) _ _ => destruct l eqn:?
  end; cbn beta iota.

(** Closing a goal that says the cursors of a store are in range. *)
Ltac in_range_arith :=
  unfold cursor_in_range, vec_size in *;
  cbn [m_HistoryStack m_PresentHistoryIdx with_stack with_present with_undoing
       with_redoing with_observer with_mutex] in *;
  repeat match goal with
         | H : Int.incr _ = Some _ |- _ => apply incr_Some in H as [? ?]
         | H : Int.decr _ = Some _ |- _ => apply decr_Some in H as [? ?]
         | H : (_ <? _) = true |- _ => apply Z.ltb_lt in H
         | H : (_ <? _) = false |- _ => apply Z.ltb_ge in H
         | H : (_ =? _) = true |- _ => apply Z.eqb_eq in H
         | H : (_ =? _) = false |- _ => apply Z.eqb_neq in H
         end;
  rewrite ?length_app, ?length_removelast in *; cbn [length] in *;
  repeat match goal with
         | H : context [Int.to_int ?z] |- _ =>
             let t := fresh "t" in set (t := Int.to_int z) in *; clearbody t
         end;
  try lia.

(** Two reads of one cell give one value; a live context of a store whose
    cursors are in range has its cursor in range. *)
Ltac dedup_live :=
  unfold live_ctx, live_rec in *;
  repeat match goal with
         | H1 : ?l = Some (Live ?x), H2 : ?l = Some (Live ?y) |- _ =>
             rewrite H1 in H2; injection H2 as <-
         end.

Ltac use_range :=
  repeat match goal with
         | Hw : all_in_range ?w, H : contexts ?w !! ?c = Some (Live ?x) |- _ =>
             lazymatch goal with
             | _ : cursor_in_range x |- _ => fail
             | _ => pose proof (in_range_live w c x Hw H)
             end
         end.

Ltac in_range_done :=
  dedup_live; use_range;
  unfold all_in_range in *;
  cbn [contexts set_Context set_Lock set_id set_contexts set_records
       set_events set_host] in *;
  rewrite ?insert_insert_eq;
  first [ assumption
        | apply in_range_store; [assumption|]; in_range_arith ].

Section CursorInvariant.

Context {Host : Type}.
Implicit Types (w : World Host) (x : HistoryContext) (h : History).

Variable call : FnId -> list Value -> M Host bool.

Lemma to_int_le z : 0 <= z -> Int.to_int z <= z.
Proof.
  intros Hz. unfold Int.to_int.
  pose proof (Z.mod_le (z + 2 ^ 31) (2 ^ 32) ltac:(lia) ltac:(lia)). lia.
Qed.

Lemma wp_IsUndoing c (Q : bool -> World Host -> Prop) w :
  (forall b, Q b w) -> wp (IsUndoing c) Q w.
Proof. intros H. apply wp_pure; [apply IsUndoing_pure | auto]. Qed.

Lemma wp_IsRedoing c (Q : bool -> World Host -> Prop) w :
  (forall b, Q b w) -> wp (IsRedoing c) Q w.
Proof. intros H. apply wp_pure; [apply IsRedoing_pure | auto]. Qed.

Lemma wp_IsUndoingOrRedoing c (Q : bool -> World Host -> Prop) w :
  (forall b, Q b w) -> wp (IsUndoingOrRedoing c) Q w.
Proof. intros H. apply wp_pure; [apply IsUndoingOrRedoing_pure | auto]. Qed.

Lemma wp_ParentContext c (Q : option CtxAddr -> World Host -> Prop) w :
  (forall p, Q p w) -> wp (ParentContext c) Q w.
Proof. intros H. apply wp_pure; [apply ParentContext_pure | auto]. Qed.

Lemma Clear_in_range c w : all_in_range w -> wp (Clear c) (fun _ w' => all_in_range w') w.
Proof. intros Hw. unfold Clear. repeat wp_step; in_range_done. Qed.

Lemma AbortPush_in_range c w :
  all_in_range w -> (forall x, live_ctx w c x -> 1 <= m_PresentHistoryIdx x) ->
  wp (AbortPush c) (fun _ w' => all_in_range w') w.
Proof.
  intros Hw Hpos. unfold AbortPush. wp_step. wp_step. wp_step; [wp_step; assumption|].
  wp_step. apply wp_IsUndoingOrRedoing. intros b. destruct b; [wp_step; assumption|].
  wp_step. wp_step. pose proof (Hpos _ Hlive).
  repeat wp_step. in_range_done.
Qed.

Lemma Save_in_range r key v w :
  all_in_range w -> wp (Save r key v) (fun _ w' => all_in_range w') w.
Proof.
  intros Hw. unfold Save. repeat wp_step; try assumption.
  apply wp_IsUndoingOrRedoing. intros b. repeat wp_step; assumption.
Qed.

Lemma Load_in_range r T key out w :
  all_in_range w -> wp (Load r T key out) (fun _ w' => all_in_range w') w.
Proof.
  intros Hw. unfold Load. repeat wp_step; try assumption.
  apply wp_IsUndoingOrRedoing. intros b. repeat wp_step; try assumption.
  destruct (map_subscript (m_Data h) (lookup_id key)) as [m' a].
  repeat wp_step; assumption.
Qed.

Lemma Bind_in_range c f w :
  all_in_range w -> wp (BindOnStackChanged c f) (fun _ w' => all_in_range w') w.
Proof.
  intros Hw. unfold BindOnStackChanged. repeat wp_step; in_range_done.
Qed.

Lemma wp_Present c (Q : option RecAddr -> World Host -> Prop) w :
  (forall p, Q p w) -> wp (Present c) Q w.
Proof. intros H. unfold Present. repeat wp_step; auto. Qed.

Lemma wp_SubContext_of p (Q : CtxAddr -> World Host -> Prop) w :
  (forall sub, Q sub w) -> wp (SubContext_of p) Q w.
Proof. intros H. unfold SubContext_of. repeat wp_step; auto. Qed.

Lemma PushController_ctor_in_range w :
  all_in_range w -> wp HistoryPushController_ctor (fun _ w' => all_in_range w') w.
Proof.
  intros Hw. unfold HistoryPushController_ctor. cbn zeta.
  repeat wp_step; try assumption.
  apply wp_IsUndoing. intros u. repeat wp_step; try assumption.
  apply wp_Present. intros p. wp_step. apply wp_SubContext_of. intros sub.
  repeat wp_step. assumption.
Qed.

Lemma PopController_ctor_in_range w :
  all_in_range w -> wp HistoryPopController_ctor (fun _ w' => all_in_range w') w.
Proof.
  intros Hw. unfold HistoryPopController_ctor.
  repeat wp_step; try assumption.
  apply wp_Present. intros p. wp_step. apply wp_SubContext_of. intros sub.
  repeat wp_step. assumption.
Qed.

Lemma PopController_dtor_in_range w :
  all_in_range w -> wp HistoryPopController_dtor (fun _ w' => all_in_range w') w.
Proof.
  intros Hw. unfold HistoryPopController_dtor.
  repeat wp_step; try assumption.
  apply wp_ParentContext. intros parent. repeat wp_step; try assumption.
  apply wp_ParentContext. intros pp. repeat wp_step; in_range_done.
Qed.

Lemma PushController_dtor_in_range ctl w :
  all_in_range w -> wp (HistoryPushController_dtor ctl) (fun _ w' => all_in_range w') w.
Proof.
  intros Hw. unfold HistoryPushController_dtor.
  repeat wp_step; try assumption.
  apply wp_IsUndoing. intros u. repeat wp_step; try assumption.
  apply wp_ParentContext. intros parent. repeat wp_step; try assumption.
  apply wp_ParentContext. intros pp. wp_step. wp_step.
  - wp_step. apply wp_IsRedoing. intros rd. wp_step.
    + repeat wp_step.
      * match goal with
        | _ : context [Int.to_int (vec_size ?s)] |- _ =>
            pose proof (to_int_le (vec_size s) ltac:(unfold vec_size; lia))
        end.
        in_range_done.
      * apply wp_IsRedoing. intros rd'. repeat wp_step; in_range_done.
    + repeat wp_step. apply wp_IsRedoing. intros rd'. repeat wp_step; in_range_done.
  - repeat wp_step. apply wp_IsRedoing. intros rd'. repeat wp_step; in_range_done.
Qed.

Lemma wp_scoped_lock {A} c (body : M Host A) (Q : A -> World Host -> Prop) w :
  (forall x, live_ctx w c x -> m_Mutex x = false ->
     wp body (fun a w2 => wp (unlock c) (fun _ w3 => Q a w3) w2)
        (set_contexts (<[c := Live (with_mutex true x)]> (contexts w)) w)) ->
  wp (scoped_lock c body) Q w.
Proof.
  intros H. unfold wp at 1, scoped_lock. unfold bind at 1, load_ctx.
  destruct (contexts w !! c) as [[x|]|] eqn:Hx; try exact I.
  destruct (m_Mutex x) eqn:Hm; [exact I|].
  specialize (H x Hx Hm). unfold store_ctx, modify. unfold wp at 1 in H.
  destruct (body _) as [a w2|w2|]; [| |exact I].
  - unfold bind, ret. unfold wp in H. destruct (unlock c w2); auto.
  - unfold bind, throw. destruct (unlock c w2); exact I.
Qed.

Lemma Undo_in_range c w :
  all_in_range w -> keeps_range call (OpUndo c) w ->
  wp (Undo call c) (fun _ w' => all_in_range w') w.
Proof.
  intros Hw Hkeep. cbn [keeps_range] in Hkeep. unfold Undo.
  wp_step. wp_step. wp_step; [wp_step; assumption|].
  apply wp_scoped_lock. intros x Hx Hm. repeat wp_step; [in_range_done|].
  unfold wp at 1. flat_world. rewrite !insert_insert_eq.
  destruct (call _ _ _) as [result w1| |] eqn:Hcall; try exact I.
  cbn [m_HistoryStack m_PresentHistoryIdx with_mutex] in *.
  match goal with
  | Hr : records w !! ?r = Some (Live ?h), Hv : vec_at _ _ = Some (Some ?r) |- _ =>
      destruct (Hkeep x r h result w1 Hx Hr Hv Hcall) as [Hw1 Hpos]
  end.
  repeat wp_step.
  match goal with
  | Hl : contexts w1 !! c = Some (Live ?x1) |- _ => pose proof (Hpos x1 Hl)
  end.
  in_range_done.
Qed.

Lemma Redo_in_range c w :
  all_in_range w -> keeps_range call (OpRedo c) w ->
  wp (Redo call c) (fun _ w' => all_in_range w') w.
Proof.
  intros Hw Hkeep. cbn [keeps_range] in Hkeep. unfold Redo.
  wp_step. wp_step. wp_step; [wp_step; assumption|].
  apply wp_scoped_lock. intros x Hx Hm. repeat wp_step; [in_range_done|].
  unfold wp at 1. flat_world. rewrite !insert_insert_eq.
  destruct (call _ _ _) as [result w1| |] eqn:Hcall; try exact I.
  cbn [m_HistoryStack m_PresentHistoryIdx with_mutex with_redoing] in *.
  match goal with
  | Hi : Int.incr _ = Some _ |- _ => apply incr_Some in Hi as [? ->]
  end.
  match goal with
  | Hr : records w !! ?r = Some (Live ?h), Hv : vec_at _ _ = Some (Some ?r) |- _ =>
      pose proof (Hkeep x r h result w1 Hx Hr Hv Hcall) as Hw1
  end.
  repeat wp_step. in_range_done.
Qed.

End CursorInvariant.

(** ** Pushing over a redo tail *)

Section RedoTail.

Context {Host : Type}.
Implicit Types (w : World Host) (x : HistoryContext) (h : History).

Lemma PrePush_loop_eq fuel c :
  PrePush_loop (Host := Host) fuel c =
  (let* x := load_ctx c in
   if vec_size (m_HistoryStack x) =? Int.to_size_t (m_PresentHistoryIdx x)
   then ret tt
   else
     match fuel with
     | O => undefined
     | S fuel' =>
         let* p := lift (last (m_HistoryStack x)) in
         delete_History p ;;
         update_ctx c (fun x => with_stack (removelast (m_HistoryStack x)) x) ;;
         PrePush_loop fuel' c
     end).
Proof. destruct fuel; reflexivity. Qed.

(** Deleting a record that is alive and does not embed [c]. *)
Lemma delete_History_live w c p :
  (forall r, p = Some r -> exists h, live_rec w r h /\ m_SubContext h <> c) ->
  exists w1,
    delete_History p w = Returns tt w1 /\
    contexts w1 !! c = contexts w !! c /\
    (forall r, records w1 !! r
               = if decide (p = Some r) then Some Freed else records w !! r) /\
    s_Lock w1 = s_Lock w /\ events w1 = events w.
Proof.
  intros Hp. destruct p as [r|].
  - destruct (Hp r eq_refl) as (h & Hh & Hsub).
    eexists. split; [|split; [|split; [|split]]].
    + unfold delete_History. run. rewrite Hh. reflexivity.
    + cbn. apply lookup_insert_ne. exact Hsub.
    + intros r'. cbn. destruct (decide (Some r = Some r')) as [[= ->]|Hne].
      * apply lookup_insert_eq.
      * apply lookup_insert_ne. congruence.
    + reflexivity.
    + reflexivity.
  - exists w. split; [reflexivity|]. split; [reflexivity|]. split; [|split; reflexivity].
    intros r. destruct (decide (None = Some r)); [discriminate | reflexivity].
Qed.

Lemma deletable_snoc w c tail p :
  deletable w c (tail ++ [p]) ->
  deletable w c tail /\
  (forall r, p = Some r -> Some r ∉ tail) /\
  (forall r, p = Some r -> exists h, live_rec w r h /\ m_SubContext h <> c).
Proof.
  intros [Hnd Hlive]. rewrite omap_app in Hnd. apply NoDup_app in Hnd as (Hnd1 & Hdis & _).
  split; [split|split].
  - exact Hnd1.
  - intros r Hr. apply Hlive. apply elem_of_app. left. exact Hr.
  - intros r -> Hin. apply (Hdis r).
    + apply list_elem_of_omap. exists (Some r). split; [exact Hin | reflexivity].
    + cbn. apply list_elem_of_singleton. reflexivity.
  - intros r ->. apply Hlive. apply elem_of_app. right.
    apply list_elem_of_singleton. reflexivity.
Qed.

(** The loop of [PrePush] pops and deletes exactly the tail. *)
Lemma PrePush_loop_truncates c tail :
  forall pre w x fuel,
    live_ctx w c x -> m_HistoryStack x = pre ++ tail ->
    vec_size pre = Int.to_size_t (m_PresentHistoryIdx x) ->
    deletable w c tail -> (length tail <= fuel)%nat ->
    exists w',
      PrePush_loop fuel c w = Returns tt w' /\
      live_ctx w' c (with_stack pre x) /\
      (forall r, Some r ∈ tail \/ records w !! r = Some Freed ->
                 records w' !! r = Some Freed) /\
      s_Lock w' = s_Lock w /\ events w' = events w.
Proof.
  induction tail as [|p tail IH] using rev_ind; intros pre w x fuel Hx Hst Hsz Hdel Hfuel.
  - rewrite app_nil_r in Hst. exists w.
    split; [|split; [|split; [|split; reflexivity]]].
    + rewrite PrePush_loop_eq. unfold bind. rewrite (load_ctx_live _ _ _ Hx).
      rewrite Hst, Hsz, Z.eqb_refl. reflexivity.
    + destruct x; cbn in *. subst. exact Hx.
    + intros r [Hin|Hf]; [inversion Hin | exact Hf].
  - destruct (deletable_snoc _ _ _ _ Hdel) as (Hdel' & Hfresh & Hlivep).
    rewrite length_app in Hfuel. cbn in Hfuel.
    destruct fuel as [|fuel]; [lia|].
    destruct (delete_History_live w c p Hlivep) as (w1 & Hd & Hc1 & Hr1 & Hl1 & He1).
    assert (Hx1 : live_ctx w1 c x) by (unfold live_ctx; rewrite Hc1; exact Hx).
    set (x2 := with_stack (pre ++ tail) x).
    set (w2 := set_contexts (<[c := Live x2]> (contexts w1)) w1).
    destruct (IH pre w2 x2 fuel) as (w' & Hrun & Hx' & Hfreed & Hl' & He').
    + unfold live_ctx, w2. cbn. apply lookup_insert_eq.
    + reflexivity.
    + exact Hsz.
    + destruct Hdel' as [Hnd Hlive]. split; [exact Hnd|].
      intros r Hr. destruct (Hlive r Hr) as (h & Hh & Hs). exists h. split; [|exact Hs].
      unfold live_rec, w2. cbn. rewrite Hr1.
      destruct (decide (p = Some r)) as [->|_]; [|exact Hh].
      exfalso. exact (Hfresh r eq_refl Hr).
    + lia.
    + exists w'. split; [|split; [|split; [|split]]].
      * rewrite PrePush_loop_eq. unfold bind at 1. rewrite (load_ctx_live _ _ _ Hx).
        rewrite Hst.
        assert (Hne : (vec_size (pre ++ tail ++ [p])
                       =? Int.to_size_t (m_PresentHistoryIdx x)) = false).
        { apply Z.eqb_neq. rewrite <- Hsz. unfold vec_size.
          rewrite !length_app. cbn. lia. }
        rewrite Hne. rewrite app_assoc, last_snoc. unfold bind, lift, ret.
        rewrite Hd. unfold update_ctx, bind. rewrite (load_ctx_live _ _ _ Hx1).
        unfold store_ctx, modify. rewrite Hst, app_assoc, removelast_last.
        exact Hrun.
      * exact Hx'.
      * intros r Hr. apply Hfreed.
        destruct Hr as [Hin|Hf].
        -- apply elem_of_app in Hin as [Hin|Hin]; [left; exact Hin|].
           apply list_elem_of_singleton in Hin. right. unfold w2. cbn. rewrite Hr1.
           destruct (decide (p = Some r)); [reflexivity | congruence].
        -- right. unfold w2. cbn. rewrite Hr1.
           destruct (decide (p = Some r)); [reflexivity | exact Hf].
      * rewrite Hl'. exact Hl1.
      * rewrite He'. exact He1.
Qed.

Lemma PrePush_truncates w c x :
  s_Lock w = false -> live_ctx w c x -> cursor_in_range x -> int_sized x ->
  deletable w c (drop (Z.to_nat (m_PresentHistoryIdx x + 1)) (m_HistoryStack x)) ->
  exists w',
    PrePush c w = Returns tt w' /\
    live_ctx w' c
      (with_stack (take (Z.to_nat (m_PresentHistoryIdx x + 1)) (m_HistoryStack x))
         (with_present (m_PresentHistoryIdx x + 1) x)) /\
    (forall r, Some r ∈ drop (Z.to_nat (m_PresentHistoryIdx x + 1)) (m_HistoryStack x) ->
               records w' !! r = Some Freed) /\
    s_Lock w' = false /\ events w' = events w.
Proof.
  intros Hl Hx [Hp0 Hp1] Hsz Hdel. unfold int_sized, vec_size in *.
  set (n := Z.to_nat (m_PresentHistoryIdx x + 1)) in *.
  set (x0 := with_present (m_PresentHistoryIdx x + 1) x).
  set (w0 := set_contexts (<[c := Live x0]> (contexts w)) w).
  destruct (PrePush_loop_truncates c (drop n (m_HistoryStack x))
              (take n (m_HistoryStack x)) w0 x0 (S (length (m_HistoryStack x))))
    as (w' & Hrun & Hx' & Hfreed & Hl' & He').
  - unfold live_ctx, w0. cbn. apply lookup_insert_eq.
  - cbn. symmetry. apply take_drop.
  - cbn [x0 m_PresentHistoryIdx with_present]. rewrite to_size_t_small by lia.
    unfold vec_size. rewrite length_take. lia.
  - exact Hdel.
  - rewrite length_drop. lia.
  - exists w'. split; [|split; [|split; [|split]]].
    + unfold PrePush. run. rewrite Hl, Hx. rewrite incr_in_range by lia. exact Hrun.
    + exact Hx'.
    + intros r Hr. apply Hfreed. left. exact Hr.
    + rewrite Hl'. exact Hl.
    + rewrite He'. reflexivity.
Qed.

(** A push that is not refused, on a context whose cursor is in range:
    the records above the cursor are deleted, the new record is appended
    and the cursor ends on it. *)
Lemma Push_over_redo_tail w c x name d ud args :
  s_Lock w = false -> live_ctx w c x ->
  IsUndoingOrRedoing c w = Returns false w ->
  cursor_in_range x -> int_sized x ->
  deletable w c (drop (Z.to_nat (m_PresentHistoryIdx x + 1)) (m_HistoryStack x)) ->
  exists w' r x' h',
    Push c name d ud args w = Returns tt w' /\
    live_ctx w' c x' /\
    m_HistoryStack x'
    = take (Z.to_nat (m_PresentHistoryIdx x + 1)) (m_HistoryStack x) ++ [Some r] /\
    m_PresentHistoryIdx x' = m_PresentHistoryIdx x + 1 /\
    m_PresentHistoryIdx x' = vec_size (m_HistoryStack x') - 1 /\
    (forall r0,
        Some r0 ∈ drop (Z.to_nat (m_PresentHistoryIdx x + 1)) (m_HistoryStack x) ->
        records w' !! r0 = Some Freed) /\
    live_rec w' r h' /\
    m_Label h' = name /\ m_DoFunc h' = d /\ m_UndoFunc h' = ud /\ m_Params h' = args /\
    live_ctx w' (m_SubContext h') (HistoryContext_ctor (Some c)) /\
    events w' = events w.
Proof.
  intros Hl Hx Hur Hrange Hsz Hdel.
  destruct (PrePush_truncates w c x Hl Hx Hrange Hsz Hdel)
    as (w1 & Hpre & Hx1 & Hfreed & Hl1 & He1).
  set (r := fresh (dom (records w1))).
  set (sub := fresh (dom (contexts w1))).
  assert (Hsub : sub <> c).
  { intros E. apply (is_fresh (dom (contexts w1))). fold sub. rewrite E.
    apply elem_of_dom. eexists. exact Hx1. }
  eexists _, r, _, _. split; [|split; [|split; [|split; [|split; [|split]]]]].
  - unfold Push. unfold bind at 1, gets. rewrite Hl. unfold bind at 1. rewrite Hur.
    unfold bind at 1. rewrite Hpre.
    unfold new_HistoryWithParams, NewID. run. fold r sub.
    rewrite lookup_insert_ne by exact Hsub. rewrite Hx1. reflexivity.
  - unfold live_ctx. cbn. apply lookup_insert_eq.
  - reflexivity.
  - reflexivity.
  - cbn. destruct Hrange as [Hp0 Hp1]. unfold vec_size in *.
    rewrite length_app, length_take. cbn. lia.
  - intros r0 Hr0. cbn. rewrite lookup_insert_ne; [apply Hfreed; exact Hr0|].
    intros E. apply (is_fresh (dom (records w1))). fold r. rewrite E.
    apply elem_of_dom. eexists. apply Hfreed. exact Hr0.
  - split; [unfold live_rec; cbn; apply lookup_insert_eq|].
    repeat (split; [reflexivity|]). split.
    + unfold live_ctx. cbn. rewrite lookup_insert_ne by (intros E; apply Hsub; symmetry; exact E).
      apply lookup_insert_eq.
    + cbn. exact He1.
Qed.

End RedoTail.


Section UndoThenPush.

Context {Host : Type}.
Implicit Types (w : World Host) (x : HistoryContext) (h : History).

Variable call : FnId -> list Value -> M Host bool.

(** C8.  An [Undo()] followed by a push on the same context that is not
    refused: the undo runs the closure and leaves the cursor one below
    where the closure left it; the push then deletes every record above
    that cursor - the redo tail -, appends the new record and leaves the
    cursor on it, so that [present == |stack| - 1].  (Inside [Push] the
    cursor is incremented first, then the tail is deleted, then the record
    is appended; nothing runs in between that could tell.) *)
Theorem Push_after_Undo_truncates_redo_tail
    w c x r h result w1 x1 name d ud args :
  s_Lock w = false -> live_ctx w c x -> m_Mutex x = false ->
  1 <= m_PresentHistoryIdx x <= Int.INT_MAX ->
  m_HistoryStack x !! Z.to_nat (m_PresentHistoryIdx x) = Some (Some r) ->
  live_rec w r h ->
  call (m_UndoFunc h) (m_Params h) (entering_undo c x w) = Returns result w1 ->
  live_ctx w1 c x1 ->
  1 <= m_PresentHistoryIdx x1 <= vec_size (m_HistoryStack x1) - 1 -> int_sized x1 ->
  s_Lock w1 = false ->
  IsUndoingOrRedoing c (leaving_undo c x1 w1) = Returns false (leaving_undo c x1 w1) ->
  deletable (leaving_undo c x1 w1) c
    (drop (Z.to_nat (m_PresentHistoryIdx x1)) (m_HistoryStack x1)) ->
  Undo call c w = Returns result (leaving_undo c x1 w1) /\
  exists w' r' x' h',
    Push c name d ud args (leaving_undo c x1 w1) = Returns tt w' /\
    live_ctx w' c x' /\
    m_HistoryStack x'
    = take (Z.to_nat (m_PresentHistoryIdx x1)) (m_HistoryStack x1) ++ [Some r'] /\
    m_PresentHistoryIdx x' = m_PresentHistoryIdx x1 /\
    m_PresentHistoryIdx x' = vec_size (m_HistoryStack x') - 1 /\
    (forall r0,
        Some r0 ∈ drop (Z.to_nat (m_PresentHistoryIdx x1)) (m_HistoryStack x1) ->
        records w' !! r0 = Some Freed) /\
    live_rec w' r' h' /\
    m_Label h' = name /\ m_DoFunc h' = d /\ m_UndoFunc h' = ud /\ m_Params h' = args.
Proof.
  intros Hl Hx Hm Hp Hr Hh Hcall Hx1 Hp1 Hsz Hl1 Hfree Hdel. split.
  - eapply Undo_runs_body; try eassumption. unfold Int.INT_MIN. lia.
  - set (xu := with_mutex false
                 (with_undoing false (with_present (m_PresentHistoryIdx x1 - 1) x1))).
    assert (Hnext : m_PresentHistoryIdx xu + 1 = m_PresentHistoryIdx x1) by (cbn; lia).
    destruct (Push_over_redo_tail (leaving_undo c x1 w1) c xu name d ud args)
      as (w' & r' & x' & h' & HP & Hx' & Hst & Hpr & Hlast & Hfreed & Hr' & Hlab & Hd & Hud
          & Hargs & _).
    + exact Hl1.
    + unfold live_ctx, leaving_undo. cbn. apply lookup_insert_eq.
    + exact Hfree.
    + unfold cursor_in_range. cbn. lia.
    + exact Hsz.
    + rewrite Hnext. exact Hdel.
    + rewrite Hnext in *. exists w', r', x', h'. cbn in Hst. auto 12.
Qed.

End UndoThenPush.

Lemma Push_after_Undo_truncates_redo_tail_witness :
  Undo Example.idle 0%nat (Example.recorded ∅) = Returns true Example.after_undo /\
  exists w' r x',
    Push 0%nat "SetObject" "SetObject" "SetObject_Undo" [VString "bar"] Example.after_undo
    = Returns tt w' /\
    live_ctx w' 0%nat x' /\
    m_HistoryStack x' = [None; Some r] /\
    m_PresentHistoryIdx x' = vec_size (m_HistoryStack x') - 1 /\
    records w' !! 0%nat = Some Freed.
Proof.
  destruct (Push_after_Undo_truncates_redo_tail Example.idle (Example.recorded ∅) 0%nat
              _ 0%nat _ true _ _ "SetObject" "SetObject" "SetObject_Undo" [VString "bar"]
              eq_refl eq_refl eq_refl ltac:(vm_compute; split; congruence)
              eq_refl eq_refl eq_refl eq_refl ltac:(vm_compute; split; congruence)
              ltac:(vm_compute; congruence) eq_refl eq_refl)
    as (HU & w' & r & x' & h' & HP & Hx' & Hst & _ & Hlast & Hfreed & _).
  - split; [apply NoDup_singleton|].
    intros r Hr. apply list_elem_of_singleton in Hr. injection Hr as ->.
    eexists. split; [reflexivity | cbn; discriminate].
  - split; [exact HU|].
    exists w', r, x'. split; [exact HP|]. split; [exact Hx'|]. split; [exact Hst|].
    split; [exact Hlast|]. apply Hfreed. apply list_elem_of_singleton. reflexivity.
Defined.

Section PushInvariant.

Context {Host : Type}.
Implicit Types (w : World Host) (x : HistoryContext) (h : History).

Lemma wp_consequence {A} (m : M Host A) (Q Q' : A -> World Host -> Prop) w :
  wp m Q w -> (forall a w', Q a w' -> Q' a w') -> wp m Q' w.
Proof. unfold wp. destruct (m w); auto. Qed.

(** When the loop of [PrePush] ends, the stack is as long as the cursor
    says, and no other live context has changed. *)
Lemma PrePush_loop_in_range c fuel :
  forall w i,
    (forall c' y, c' <> c -> live_ctx w c' y -> cursor_in_range y) ->
    (forall x, live_ctx w c x -> m_PresentHistoryIdx x = i) ->
    wp (PrePush_loop fuel c)
       (fun _ w' =>
          (forall c' y, c' <> c -> live_ctx w' c' y -> cursor_in_range y) /\
          exists x', live_ctx w' c x' /\ m_PresentHistoryIdx x' = i /\
                     vec_size (m_HistoryStack x') = Int.to_size_t i) w.
Proof.
  induction fuel as [|fuel IH]; intros w i Hothers Hcur;
    rewrite PrePush_loop_eq; wp_step; wp_step; wp_step.
  - wp_step. split; [exact Hothers|]. eexists. split; [exact Hlive|].
    pose proof (Hcur _ Hlive). apply Z.eqb_eq in Heqb. subst i. auto.
  - exact I.
  - wp_step. split; [exact Hothers|]. eexists. split; [exact Hlive|].
    pose proof (Hcur _ Hlive). apply Z.eqb_eq in Heqb. subst i. auto.
  - wp_step. wp_step. wp_step.
    assert (Hdel : wp (delete_History a)
                     (fun _ w1 => forall c' y, live_ctx w1 c' y -> live_ctx w c' y) w).
    { unfold delete_History. destruct a as [r|]; repeat wp_step; [|auto].
      intros c' y Hy. unfold live_ctx in *. cbn in Hy.
      rewrite lookup_insert in Hy. case_decide; [discriminate | exact Hy]. }
    eapply wp_consequence; [exact Hdel|]. cbn beta. intros _ w1 Hw1.
    repeat wp_step. apply IH.
    + intros c' y Hne Hy. unfold live_ctx in Hy. cbn in Hy.
      rewrite lookup_insert_ne in Hy by congruence.
      eapply Hothers; [exact Hne | apply Hw1; exact Hy].
    + intros x' Hx'. unfold live_ctx in Hx'. cbn in Hx'.
      rewrite lookup_insert_eq in Hx'. injection Hx' as <-.
      cbn. apply Hcur. apply Hw1. exact Hlive0.
Qed.

Lemma in_range_store_others m c x :
  (forall c' y, c' <> c -> m !! c' = Some (Live y) -> cursor_in_range y) ->
  cursor_in_range x -> ctxs_in_range (<[c := Live x]> m).
Proof.
  intros Hothers Hx c' cell Hc'. rewrite lookup_insert in Hc'. case_decide.
  - injection Hc' as <-. exact Hx.
  - destruct cell as [y|]; [|exact I]. eapply Hothers; [|exact Hc']. congruence.
Qed.

Lemma Push_in_range c name d ud args w :
  all_in_range w -> wp (Push c name d ud args) (fun _ w' => all_in_range w') w.
Proof.
  intros Hw. unfold Push. wp_step. wp_step. wp_step; [wp_step; assumption|].
  wp_step. apply wp_IsUndoingOrRedoing. intros b. wp_step; [wp_step; assumption|].
  wp_step. unfold PrePush. repeat wp_step; [congruence|]. cbn beta.
  pose proof (in_range_live _ _ _ Hw Hlive) as [Hp0 _].
  match goal with
  | Hi : Int.incr _ = Some _ |- _ => apply incr_Some in Hi as [Hmax ->]
  end.
  eapply wp_consequence.
  { apply (PrePush_loop_in_range c _ _ (m_PresentHistoryIdx x + 1)).
    - intros c' y Hne Hy. unfold live_ctx in Hy. cbn in Hy.
      rewrite lookup_insert_ne in Hy by congruence. exact (Hw c' (Live y) Hy).
    - intros x' Hx'. unfold live_ctx in Hx'. cbn in Hx'.
      rewrite lookup_insert_eq in Hx'. injection Hx' as <-. reflexivity. }
  cbn beta. intros _ w1 (Hothers & x1 & Hx1 & Hp1 & Hs1).
  unfold new_HistoryWithParams, NewID. repeat wp_step.
  rewrite lookup_insert_ne in Hlive0.
  2:{ intros E. apply (is_fresh (dom (contexts w1))). rewrite E.
      apply elem_of_dom. eexists. exact Hx1. }
  unfold live_ctx in Hx1. rewrite Hx1 in Hlive0. injection Hlive0 as <-.
  unfold all_in_range. cbn. apply in_range_store_others.
  - intros c' y Hne Hy. rewrite lookup_insert in Hy. case_decide.
    + injection Hy as <-. unfold cursor_in_range, vec_size. cbn. lia.
    + eapply Hothers; [exact Hne | exact Hy].
  - rewrite to_size_t_small in Hs1 by (unfold Int.INT_MAX; lia).
    unfold cursor_in_range, vec_size in *. cbn. rewrite length_app. cbn. lia.
Qed.

End PushInvariant.

Section CursorRange.

Context {Host : Type}.
Implicit Types (w : World Host) (x : HistoryContext) (h : History).

Variable call : FnId -> list Value -> M Host bool.

Lemma wp_then_ret {A} (m : M Host A) (Q : World Host -> Prop) w :
  wp m (fun _ w' => Q w') w -> wp (m ;; ret tt) (fun _ w' => Q w') w.
Proof. intros H. apply wp_bind. exact H. Qed.

(** C4 (as amended).  If the cursor of every live context is in range,
    [0 <= present <= |stack| - 1], it still is when a public operation has
    returned: [Push], [Clear], [Save], [Load], [BindOnStackChanged] and the
    construction and release of the push and pop controllers keep it
    without condition; [Undo] and [Redo] keep it when the closure they
    invoke leaves the cursors in range (and, for [Undo], leaves the cursor
    of the context at 1 or above); [AbortPush] keeps it when the cursor of
    the context is at 1 or above, that is, when there is a pushed record
    to remove. *)
Theorem cursor_range_preserved w op w' :
  all_in_range w -> keeps_range call op w ->
  perform call op w = Returns tt w' -> all_in_range w'.
Proof.
  intros Hw Hkeep Hrun.
  refine (wp_returns (perform call op) (fun _ w' => all_in_range w') w tt w' _ Hrun).
  destruct op; cbn [perform].
  - apply Push_in_range. exact Hw.
  - apply AbortPush_in_range; [exact Hw | exact Hkeep].
  - apply wp_then_ret. apply Undo_in_range; [exact Hw | exact Hkeep].
  - apply wp_then_ret. apply Redo_in_range; [exact Hw | exact Hkeep].
  - apply Clear_in_range. exact Hw.
  - apply wp_then_ret. apply Save_in_range. exact Hw.
  - apply wp_then_ret. apply Load_in_range. exact Hw.
  - apply Bind_in_range. exact Hw.
  - apply wp_then_ret. apply PushController_ctor_in_range. exact Hw.
  - apply wp_then_ret. apply PushController_dtor_in_range. exact Hw.
  - apply PopController_ctor_in_range. exact Hw.
  - apply PopController_dtor_in_range. exact Hw.
Qed.

End CursorRange.

Lemma cursor_range_preserved_witness :
  exists w',
    perform Example.idle (OpAbortPush 0%nat) (Example.recorded ∅) = Returns tt w' /\
    all_in_range w'.
Proof.
  eexists. split; [vm_compute; reflexivity|].
  eapply (cursor_range_preserved Example.idle (Example.recorded ∅) (OpAbortPush 0%nat)).
  - unfold all_in_range, ctxs_in_range. cbn.
    repeat (apply map_Forall_insert_2; [vm_compute; split; congruence|]).
    apply map_Forall_empty.
  - intros x Hx. unfold live_ctx in Hx. vm_compute in Hx. injection Hx as <-.
    vm_compute. congruence.
  - vm_compute. reflexivity.
Defined.

(** C4 (as stated) fails for [AbortPush]: on a context as its constructor
    made it - cursor 0, the sentinel alone on the stack - [AbortPush]
    returns with the cursor at -1 and the stack empty.  It also fails for
    [Undo] when the undo function wipes the context with [Clear]: the
    decrement that follows the body takes the cursor to -1. *)
Lemma AbortPush_leaves_cursor_out_of_range :
  all_in_range Example.fresh_root /\
  (exists w' x',
      AbortPush 0%nat Example.fresh_root = Returns tt w' /\
      live_ctx w' 0%nat x' /\
      m_PresentHistoryIdx x' = -1 /\ m_HistoryStack x' = [] /\
      ~ cursor_in_range x') /\
  all_in_range (Example.recorded ∅) /\
  (exists w' x',
      Undo (Example.clearing 0%nat) 0%nat (Example.recorded ∅) = Returns true w' /\
      live_ctx w' 0%nat x' /\
      m_PresentHistoryIdx x' = -1 /\ m_HistoryStack x' = [None] /\
      ~ cursor_in_range x').
Proof.
  assert (Hrange : forall m : gmap nat (Cell HistoryContext),
             m = {[ 0%nat := Live (HistoryContext_ctor None) ]}
             \/ m = contexts (Example.recorded ∅) -> ctxs_in_range m).
  { intros m [-> | ->]; cbn;
      repeat (apply map_Forall_insert_2; [vm_compute; split; congruence|]);
      apply map_Forall_empty. }
  split; [apply Hrange; left; reflexivity|]. split; [|split].
  - eexists. eexists. split; [vm_compute; reflexivity|].
    split; [reflexivity|]. split; [reflexivity|]. split; [reflexivity|].
    vm_compute. intros [H _]. apply H. reflexivity.
  - apply Hrange. right. reflexivity.
  - eexists. eexists. split; [vm_compute; reflexivity|].
    split; [reflexivity|]. split; [reflexivity|]. split; [reflexivity|].
    vm_compute. intros [H _]. apply H. reflexivity.
Qed.

(** ** The sentinel slot *)

Section WeakestPreconditionsOfSentinels.

Context {Host : Type}.
Implicit Types (w : World Host) (x : HistoryContext) (h : History).

Lemma sentinel_live w c x : all_sentinels w -> live_ctx w c x -> sentinel_is_null x.
Proof. intros H Hc. exact (H c (Live x) Hc). Qed.

Lemma sentinel_store (m : gmap nat (Cell HistoryContext)) c x :
  map_Forall (fun _ cell => cell_sentinel cell) m -> sentinel_is_null x ->
  map_Forall (fun _ cell => cell_sentinel cell) (<[c := Live x]> m).
Proof. intros Hm Hx. apply map_Forall_insert_2; assumption. Qed.

Lemma sentinel_store_others (m : gmap nat (Cell HistoryContext)) c x :
  (forall c' y, c' <> c -> m !! c' = Some (Live y) -> sentinel_is_null y) ->
  sentinel_is_null x ->
  map_Forall (fun _ cell => cell_sentinel cell) (<[c := Live x]> m).
Proof.
  intros Hothers Hx c' cell Hc'. rewrite lookup_insert in Hc'. case_decide.
  - injection Hc' as <-. exact Hx.
  - destruct cell as [y|]; [|exact I]. eapply Hothers; [|exact Hc']. congruence.
Qed.

(** [pop_back] on a stack of two or more slots leaves slot 0 alone. *)
Lemma removelast_sentinel {A} (s : list A) :
  (2 <= length s)%nat -> removelast s !! 0%nat = s !! 0%nat.
Proof. destruct s as [|a [|b t]]; cbn; intros; [lia | lia | reflexivity]. Qed.

End WeakestPreconditionsOfSentinels.

(** Closing a goal that says the sentinels of a store are in place. *)
Ltac use_sentinel :=
  repeat match goal with
         | Hw : all_sentinels ?w, H : contexts ?w !! ?c = Some (Live ?x) |- _ =>
             lazymatch goal with
             | _ : sentinel_is_null x |- _ => fail
             | _ => pose proof (sentinel_live w c x Hw H)
             end
         end.

Ltac sentinel_done :=
  dedup_live; use_sentinel;
  unfold all_sentinels in *;
  cbn [contexts set_Context set_Lock set_id set_contexts set_records
       set_events set_host] in *;
  rewrite ?insert_insert_eq;
  first [ assumption
        | apply sentinel_store; [assumption|];
          unfold sentinel_is_null in *;
          cbn [m_HistoryStack m_PresentHistoryIdx with_stack with_present with_undoing
               with_redoing with_observer with_mutex] in *;
          first [ assumption | reflexivity ] ].

Section SentinelInvariant.

Context {Host : Type}.
Implicit Types (w : World Host) (x : HistoryContext) (h : History).

Variable call : FnId -> list Value -> M Host bool.

Lemma Clear_sentinel c w :
  all_sentinels w -> wp (Clear c) (fun _ w' => all_sentinels w') w.
Proof. intros Hw. unfold Clear. repeat wp_step; sentinel_done. Qed.

Lemma AbortPush_sentinel c w :
  all_in_range w -> all_sentinels w ->
  (forall x, live_ctx w c x -> 1 <= m_PresentHistoryIdx x) ->
  wp (AbortPush c) (fun _ w' => all_sentinels w') w.
Proof.
  intros Hr Hw Hpos. unfold AbortPush. wp_step. wp_step. wp_step; [wp_step; assumption|].
  wp_step. apply wp_IsUndoingOrRedoing. intros b. destruct b; [wp_step; assumption|].
  wp_step. wp_step. pose proof (Hpos _ Hlive) as Hp.
  pose proof (in_range_live _ _ _ Hr Hlive) as Hin.
  pose proof (sentinel_live _ _ _ Hw Hlive) as Hs.
  repeat wp_step.
  unfold all_sentinels in *. cbn [contexts set_contexts] in *.
  rewrite ?insert_insert_eq. apply sentinel_store; [assumption|].
  unfold sentinel_is_null, cursor_in_range, vec_size in *.
  cbn [m_HistoryStack with_stack with_present] in *.
  rewrite removelast_sentinel by lia. exact Hs.
Qed.

Lemma Save_sentinel r key v w :
  all_sentinels w -> wp (Save r key v) (fun _ w' => all_sentinels w') w.
Proof.
  intros Hw. unfold Save. repeat wp_step; try assumption.
  apply wp_IsUndoingOrRedoing. intros b. repeat wp_step; assumption.
Qed.

Lemma Load_sentinel r T key out w :
  all_sentinels w -> wp (Load r T key out) (fun _ w' => all_sentinels w') w.
Proof.
  intros Hw. unfold Load. repeat wp_step; try assumption.
  apply wp_IsUndoingOrRedoing. intros b. repeat wp_step; try assumption.
  destruct (map_subscript (m_Data h) (lookup_id key)) as [m' a].
  repeat wp_step; assumption.
Qed.

Lemma Bind_sentinel c f w :
  all_sentinels w -> wp (BindOnStackChanged c f) (fun _ w' => all_sentinels w') w.
Proof.
  intros Hw. unfold BindOnStackChanged. repeat wp_step; sentinel_done.
Qed.

Lemma PushController_ctor_sentinel w :
  all_sentinels w -> wp HistoryPushController_ctor (fun _ w' => all_sentinels w') w.
Proof.
  intros Hw. unfold HistoryPushController_ctor. cbn zeta.
  repeat wp_step; try assumption.
  apply wp_IsUndoing. intros u. repeat wp_step; try assumption.
  apply wp_Present. intros p. wp_step. apply wp_SubContext_of. intros sub.
  repeat wp_step. assumption.
Qed.

Lemma PopController_ctor_sentinel w :
  all_sentinels w -> wp HistoryPopController_ctor (fun _ w' => all_sentinels w') w.
Proof.
  intros Hw. unfold HistoryPopController_ctor.
  repeat wp_step; try assumption.
  apply wp_Present. intros p. wp_step. apply wp_SubContext_of. intros sub.
  repeat wp_step. assumption.
Qed.

Lemma PopController_dtor_sentinel w :
  all_sentinels w -> wp HistoryPopController_dtor (fun _ w' => all_sentinels w') w.
Proof.
  intros Hw. unfold HistoryPopController_dtor.
  repeat wp_step; try assumption.
  apply wp_ParentContext. intros parent. repeat wp_step; try assumption.
  apply wp_ParentContext. intros pp. repeat wp_step; sentinel_done.
Qed.

Lemma PushController_dtor_sentinel ctl w :
  all_sentinels w -> wp (HistoryPushController_dtor ctl) (fun _ w' => all_sentinels w') w.
Proof.
  intros Hw. unfold HistoryPushController_dtor.
  repeat wp_step; try assumption.
  apply wp_IsUndoing. intros u. repeat wp_step; try assumption.
  apply wp_ParentContext. intros parent. repeat wp_step; try assumption.
  apply wp_ParentContext. intros pp. wp_step. wp_step.
  - wp_step. apply wp_IsRedoing. intros rd. wp_step.
    + repeat wp_step.
      * sentinel_done.
      * apply wp_IsRedoing. intros rd'. repeat wp_step; sentinel_done.
    + repeat wp_step. apply wp_IsRedoing. intros rd'. repeat wp_step; sentinel_done.
  - repeat wp_step. apply wp_IsRedoing. intros rd'. repeat wp_step; sentinel_done.
Qed.

Lemma Undo_sentinel c w :
  all_sentinels w -> keeps_sentinel call (OpUndo c) w ->
  wp (Undo call c) (fun _ w' => all_sentinels w') w.
Proof.
  intros Hw Hkeep. cbn [keeps_sentinel] in Hkeep. unfold Undo.
  wp_step. wp_step. wp_step; [wp_step; assumption|].
  apply wp_scoped_lock. intros x Hx Hm. repeat wp_step; [sentinel_done|].
  unfold wp at 1. flat_world. rewrite !insert_insert_eq.
  destruct (call _ _ _) as [result w1| |] eqn:Hcall; try exact I.
  cbn [m_HistoryStack m_PresentHistoryIdx with_mutex] in *.
  match goal with
  | Hr : records w !! ?r = Some (Live ?h), Hv : vec_at _ _ = Some (Some ?r) |- _ =>
      pose proof (Hkeep x r h result w1 Hx Hr Hv Hcall) as Hw1
  end.
  repeat wp_step. sentinel_done.
Qed.

Lemma Redo_sentinel c w :
  all_sentinels w -> keeps_sentinel call (OpRedo c) w ->
  wp (Redo call c) (fun _ w' => all_sentinels w') w.
Proof.
  intros Hw Hkeep. cbn [keeps_sentinel] in Hkeep. unfold Redo.
  wp_step. wp_step. wp_step; [wp_step; assumption|].
  apply wp_scoped_lock. intros x Hx Hm. repeat wp_step; [sentinel_done|].
  unfold wp at 1. flat_world. rewrite !insert_insert_eq.
  destruct (call _ _ _) as [result w1| |] eqn:Hcall; try exact I.
  cbn [m_HistoryStack m_PresentHistoryIdx with_mutex with_redoing] in *.
  match goal with
  | Hi : Int.incr _ = Some _ |- _ => apply incr_Some in Hi as [? ->]
  end.
  match goal with
  | Hr : records w !! ?r = Some (Live ?h), Hv : vec_at _ _ = Some (Some ?r) |- _ =>
      pose proof (Hkeep x r h result w1 Hx Hr Hv Hcall) as Hw1
  end.
  repeat wp_step. sentinel_done.
Qed.

(** When the loop of [PrePush] ends, the stack is as long as the cursor
    says; what is left of it still starts with the slot it started with,
    and no other live context has changed. *)
Lemma PrePush_loop_sentinel c fuel :
  forall w i,
    (forall c' y, c' <> c -> live_ctx w c' y -> sentinel_is_null y) ->
    (forall x, live_ctx w c x ->
       m_PresentHistoryIdx x = i /\
       ((1 <= length (m_HistoryStack x))%nat -> sentinel_is_null x)) ->
    wp (PrePush_loop fuel c)
       (fun _ w' =>
          (forall c' y, c' <> c -> live_ctx w' c' y -> sentinel_is_null y) /\
          exists x', live_ctx w' c x' /\ m_PresentHistoryIdx x' = i /\
                     vec_size (m_HistoryStack x') = Int.to_size_t i /\
                     ((1 <= length (m_HistoryStack x'))%nat -> sentinel_is_null x')) w.
Proof.
  induction fuel as [|fuel IH]; intros w i Hothers Hcur;
    rewrite PrePush_loop_eq; wp_step; wp_step; wp_step.
  - wp_step. split; [exact Hothers|]. eexists. split; [exact Hlive|].
    destruct (Hcur _ Hlive) as [Hi Hs]. apply Z.eqb_eq in Heqb. subst i. auto.
  - exact I.
  - wp_step. split; [exact Hothers|]. eexists. split; [exact Hlive|].
    destruct (Hcur _ Hlive) as [Hi Hs]. apply Z.eqb_eq in Heqb. subst i. auto.
  - wp_step. wp_step. wp_step.
    assert (Hdel : wp (delete_History a)
                     (fun _ w1 => forall c' y, live_ctx w1 c' y -> live_ctx w c' y) w).
    { unfold delete_History. destruct a as [r|]; repeat wp_step; [|auto].
      intros c' y Hy. unfold live_ctx in *. cbn in Hy.
      rewrite lookup_insert in Hy. case_decide; [discriminate | exact Hy]. }
    eapply wp_consequence; [exact Hdel|]. cbn beta. intros _ w1 Hw1.
    repeat wp_step. apply IH.
    + intros c' y Hne Hy. unfold live_ctx in Hy. cbn in Hy.
      rewrite lookup_insert_ne in Hy by congruence.
      eapply Hothers; [exact Hne | apply Hw1; exact Hy].
    + intros x' Hx'. unfold live_ctx in Hx'. cbn in Hx'.
      rewrite lookup_insert_eq in Hx'. injection Hx' as <-.
      destruct (Hcur _ (Hw1 _ _ Hlive0)) as [Hi Hs]. split; [exact Hi|].
      cbn [m_HistoryStack with_stack]. rewrite length_removelast. intros Hlen.
      unfold sentinel_is_null in *. cbn [m_HistoryStack with_stack].
      rewrite removelast_sentinel by lia. apply Hs. lia.
Qed.

Lemma Push_sentinel c name d ud args w :
  all_in_range w -> all_sentinels w ->
  wp (Push c name d ud args) (fun _ w' => all_sentinels w') w.
Proof.
  intros Hr Hw. unfold Push. wp_step. wp_step. wp_step; [wp_step; assumption|].
  wp_step. apply wp_IsUndoingOrRedoing. intros b. wp_step; [wp_step; assumption|].
  wp_step. unfold PrePush. repeat wp_step; [congruence|]. cbn beta.
  pose proof (in_range_live _ _ _ Hr Hlive) as [Hp0 _].
  pose proof (sentinel_live _ _ _ Hw Hlive) as Hsx.
  match goal with
  | Hi : Int.incr _ = Some _ |- _ => apply incr_Some in Hi as [Hmax ->]
  end.
  eapply wp_consequence.
  { apply (PrePush_loop_sentinel c _ _ (m_PresentHistoryIdx x + 1)).
    - intros c' y Hne Hy. unfold live_ctx in Hy. cbn in Hy.
      rewrite lookup_insert_ne in Hy by congruence. exact (Hw c' (Live y) Hy).
    - intros x' Hx'. unfold live_ctx in Hx'. cbn in Hx'.
      rewrite lookup_insert_eq in Hx'. injection Hx' as <-.
      split; [reflexivity | intros _; exact Hsx]. }
  cbn beta. intros _ w1 (Hothers & x1 & Hx1 & Hp1 & Hs1 & Hsent).
  unfold new_HistoryWithParams, NewID. repeat wp_step.
  rewrite lookup_insert_ne in Hlive0.
  2:{ intros E. apply (is_fresh (dom (contexts w1))). rewrite E.
      apply elem_of_dom. eexists. exact Hx1. }
  unfold live_ctx in Hx1. rewrite Hx1 in Hlive0. injection Hlive0 as <-.
  unfold all_sentinels. cbn. apply sentinel_store_others.
  - intros c' y Hne Hy. rewrite lookup_insert in Hy. case_decide.
    + injection Hy as <-. reflexivity.
    + eapply Hothers; [exact Hne | exact Hy].
  - rewrite to_size_t_small in Hs1 by (unfold Int.INT_MAX; lia).
    unfold sentinel_is_null, vec_size in *. cbn [m_HistoryStack with_stack].
    rewrite lookup_app_l by lia. apply Hsent. lia.
Qed.

(** Every public operation keeps the cursors in range and the sentinels
    in place. *)
Lemma perform_in_range op w :
  all_in_range w -> keeps_range call op w ->
  wp (perform call op) (fun _ w' => all_in_range w') w.
Proof.
  intros Hw Hkeep. destruct op; cbn [perform].
  - apply Push_in_range. exact Hw.
  - apply AbortPush_in_range; [exact Hw | exact Hkeep].
  - apply wp_then_ret. apply Undo_in_range; [exact Hw | exact Hkeep].
  - apply wp_then_ret. apply Redo_in_range; [exact Hw | exact Hkeep].
  - apply Clear_in_range. exact Hw.
  - apply wp_then_ret. apply Save_in_range. exact Hw.
  - apply wp_then_ret. apply Load_in_range. exact Hw.
  - apply Bind_in_range. exact Hw.
  - apply wp_then_ret. apply PushController_ctor_in_range. exact Hw.
  - apply wp_then_ret. apply PushController_dtor_in_range. exact Hw.
  - apply PopController_ctor_in_range. exact Hw.
  - apply PopController_dtor_in_range. exact Hw.
Qed.

Lemma perform_sentinel op w :
  all_in_range w -> all_sentinels w ->
  keeps_range call op w -> keeps_sentinel call op w ->
  wp (perform call op) (fun _ w' => all_sentinels w') w.
Proof.
  intros Hr Hw Hkr Hks. destruct op; cbn [perform].
  - apply Push_sentinel; assumption.
  - apply AbortPush_sentinel; [exact Hr | exact Hw | exact Hkr].
  - apply wp_then_ret. apply Undo_sentinel; [exact Hw | exact Hks].
  - apply wp_then_ret. apply Redo_sentinel; [exact Hw | exact Hks].
  - apply Clear_sentinel. exact Hw.
  - apply wp_then_ret. apply Save_sentinel. exact Hw.
  - apply wp_then_ret. apply Load_sentinel. exact Hw.
  - apply Bind_sentinel. exact Hw.
  - apply wp_then_ret. apply PushController_ctor_sentinel. exact Hw.
  - apply wp_then_ret. apply PushController_dtor_sentinel. exact Hw.
  - apply PopController_ctor_sentinel. exact Hw.
  - apply PopController_dtor_sentinel. exact Hw.
Qed.

(** A context constructed by the host joins the store with its cursor in
    range and its sentinel in place. *)
Lemma new_HistoryContext_invariants parent w c' w' :
  new_HistoryContext parent w = Returns c' w' ->
  all_in_range w -> all_sentinels w ->
  live_ctx w' c' (HistoryContext_ctor parent) /\ all_in_range w' /\ all_sentinels w'.
Proof.
  unfold new_HistoryContext. run. intros [= <- <-] Hr Hw.
  split; [unfold live_ctx; cbn; apply lookup_insert_eq|]. split.
  - unfold all_in_range. cbn. apply in_range_store; [exact Hr|].
    unfold cursor_in_range, vec_size. cbn. lia.
  - unfold all_sentinels. cbn. apply sentinel_store; [exact Hw | reflexivity].
Qed.

End SentinelInvariant.

Section Sentinel.

Context {Host : Type}.
Implicit Types (w : World Host) (x : HistoryContext) (h : History).

Variable call : FnId -> list Value -> M Host bool.

(** C1 (as amended).  [Present()] returns the null pointer while the global
    lock is set and otherwise the slot of the stack under the cursor.  On a
    context whose slot 0 - the sentinel - holds the null pointer,
    [Present()] at cursor 0 returns null and [Undo()] returns false
    without invoking anything.  The null pointer is in slot 0 of every
    context as its constructor makes it and as [Clear()] leaves it, and in
    a store whose cursors are in range it stays there, with the cursors in
    range, through the construction of further contexts and through every
    public operation: [AbortPush] on a context with its cursor at 1 or
    above, [Undo] and [Redo] with a closure that leaves cursors and
    sentinels in this state, and all others without condition. *)
Theorem Present_returns_slot_under_cursor w c x :
  live_ctx w c x ->
  (s_Lock w = true -> Present c w = Returns None w) /\
  (s_Lock w = false ->
   forall slot,
     0 <= m_PresentHistoryIdx x <= Int.INT_MAX ->
     m_HistoryStack x !! Z.to_nat (m_PresentHistoryIdx x) = Some slot ->
     Present c w = Returns slot w) /\
  (sentinel_is_null x -> m_PresentHistoryIdx x = 0 ->
   Present c w = Returns None w /\
   (m_Mutex x = false -> Undo call c w = Returns false w)) /\
  (forall parent,
      sentinel_is_null (HistoryContext_ctor parent) /\
      m_PresentHistoryIdx (HistoryContext_ctor parent) = 0) /\
  (s_Lock w = false ->
   exists w' x',
     Clear c w = Returns tt w' /\ live_ctx w' c x' /\
     sentinel_is_null x' /\ m_PresentHistoryIdx x' = 0) /\
  (all_in_range w -> all_sentinels w ->
   (forall parent c' w',
       new_HistoryContext parent w = Returns c' w' ->
       all_in_range w' /\ all_sentinels w') /\
   (forall op w',
       keeps_range call op w -> keeps_sentinel call op w ->
       perform call op w = Returns tt w' ->
       all_in_range w' /\ all_sentinels w')).
Proof.
  intros Hc. split; [apply Present_locked|].
  split; [intros Hl slot Hp Hs; eapply Present_unlocked; eassumption|].
  split; [|split; [|split]].
  - intros Hs Hp. destruct (s_Lock w) eqn:Hl.
    + split; [apply Present_locked; exact Hl|].
      intros _. unfold Undo. run. rewrite Hl. reflexivity.
    + split.
      * eapply Present_unlocked; [exact Hc | exact Hl | |].
        -- rewrite Hp. unfold Int.INT_MAX. lia.
        -- rewrite Hp. exact Hs.
      * intros Hm. eapply Undo_at_sentinel; eassumption.
  - intros parent. split; reflexivity.
  - intros Hl. eexists. eexists. split; [apply Clear_unlocked; eassumption|].
    split; [unfold live_ctx; cbn; apply lookup_insert_eq|]. split; reflexivity.
  - intros Hr Hw. split.
    + intros parent c' w' Hnew.
      apply (new_HistoryContext_invariants parent w c' w' Hnew Hr Hw).
    + intros op w' Hkr Hks Hrun. split.
      * exact (wp_returns (perform call op) (fun _ w' => all_in_range w') w tt w'
                 (perform_in_range call op w Hr Hkr) Hrun).
      * exact (wp_returns (perform call op) (fun _ w' => all_sentinels w') w tt w'
                 (perform_sentinel call op w Hr Hw Hkr Hks) Hrun).
Qed.

End Sentinel.

Lemma Present_returns_slot_under_cursor_witness :
  Present 0%nat Example.undone = Returns None Example.undone /\
  exists w',
    perform Example.idle (OpUndo 0%nat) (Example.recorded ∅) = Returns tt w' /\
    all_in_range w' /\ all_sentinels w'.
Proof.
  split.
  - apply (Present_returns_slot_under_cursor Example.idle Example.undone 0%nat _ eq_refl);
      reflexivity.
  - eexists. split; [vm_compute; reflexivity|].
    destruct (Present_returns_slot_under_cursor Example.idle (Example.recorded ∅) 0%nat _
                eq_refl) as (_ & _ & _ & _ & _ & Hkeep).
    destruct Hkeep as [_ Hop].
    + unfold all_in_range, ctxs_in_range. cbn.
      repeat (apply map_Forall_insert_2; [vm_compute; split; congruence|]).
      apply map_Forall_empty.
    + unfold all_sentinels. cbn.
      repeat (apply map_Forall_insert_2; [reflexivity|]).
      apply map_Forall_empty.
    + apply (Hop (OpUndo 0%nat)).
      * intros x r h result w1 Hx Hr Hv Hcall.
        unfold live_ctx in Hx. vm_compute in Hx. injection Hx as <-.
        injection Hcall as <- <-. split.
        -- unfold all_in_range, ctxs_in_range, entering_undo. cbn.
           repeat (apply map_Forall_insert_2; [vm_compute; split; congruence|]).
           apply map_Forall_empty.
        -- intros x1 Hx1. unfold live_ctx in Hx1. vm_compute in Hx1.
           injection Hx1 as <-. vm_compute. congruence.
      * intros x r h result w1 Hx Hr Hv Hcall.
        unfold live_ctx in Hx. vm_compute in Hx. injection Hx as <-.
        injection Hcall as <- <-.
        unfold all_sentinels, entering_undo. cbn.
        repeat (apply map_Forall_insert_2; [reflexivity|]).
        apply map_Forall_empty.
      * vm_compute. reflexivity.
Defined.

(** C1 (as stated) fails: on a freshly constructed context the cursor is 0
    and [Present()] returns the null pointer, not a record. *)
Lemma Present_at_sentinel_is_null :
  new_HistoryContext None Example.empty_world = Returns 0%nat Example.fresh_root /\
  (forall x, live_ctx Example.fresh_root 0%nat x -> m_PresentHistoryIdx x = 0) /\
  Present 0%nat Example.fresh_root = Returns None Example.fresh_root /\
  ~ (exists r : RecAddr, Present 0%nat Example.fresh_root = Returns (Some r) Example.fresh_root).
Proof.
  split; [reflexivity|]. split; [|split].
  - intros x Hx. unfold live_ctx in Hx. vm_compute in Hx.
    injection Hx as <-. reflexivity.
  - reflexivity.
  - intros [r Hr]. vm_compute in Hr. discriminate.
Qed.

(** Without the range of the cursors the sentinel can be lost: [AbortPush]
    on a context as its constructor made it empties the stack, and the
    next [Push] puts its record into slot 0, where [Present()] finds it
    at cursor 0. *)
Lemma AbortPush_then_Push_fills_slot_0 :
  exists w' x' r,
    (AbortPush 0%nat ;; Push 0%nat "AddObject" "AddObject" "AddObject_Undo" [])
      Example.fresh_root = Returns tt w' /\
    live_ctx w' 0%nat x' /\
    m_PresentHistoryIdx x' = 0 /\ m_HistoryStack x' = [Some r] /\
    Present 0%nat w' = Returns (Some r) w'.
Proof.
  eexists. eexists. eexists. split; [vm_compute; reflexivity|].
  split; [reflexivity|]. split; [reflexivity|]. split; reflexivity.
Qed.

(** ** The replay flags along the parent chain *)

Section ReplayFlags.

Context {Host : Type}.
Implicit Types (w : World Host) (x : HistoryContext) (h : History).

Lemma size_live w c x : live_ctx w c x -> exists n, size (contexts w) = S n.
Proof.
  intros Hc. destruct (size (contexts w)) as [|n] eqn:E; [|eauto].
  apply map_size_empty_inv in E. unfold live_ctx in Hc.
  rewrite E, lookup_empty in Hc. discriminate.
Qed.

Lemma IsUndoing_own_flag w c x :
  live_ctx w c x -> m_IsUndoing x = true -> IsUndoing c w = Returns true w.
Proof.
  intros Hc Hf. destruct (size_live _ _ _ Hc) as [n E].
  unfold IsUndoing. rewrite E. cbn [IsUndoing_walk]. unfold bind.
  rewrite (load_ctx_live _ _ _ Hc), Hf. reflexivity.
Qed.

Lemma IsRedoing_own_flag w c x :
  live_ctx w c x -> m_IsRedoing x = true -> IsRedoing c w = Returns true w.
Proof.
  intros Hc Hf. destruct (size_live _ _ _ Hc) as [n E].
  unfold IsRedoing. rewrite E. cbn [IsRedoing_walk]. unfold bind.
  rewrite (load_ctx_live _ _ _ Hc), Hf. reflexivity.
Qed.

(** On a chain of parent pointers that reaches a root, with the global
    lock released, the walks of [IsUndoing] and [IsRedoing] end, change
    nothing, and answer true exactly when the context itself or one of its
    ancestors has the flag set; [IsUndoingOrRedoing] answers true exactly
    when one of the two flags is set somewhere on the chain. *)
Theorem replay_flags_are_inherited w c l :
  s_Lock w = false -> ancestors w c l ->
  (exists b, IsUndoing c w = Returns b w /\ (b = true <-> undoing_in w l)) /\
  (exists b, IsRedoing c w = Returns b w /\ (b = true <-> redoing_in w l)) /\
  (exists b, IsUndoingOrRedoing c w = Returns b w /\
             (b = true <-> undoing_in w l \/ redoing_in w l)).
Proof.
  intros Hl Hc. split; [|split].
  - apply IsUndoing_chain; assumption.
  - apply IsRedoing_chain; assumption.
  - apply IsUndoingOrRedoing_chain; assumption.
Qed.

(** While the global lock is set, [ParentContext()] answers null, so the
    walks of [IsUndoing] and [IsRedoing] stop at the context they start
    from: they report the context's own flag and nothing of its
    ancestors. *)
Theorem locked_flag_queries_see_own_flag_only w c x :
  s_Lock w = true -> live_ctx w c x ->
  ParentContext c w = Returns None w /\
  IsUndoing c w = Returns (m_IsUndoing x) w /\
  IsRedoing c w = Returns (m_IsRedoing x) w.
Proof.
  intros Hl Hc.
  assert (Hp : ParentContext c w = Returns None w).
  { unfold ParentContext. run. rewrite Hl. reflexivity. }
  destruct (size_live _ _ _ Hc) as [n E].
  split; [exact Hp|]. split.
  - unfold IsUndoing. rewrite E. cbn [IsUndoing_walk]. unfold bind.
    rewrite (load_ctx_live _ _ _ Hc). destruct (m_IsUndoing x); [reflexivity|].
    rewrite Hp. reflexivity.
  - unfold IsRedoing. rewrite E. cbn [IsRedoing_walk]. unfold bind.
    rewrite (load_ctx_live _ _ _ Hc). destruct (m_IsRedoing x); [reflexivity|].
    rewrite Hp. reflexivity.
Qed.

End ReplayFlags.

Lemma replay_flags_are_inherited_witness :
  exists b,
    IsUndoingOrRedoing 1%nat (Example.in_undo ∅) = Returns b (Example.in_undo ∅) /\
    (b = true <-> undoing_in (Example.in_undo ∅) [1%nat; 0%nat]
                  \/ redoing_in (Example.in_undo ∅) [1%nat; 0%nat]).
Proof.
  assert (Hchain : ancestors (Example.in_undo ∅) 1%nat [1%nat; 0%nat]).
  { eapply ancestors_step; [reflexivity | reflexivity |].
    eapply ancestors_root; reflexivity. }
  exact (proj2 (proj2 (replay_flags_are_inherited (Example.in_undo ∅) 1%nat _
                         eq_refl Hchain))).
Defined.

Lemma locked_flag_queries_see_own_flag_only_witness :
  ParentContext 1%nat Example.in_undo_locked = Returns None Example.in_undo_locked /\
  IsUndoing 1%nat Example.in_undo_locked = Returns false Example.in_undo_locked /\
  IsRedoing 1%nat Example.in_undo_locked = Returns false Example.in_undo_locked.
Proof.
  exact (locked_flag_queries_see_own_flag_only Example.in_undo_locked 1%nat _
           eq_refl eq_refl).
Defined.

(** ** More on undo and redo *)

Section Replaying.

Context {Host : Type}.
Implicit Types (w : World Host) (x : HistoryContext) (h : History).

Variable call : FnId -> list Value -> M Host bool.

Lemma to_int_small z : 0 <= z <= Int.INT_MAX -> Int.to_int z = z.
Proof.
  intros Hz. unfold Int.to_int, Int.INT_MAX in *.
  rewrite Z.mod_small by lia. lia.
Qed.

Lemma vec_size_nonneg {A} (v : list A) : 0 <= vec_size v.
Proof. unfold vec_size. lia. Qed.

Lemma PeekFuture_at_top w c x :
  s_Lock w = false -> live_ctx w c x -> int_sized x ->
  vec_size (m_HistoryStack x) - 1 <= m_PresentHistoryIdx x ->
  PeekFuture c w = Returns None w.
Proof.
  intros Hl Hc Hsz Hp. unfold int_sized in Hsz.
  pose proof (vec_size_nonneg (m_HistoryStack x)).
  unfold PeekFuture. run. rewrite Hl, Hc. rewrite to_int_small by lia.
  destruct (Z.ltb_spec (m_PresentHistoryIdx x) (vec_size (m_HistoryStack x) - 1));
    [lia | reflexivity].
Qed.

Lemma PeekFuture_below_top w c x slot :
  s_Lock w = false -> live_ctx w c x -> int_sized x ->
  0 <= m_PresentHistoryIdx x < vec_size (m_HistoryStack x) - 1 ->
  m_HistoryStack x !! Z.to_nat (m_PresentHistoryIdx x + 1) = Some slot ->
  PeekFuture c w = Returns slot w.
Proof.
  intros Hl Hc Hsz Hp Hs. unfold int_sized in Hsz.
  unfold PeekFuture. run. rewrite Hl, Hc. rewrite to_int_small by lia.
  destruct (Z.ltb_spec (m_PresentHistoryIdx x) (vec_size (m_HistoryStack x) - 1)); [|lia].
  rewrite (vec_at_in_range _ _ slot) by (assumption || lia). reflexivity.
Qed.

(** [PeekFuture()] answers null while the global lock is set and when the
    cursor stands on the last slot or beyond; with a cursor below that
    and not negative it answers the slot after the cursor.  The record
    it names is the one whose do-closure the next [Redo()] invokes. *)
Theorem PeekFuture_names_the_record_Redo_replays w c x :
  live_ctx w c x ->
  (s_Lock w = true -> PeekFuture c w = Returns None w) /\
  (s_Lock w = false -> int_sized x ->
   (vec_size (m_HistoryStack x) - 1 <= m_PresentHistoryIdx x ->
      PeekFuture c w = Returns None w) /\
   (forall slot,
      0 <= m_PresentHistoryIdx x < vec_size (m_HistoryStack x) - 1 ->
      m_HistoryStack x !! Z.to_nat (m_PresentHistoryIdx x + 1) = Some slot ->
      PeekFuture c w = Returns slot w) /\
   (forall r h result w1 x1,
      m_Mutex x = false ->
      0 <= m_PresentHistoryIdx x < vec_size (m_HistoryStack x) - 1 ->
      m_HistoryStack x !! Z.to_nat (m_PresentHistoryIdx x + 1) = Some (Some r) ->
      live_rec w r h ->
      call (m_DoFunc h) (m_Params h) (entering_redo c x w) = Returns result w1 ->
      live_ctx w1 c x1 ->
      PeekFuture c w = Returns (Some r) w /\
      Redo call c w = Returns result (leaving_redo c x1 w1))).
Proof.
  intros Hc. split.
  - intros Hl. unfold PeekFuture. run. rewrite Hl. reflexivity.
  - intros Hl Hsz. split; [|split].
    + intros Hp. eapply PeekFuture_at_top; eassumption.
    + intros slot Hp Hs. eapply PeekFuture_below_top; eassumption.
    + intros r h result w1 x1 Hm Hp Hs Hh Hcall Hc1. split.
      * eapply PeekFuture_below_top; eassumption.
      * eapply Redo_runs_body; eassumption.
Qed.

Lemma Redo_at_top w c x :
  s_Lock w = false -> live_ctx w c x -> m_Mutex x = false ->
  m_PresentHistoryIdx x = vec_size (m_HistoryStack x) - 1 ->
  Redo call c w = Returns false w.
Proof.
  intros Hl Hc Hm Hp.
  unfold Redo, scoped_lock, unlock. run. rewrite Hl, Hc, Hm. run.
  cbn [m_PresentHistoryIdx m_HistoryStack with_mutex]. rewrite Hp, Z.eqb_refl. run.
  flat_world. rewrite !insert_insert_eq, with_mutex_released by exact Hm.
  rewrite insert_id by exact Hc. destruct w; reflexivity.
Qed.

(** [Redo()] with the cursor on the last slot of the stack: the mutex is
    taken and released, no closure is invoked, the observer is not called,
    the store is as before and the answer is false.  [PeekFuture()] is
    null there. *)
Theorem Redo_at_top_of_stack_does_nothing w c x :
  s_Lock w = false -> live_ctx w c x -> m_Mutex x = false -> int_sized x ->
  m_PresentHistoryIdx x = vec_size (m_HistoryStack x) - 1 ->
  Redo call c w = Returns false w /\ PeekFuture c w = Returns None w.
Proof.
  intros Hl Hc Hm Hsz Hp. split.
  - eapply Redo_at_top; eassumption.
  - eapply PeekFuture_at_top; try eassumption. lia.
Qed.

(** A closure that leaves by an exception: [Undo()] and [Redo()] let the
    exception pass.  The scoped lock releases the mutex, but the statements
    after the call are skipped: the observer is not called, the cursor
    stays where the closure left it (for [Redo()], already advanced), and
    [m_IsUndoing] or [m_IsRedoing] is still set, so that the context keeps
    answering that it is undoing or redoing. *)
Theorem replay_flag_survives_a_throwing_closure w c x r h w1 x1 :
  s_Lock w = false -> live_ctx w c x -> m_Mutex x = false ->
  live_rec w r h -> live_ctx w1 c x1 ->
  (1 <= m_PresentHistoryIdx x <= Int.INT_MAX ->
   m_HistoryStack x !! Z.to_nat (m_PresentHistoryIdx x) = Some (Some r) ->
   call (m_UndoFunc h) (m_Params h) (entering_undo c x w) = Throws w1 ->
   m_IsUndoing x1 = true ->
   exists w',
     Undo call c w = Throws w' /\
     live_ctx w' c (with_mutex false x1) /\ events w' = events w1 /\
     IsUndoing c w' = Returns true w') /\
  (0 <= m_PresentHistoryIdx x < vec_size (m_HistoryStack x) - 1 -> int_sized x ->
   m_HistoryStack x !! Z.to_nat (m_PresentHistoryIdx x + 1) = Some (Some r) ->
   call (m_DoFunc h) (m_Params h) (entering_redo c x w) = Throws w1 ->
   m_IsRedoing x1 = true ->
   exists w',
     Redo call c w = Throws w' /\
     live_ctx w' c (with_mutex false x1) /\ events w' = events w1 /\
     IsRedoing c w' = Returns true w').
Proof.
  intros Hl Hc Hm Hh Hc1. split.
  - intros Hp Hr Hcall Hf.
    exists (set_contexts (<[c := Live (with_mutex false x1)]> (contexts w1)) w1).
    assert (Hlive : live_ctx
                      (set_contexts (<[c := Live (with_mutex false x1)]> (contexts w1)) w1)
                      c (with_mutex false x1))
      by (unfold live_ctx; cbn; apply lookup_insert_eq).
    split; [|split; [exact Hlive | split; [reflexivity|]]].
    + unfold Undo, scoped_lock, unlock, History_Undo. run. rewrite Hl, Hc, Hm. run.
      cbn [m_PresentHistoryIdx m_HistoryStack with_mutex with_undoing with_present].
      destruct (Z.eqb_spec (m_PresentHistoryIdx x) 0); [lia|].
      run. cbn [m_PresentHistoryIdx m_HistoryStack with_mutex with_undoing with_present].
      rewrite (vec_at_in_range _ _ (Some r)) by (assumption || lia).
      rewrite Hh. unfold entering_undo in Hcall. flat_world.
      rewrite !insert_insert_eq, Hcall, Hc1. reflexivity.
    + eapply IsUndoing_own_flag; [exact Hlive | exact Hf].
  - intros Hp Hsz Hr Hcall Hf. unfold int_sized in Hsz.
    exists (set_contexts (<[c := Live (with_mutex false x1)]> (contexts w1)) w1).
    assert (Hlive : live_ctx
                      (set_contexts (<[c := Live (with_mutex false x1)]> (contexts w1)) w1)
                      c (with_mutex false x1))
      by (unfold live_ctx; cbn; apply lookup_insert_eq).
    split; [|split; [exact Hlive | split; [reflexivity|]]].
    + unfold Redo, scoped_lock, unlock, History_Redo. run. rewrite Hl, Hc, Hm. run.
      cbn [m_PresentHistoryIdx m_HistoryStack with_mutex with_redoing with_present].
      rewrite !to_size_t_small by lia.
      destruct (Z.eqb_spec (m_PresentHistoryIdx x) (vec_size (m_HistoryStack x) - 1)); [lia|].
      run. cbn [m_PresentHistoryIdx m_HistoryStack with_mutex with_redoing with_present].
      rewrite incr_in_range by lia. run.
      rewrite (vec_at_in_range _ _ (Some r)) by (assumption || lia).
      rewrite Hh. unfold entering_redo in Hcall. flat_world.
      rewrite !insert_insert_eq, Hcall, Hc1. reflexivity.
    + eapply IsRedoing_own_flag; [exact Hlive | exact Hf].
Qed.

(** An [Undo()] followed by a [Redo()], with closures that leave the
    context as they find it: the redo invokes the do-closure of the record
    whose undo-closure has just run, and the context is afterwards exactly
    as before the undo - same stack, same cursor, flags cleared, mutex
    free. *)
Theorem Redo_after_Undo_restores_the_context w c x r h b1 w1 h1 b2 w2 :
  s_Lock w = false -> live_ctx w c x ->
  m_Mutex x = false -> m_IsUndoing x = false -> m_IsRedoing x = false ->
  1 <= m_PresentHistoryIdx x <= vec_size (m_HistoryStack x) - 1 -> int_sized x ->
  m_HistoryStack x !! Z.to_nat (m_PresentHistoryIdx x) = Some (Some r) ->
  live_rec w r h ->
  call (m_UndoFunc h) (m_Params h) (entering_undo c x w) = Returns b1 w1 ->
  contexts w1 !! c = contexts (entering_undo c x w) !! c ->
  s_Lock w1 = false -> live_rec w1 r h1 ->
  let wu := leaving_undo c (with_undoing true (with_mutex true x)) w1 in
  let xu := with_present (m_PresentHistoryIdx x - 1) x in
  call (m_DoFunc h1) (m_Params h1) (entering_redo c xu wu) = Returns b2 w2 ->
  contexts w2 !! c = contexts (entering_redo c xu wu) !! c ->
  Undo call c w = Returns b1 wu /\
  live_ctx wu c xu /\
  exists wr, Redo call c wu = Returns b2 wr /\ live_ctx wr c x.
Proof.
  intros Hl Hc Hm Hu Hr Hp Hsz Hs Hh Hcall1 Hkeep1 Hl1 Hh1 wu xu Hcall2 Hkeep2.
  unfold int_sized in Hsz.
  assert (Hc1 : live_ctx w1 c (with_undoing true (with_mutex true x))).
  { unfold live_ctx. rewrite Hkeep1. unfold entering_undo. cbn. apply lookup_insert_eq. }
  assert (Hxu : live_ctx wu c xu).
  { unfold live_ctx, wu, xu, leaving_undo. cbn. rewrite lookup_insert_eq.
    destruct x; cbn in *. subst. reflexivity. }
  assert (Hc2 : live_ctx w2 c (with_present (m_PresentHistoryIdx xu + 1)
                                 (with_redoing true (with_mutex true xu)))).
  { unfold live_ctx. rewrite Hkeep2. unfold entering_redo. cbn. apply lookup_insert_eq. }
  split; [|split; [exact Hxu|]].
  - eapply Undo_runs_body; try eassumption; cbn; unfold Int.INT_MAX, Int.INT_MIN in *; lia.
  - eexists. split.
    + refine (Redo_runs_body call wu c xu r h1 _ Hxu Hm _ _ _ _ b2 w2 _ Hcall2 Hc2).
      * exact Hl1.
      * cbn. lia.
      * exact Hsz.
      * cbn. replace (m_PresentHistoryIdx x - 1 + 1) with (m_PresentHistoryIdx x) by lia.
        exact Hs.
      * exact Hh1.
    + unfold live_ctx, leaving_redo. cbn. rewrite lookup_insert_eq.
      replace (m_PresentHistoryIdx x - 1 + 1) with (m_PresentHistoryIdx x) by lia.
      destruct x; cbn in *. subst. reflexivity.
Qed.

End Replaying.

Lemma PeekFuture_names_the_record_Redo_replays_witness :
  PeekFuture 0%nat Example.undone = Returns (Some 0%nat) Example.undone /\
  exists w', Redo Example.idle 0%nat Example.undone = Returns true w'.
Proof.
  destruct (PeekFuture_names_the_record_Redo_replays Example.idle Example.undone 0%nat _
              eq_refl) as [_ H].
  destruct (H eq_refl ltac:(vm_compute; congruence)) as (_ & _ & H').
  destruct (H' 0%nat _ true _ _ eq_refl ltac:(vm_compute; split; congruence)
              eq_refl eq_refl eq_refl eq_refl) as [HP HR].
  split; [exact HP|]. eexists. exact HR.
Defined.

Lemma Redo_at_top_of_stack_does_nothing_witness :
  Redo Example.idle 0%nat (Example.recorded ∅) = Returns false (Example.recorded ∅) /\
  PeekFuture 0%nat (Example.recorded ∅) = Returns None (Example.recorded ∅).
Proof.
  exact (Redo_at_top_of_stack_does_nothing Example.idle (Example.recorded ∅) 0%nat _
           eq_refl eq_refl eq_refl ltac:(vm_compute; congruence) eq_refl).
Defined.

Lemma replay_flag_survives_a_throwing_closure_witness :
  (exists w', Undo Example.throwing 0%nat (Example.recorded ∅) = Throws w' /\
              IsUndoing 0%nat w' = Returns true w') /\
  (exists w', Redo Example.throwing 0%nat Example.undone = Throws w' /\
              IsRedoing 0%nat w' = Returns true w').
Proof.
  split.
  - destruct (replay_flag_survives_a_throwing_closure Example.throwing
                (Example.recorded ∅) 0%nat
                (mkContext [None; Some 0%nat] 1 false false None NoopObserver false)
                0%nat _
                (entering_undo 0%nat
                   (mkContext [None; Some 0%nat] 1 false false None NoopObserver false)
                   (Example.recorded ∅))
                (mkContext [None; Some 0%nat] 1 true false None NoopObserver true)
                eq_refl eq_refl eq_refl eq_refl eq_refl) as [HU _].
    destruct (HU ltac:(vm_compute; split; congruence) eq_refl eq_refl eq_refl)
      as (w' & HU' & _ & _ & Hf).
    exists w'. split; [exact HU' | exact Hf].
  - destruct (replay_flag_survives_a_throwing_closure Example.throwing
                Example.undone 0%nat
                (mkContext [None; Some 0%nat] 0 false false None NoopObserver false)
                0%nat _
                (entering_redo 0%nat
                   (mkContext [None; Some 0%nat] 0 false false None NoopObserver false)
                   Example.undone)
                (mkContext [None; Some 0%nat] 1 false true None NoopObserver true)
                eq_refl eq_refl eq_refl eq_refl eq_refl) as [_ HR].
    destruct (HR ltac:(vm_compute; split; congruence) ltac:(vm_compute; congruence)
                eq_refl eq_refl eq_refl)
      as (w' & HR' & _ & _ & Hf).
    exists w'. split; [exact HR' | exact Hf].
Defined.

Lemma Redo_after_Undo_restores_the_context_witness :
  exists wu wr,
    Undo Example.idle 0%nat (Example.recorded ∅) = Returns true wu /\
    Redo Example.idle 0%nat wu = Returns true wr /\
    contexts wr !! 0%nat = contexts (Example.recorded ∅) !! 0%nat.
Proof.
  destruct (Redo_after_Undo_restores_the_context Example.idle (Example.recorded ∅) 0%nat
              _ 0%nat _ true _ _ true _
              eq_refl eq_refl eq_refl eq_refl eq_refl
              ltac:(vm_compute; split; congruence) ltac:(vm_compute; congruence)
              eq_refl eq_refl eq_refl eq_refl eq_refl eq_refl eq_refl eq_refl)
    as (HU & _ & wr & HR & Hx).
  eexists. exists wr. split; [exact HU|]. split; [exact HR | exact Hx].
Defined.

(** ** Clearing, disabling and observing *)

Section ClearDisableObserve.

Context {Host : Type}.
Implicit Types (w : World Host) (x : HistoryContext) (h : History).

Variable call : FnId -> list Value -> M Host bool.

(** [Clear()] forgets the history without deleting it: the stack is the
    sentinel alone and the cursor is on it, so that [Undo()] and [Redo()]
    answer false and [PeekFuture()] is null; but no record is deleted -
    the records that were on the stack, and every other context, are in
    the store as before. *)
Theorem Clear_forgets_without_deleting w c x :
  s_Lock w = false -> live_ctx w c x -> m_Mutex x = false ->
  exists w',
    Clear c w = Returns tt w' /\
    live_ctx w' c (with_stack [None] (with_present 0 x)) /\
    records w' = records w /\
    (forall c', c' <> c -> contexts w' !! c' = contexts w !! c') /\
    Undo call c w' = Returns false w' /\
    Redo call c w' = Returns false w' /\
    PeekFuture c w' = Returns None w'.
Proof.
  intros Hl Hc Hm. eexists. split; [apply Clear_unlocked; eassumption|].
  match goal with
  | |- live_ctx ?w' _ ?x' /\ _ =>
      assert (Hc' : live_ctx w' c x') by (unfold live_ctx; cbn; apply lookup_insert_eq)
  end.
  split; [exact Hc'|]. split; [reflexivity|]. split; [|split; [|split]].
  - intros c' Hne. cbn. apply lookup_insert_ne. congruence.
  - eapply Undo_at_sentinel; [exact Hl | exact Hc' | exact Hm | reflexivity].
  - eapply Redo_at_top; [exact Hl | exact Hc' | exact Hm | reflexivity].
  - eapply PeekFuture_at_top; [exact Hl | exact Hc' | | ]; vm_compute; congruence.
Qed.

Lemma perform_all_locked w ops : s_Lock w = true -> perform_all call ops w = Returns tt w.
Proof.
  intros Hl. induction ops as [|op ops IH]; [reflexivity|].
  cbn [perform_all]. unfold bind. rewrite perform_locked by assumption. exact IH.
Qed.

(** [History::Disable()] and [History::Enable()] around any sequence of
    operations: the operations change nothing, and [Enable()] releases the
    global lock whatever it was before - the lock is a flag, not a
    counter, so a bracket inside a locked region ends the region. *)
Theorem Disable_Enable_bracket w ops :
  (Disable ;; perform_all call ops ;; Enable) w = Returns tt (set_Lock false w).
Proof.
  unfold Disable, Enable, bind, modify.
  rewrite perform_all_locked by reflexivity. reflexivity.
Qed.

(** A context has one observer: [BindOnStackChanged] replaces the one in
    place and [UnbindOnStackChanged] puts the empty lambda back.  The
    observer that a later [Clear()] calls is the one bound last, and after
    an unbind it is the empty lambda, not a host function. *)
Theorem observer_called_is_the_one_bound_last w c x f g :
  s_Lock w = false -> live_ctx w c x ->
  (exists w',
      (BindOnStackChanged c f ;; BindOnStackChanged c g ;; Clear c) w = Returns tt w' /\
      events w' = events w ++ [StackChanged c (HostObserver g) 0]) /\
  (exists w',
      (BindOnStackChanged c f ;; UnbindOnStackChanged c ;; Clear c) w = Returns tt w' /\
      events w' = events w ++ [StackChanged c NoopObserver 0]).
Proof.
  intros Hl Hc. split.
  - eexists. split.
    + unfold bind. rewrite (BindOnStackChanged_unlocked _ _ _ _ Hl Hc).
      erewrite BindOnStackChanged_unlocked;
        [| exact Hl | unfold live_ctx; cbn; apply lookup_insert_eq].
      apply Clear_unlocked; [unfold live_ctx; cbn; apply lookup_insert_eq | exact Hl].
    + reflexivity.
  - eexists. split.
    + unfold bind. rewrite (BindOnStackChanged_unlocked _ _ _ _ Hl Hc).
      unfold UnbindOnStackChanged. run.
      apply Clear_unlocked; [unfold live_ctx; cbn; apply lookup_insert_eq | exact Hl].
    + reflexivity.
Qed.

End ClearDisableObserve.

Lemma Clear_forgets_without_deleting_witness :
  exists w',
    Clear 0%nat (Example.recorded ∅) = Returns tt w' /\
    records w' = records (Example.recorded ∅) /\
    Undo Example.idle 0%nat w' = Returns false w' /\
    Redo Example.idle 0%nat w' = Returns false w'.
Proof.
  destruct (Clear_forgets_without_deleting Example.idle (Example.recorded ∅) 0%nat _
              eq_refl eq_refl eq_refl) as (w' & HC & _ & Hr & _ & HU & HR & _).
  exists w'. split; [exact HC|]. split; [exact Hr|]. split; [exact HU | exact HR].
Defined.

Lemma observer_called_is_the_one_bound_last_witness :
  exists w',
    (BindOnStackChanged 0%nat "Refresh" ;; UnbindOnStackChanged 0%nat ;; Clear 0%nat)
      (Example.recorded ∅) = Returns tt w' /\
    events w' = events (Example.recorded ∅) ++ [StackChanged 0%nat NoopObserver 0].
Proof.
  exact (proj2 (observer_called_is_the_one_bound_last (Example.recorded ∅) 0%nat _
                  "Refresh" "Repaint" eq_refl eq_refl)).
Defined.

(** ** More on the memento store *)

Section MementoStore.

Context {Host : Type}.
Implicit Types (w : World Host) (x : HistoryContext) (h : History).

Lemma TypeId_eqb_eq a b : TypeId_eqb a b = true -> a = b.
Proof. destruct a, b; cbn; congruence. Qed.

Lemma any_cast_Some T a v : any_cast T a = Some v -> a = Some v /\ type_of v = T.
Proof.
  destruct a as [v'|]; cbn; [|discriminate].
  destruct (TypeId_eqb (type_of v') T) eqn:E; [|discriminate].
  intros [= <-]. split; [reflexivity | apply TypeId_eqb_eq; exact E].
Qed.

(** What [Load] does, whatever the phase. *)
Lemma Load_cases w r h b T key output :
  live_rec w r h -> IsUndoingOrRedoing (m_SubContext h) w = Returns b w ->
  Load r T key output w =
  if s_Lock w then Returns (false, output) w
  else if negb b then Returns (false, output) w
  else match m_Data h !! lookup_id key with
       | None => Returns (false, output) w
       | Some a => match any_cast T a with
                   | Some v => Returns (true, v) w
                   | None => Throws w
                   end
       end.
Proof.
  intros Hr Hb. destruct (s_Lock w) eqn:Hl.
  - unfold Load. run. rewrite Hl. reflexivity.
  - destruct b; cbn [negb].
    + apply Load_replaying; assumption.
    + unfold Load. run. rewrite Hl, Hr. unfold bind in Hb. rewrite Hb. reflexivity.
Qed.

(** [Load] reads and never writes: whenever it returns or throws, the
    store - the memento map included, although the lookup is written
    [m_Data[id]] - is exactly as before.  It returns false with [output]
    untouched, or true with a value of the requested type. *)
Theorem Load_leaves_the_store_alone w r T key output :
  Load r T key output w = Undefined \/
  Load r T key output w = Throws w \/
  Load r T key output w = Returns (false, output) w \/
  exists v, type_of v = T /\ Load r T key output w = Returns (true, v) w.
Proof.
  destruct (s_Lock w) eqn:Hl.
  { right. right. left. unfold Load. run. rewrite Hl. reflexivity. }
  destruct (records w !! r) as [[h|]|] eqn:Hr;
    [| left; unfold Load; run; rewrite Hl, Hr; reflexivity ..].
  destruct (IsUndoingOrRedoing (m_SubContext h) w) as [b w1| w1 |] eqn:Hb.
  - pose proof (IsUndoingOrRedoing_pure _ _ _ _ Hb). subst w1.
    rewrite (Load_cases w r h b) by assumption. rewrite Hl.
    destruct b; cbn [negb]; [|auto].
    destruct (m_Data h !! lookup_id key) as [a|]; [|auto].
    destruct (any_cast T a) as [v|] eqn:Ha; [|auto].
    apply any_cast_Some in Ha as [_ Hv]. right. right. right. exists v. auto.
  - exfalso. revert Hb. unfold IsUndoingOrRedoing, bind.
    assert (Hu : forall fuel c w0 w', IsUndoing_walk fuel c w0 <> Throws w').
    { induction fuel as [|fuel IH]; intros c w0 w'; cbn [IsUndoing_walk]; [discriminate|].
      unfold bind at 1. unfold load_ctx.
      destruct (contexts w0 !! c) as [[x|]|]; try discriminate.
      destruct (m_IsUndoing x); [discriminate|].
      unfold bind. unfold ParentContext, bind, gets, load_ctx.
      destruct (s_Lock w0); [discriminate|].
      destruct (contexts w0 !! c) as [[y|]|]; try discriminate.
      cbn. destruct (m_ParentContext y); [apply IH | discriminate]. }
    assert (Hrd : forall fuel c w0 w', IsRedoing_walk fuel c w0 <> Throws w').
    { induction fuel as [|fuel IH]; intros c w0 w'; cbn [IsRedoing_walk]; [discriminate|].
      unfold bind at 1. unfold load_ctx.
      destruct (contexts w0 !! c) as [[x|]|]; try discriminate.
      destruct (m_IsRedoing x); [discriminate|].
      unfold bind. unfold ParentContext, bind, gets, load_ctx.
      destruct (s_Lock w0); [discriminate|].
      destruct (contexts w0 !! c) as [[y|]|]; try discriminate.
      cbn. destruct (m_ParentContext y); [apply IH | discriminate]. }
    destruct (IsUndoing (m_SubContext h) w) as [u w2| w2 |] eqn:Hu'.
    + destruct u; [discriminate|]. apply Hrd.
    + exfalso. exact (Hu _ _ _ _ Hu').
    + discriminate.
  - left. unfold Load. run. rewrite Hl, Hr. unfold bind in Hb. rewrite Hb. reflexivity.
Qed.

(** [Load] answers true exactly when the global lock is released, the
    record's sub-context is undoing or redoing, the key - cut at its first
    "_Undo" - is in the memento map, and the value there has the requested
    type; [output] is then that value.  It answers false exactly when one
    of the first three fails, and [output] is then untouched. *)
Theorem Load_succeeds_exactly_when w r h b T key output :
  live_rec w r h -> IsUndoingOrRedoing (m_SubContext h) w = Returns b w ->
  (forall v w',
      Load r T key output w = Returns (true, v) w' <->
      s_Lock w = false /\ b = true /\
      m_Data h !! lookup_id key = Some (Some v) /\ type_of v = T /\ w' = w) /\
  (forall o w',
      Load r T key output w = Returns (false, o) w' <->
      (s_Lock w = true \/ b = false \/ m_Data h !! lookup_id key = None) /\
      o = output /\ w' = w).
Proof.
  intros Hr Hb. rewrite (Load_cases w r h b) by assumption. split.
  - intros v w'. destruct (s_Lock w); [split; [discriminate | intros (? & _); discriminate]|].
    destruct b; cbn [negb];
      [|split; [discriminate | intros (_ & ? & _); discriminate]].
    destruct (m_Data h !! lookup_id key) as [a|];
      [|split; [discriminate | intros (_ & _ & ? & _); discriminate]].
    destruct (any_cast T a) as [v0|] eqn:Ha.
    + apply any_cast_Some in Ha as [-> Hv]. split.
      * intros [= <- <-]. auto.
      * intros (_ & _ & [= ->] & _ & ->). reflexivity.
    + split; [discriminate|]. intros (_ & _ & [= ->] & Hv & _).
      rewrite <- Hv, any_cast_same in Ha. discriminate.
  - intros o w'. destruct (s_Lock w).
    { split; [intros [= <- <-]; auto | intros (_ & -> & ->); reflexivity]. }
    destruct b; cbn [negb].
    2:{ split; [intros [= <- <-]; auto | intros (_ & -> & ->); reflexivity]. }
    destruct (m_Data h !! lookup_id key) as [a|].
    2:{ split; [intros [= <- <-]; auto | intros (_ & -> & ->); reflexivity]. }
    destruct (any_cast T a) as [v0|];
      (split; [discriminate | intros ([?|[?|?]] & _); discriminate]).
Qed.

(** The flag walks read the contexts and the global lock and nothing
    else. *)
Lemma ParentContext_frame w w' c p :
  contexts w' = contexts w -> s_Lock w' = s_Lock w ->
  ParentContext c w = Returns p w -> ParentContext c w' = Returns p w'.
Proof.
  intros Hc Hl. unfold ParentContext. run. rewrite Hl.
  destruct (s_Lock w); [congruence|]. rewrite Hc.
  destruct (contexts w !! c) as [[x|]|]; congruence.
Qed.

Lemma IsUndoing_walk_frame w w' :
  contexts w' = contexts w -> s_Lock w' = s_Lock w ->
  forall fuel c b,
    IsUndoing_walk fuel c w = Returns b w -> IsUndoing_walk fuel c w' = Returns b w'.
Proof.
  intros Hc Hl. induction fuel as [|fuel IH]; intros c b; cbn [IsUndoing_walk];
    [discriminate|].
  unfold bind at 1 3. unfold load_ctx. rewrite Hc.
  destruct (contexts w !! c) as [[x|]|]; try discriminate.
  destruct (m_IsUndoing x); [unfold ret; congruence|].
  unfold bind. destruct (ParentContext c w) as [p w1| |] eqn:Hp; try discriminate.
  pose proof (ParentContext_pure _ _ _ _ Hp). subst w1.
  rewrite (ParentContext_frame w w' c p Hc Hl Hp).
  destruct p as [p|]; [apply IH | unfold ret; congruence].
Qed.

Lemma IsRedoing_walk_frame w w' :
  contexts w' = contexts w -> s_Lock w' = s_Lock w ->
  forall fuel c b,
    IsRedoing_walk fuel c w = Returns b w -> IsRedoing_walk fuel c w' = Returns b w'.
Proof.
  intros Hc Hl. induction fuel as [|fuel IH]; intros c b; cbn [IsRedoing_walk];
    [discriminate|].
  unfold bind at 1 3. unfold load_ctx. rewrite Hc.
  destruct (contexts w !! c) as [[x|]|]; try discriminate.
  destruct (m_IsRedoing x); [unfold ret; congruence|].
  unfold bind. destruct (ParentContext c w) as [p w1| |] eqn:Hp; try discriminate.
  pose proof (ParentContext_pure _ _ _ _ Hp). subst w1.
  rewrite (ParentContext_frame w w' c p Hc Hl Hp).
  destruct p as [p|]; [apply IH | unfold ret; congruence].
Qed.

Lemma IsUndoing_frame w w' c b :
  contexts w' = contexts w -> s_Lock w' = s_Lock w ->
  IsUndoing c w = Returns b w -> IsUndoing c w' = Returns b w'.
Proof.
  intros Hc Hl. unfold IsUndoing. rewrite Hc. apply IsUndoing_walk_frame; assumption.
Qed.

Lemma IsUndoingOrRedoing_frame w w' c b :
  contexts w' = contexts w -> s_Lock w' = s_Lock w ->
  IsUndoingOrRedoing c w = Returns b w -> IsUndoingOrRedoing c w' = Returns b w'.
Proof.
  intros Hc Hl. unfold IsUndoingOrRedoing, bind, IsUndoing, IsRedoing. cbn beta.
  rewrite Hc.
  destruct (IsUndoing_walk (size (contexts w)) c w) as [u w1| |] eqn:Hu; try discriminate.
  pose proof (IsUndoing_walk_pure _ _ _ _ _ Hu). subst w1.
  rewrite (IsUndoing_walk_frame w w' Hc Hl _ _ _ Hu).
  destruct u; [unfold ret; congruence|]. cbn beta. rewrite Hc.
  apply IsRedoing_walk_frame; assumption.
Qed.

(** [Save] overwrites silently: of two saves under one key the second
    wins, and the record is as if the first had never happened.  The
    entries under other keys stay. *)
Theorem Save_overwrites_silently w r h K v1 v2 :
  s_Lock w = false -> live_rec w r h ->
  IsUndoingOrRedoing (m_SubContext h) w = Returns false w ->
  exists w1 w2 h2,
    Save r K v1 w = Returns true w1 /\
    Save r K v2 w1 = Returns true w2 /\
    Save r K v2 w = Returns true w2 /\
    live_rec w2 r h2 /\
    m_Data h2 !! K = Some (Some v2) /\
    forall K', K' <> K -> m_Data h2 !! K' = m_Data h !! K'.
Proof.
  intros Hl Hr Hb. eexists. eexists. eexists.
  split; [apply Save_recording; eassumption|].
  split; [|split; [|split; [|split]]].
  - rewrite (Save_recording _ r (with_data (<[K := Some v1]> (m_Data h)) h)).
    + cbn. flat_world. rewrite !insert_insert_eq. reflexivity.
    + exact Hl.
    + unfold live_rec. cbn. apply lookup_insert_eq.
    + cbn [m_SubContext with_data].
      apply (IsUndoingOrRedoing_frame w); [reflexivity | reflexivity | exact Hb].
  - rewrite (Save_recording w r h) by assumption. reflexivity.
  - unfold live_rec. cbn. apply lookup_insert_eq.
  - cbn. apply lookup_insert_eq.
  - intros K' Hne. cbn. apply lookup_insert_ne. congruence.
Qed.

End MementoStore.

Section UndoKeys.

Lemma prefix_substring p : forall k t,
  String.prefix p (String.substring 0 k t) = true -> String.prefix p t = true.
Proof.
  induction p as [|a p IH]; intros k t H; [destruct t; reflexivity|].
  destruct t as [|b t]; [destruct k; discriminate|].
  destruct k as [|k]; [discriminate|].
  cbn [String.substring] in H. apply prefix_String in H as [-> H].
  apply prefix_String. split; [reflexivity|]. eapply IH. exact H.
Qed.

(** What is left of the first occurrence of a non-empty needle does not
    contain the needle. *)
Lemma find_erase a p : forall s n,
  find (String a p) s = Some n -> find (String a p) (erase s n) = None.
Proof.
  induction s as [|b s IH]; intros n H.
  - cbn in H. discriminate.
  - rewrite find_step in H.
    destruct (String.prefix (String a p) (String b s)) eqn:Hp.
    + injection H as <-. reflexivity.
    + destruct (find (String a p) s) as [n'|] eqn:Hf; [|discriminate].
      injection H as <-. unfold erase in *. cbn [String.substring].
      rewrite find_step.
      destruct (String.prefix (String a p) (String b (String.substring 0 n' s))) eqn:Hq.
      * change (String b (String.substring 0 n' s))
          with (String.substring 0 (S n') (String b s)) in Hq.
        apply prefix_substring in Hq. congruence.
      * rewrite (IH n') by reflexivity. reflexivity.
Qed.

Lemma lookup_id_has_no_Undo key : find "_Undo" (lookup_id key) = None.
Proof.
  unfold lookup_id. destruct (find "_Undo" key) as [n|] eqn:Hf; [|exact Hf].
  apply find_erase. exact Hf.
Qed.

Lemma append_assoc_s (s t u : string) : (s +:+ t) +:+ u = s +:+ (t +:+ u).
Proof.
  induction s as [|a s IH]; [reflexivity|].
  rewrite !append_String, IH. reflexivity.
Qed.

End UndoKeys.

Section UndoKeysInTheStore.

Context {Host : Type}.
Implicit Types (w : World Host) (x : HistoryContext) (h : History).

(** [Save] stores under the key as given, [Load] looks up the key cut at
    its first "_Undo": the key [Load] looks up never contains "_Undo", and
    a memento map whose keys all contain "_Undo" answers no [Load] at all -
    what was saved under such a key cannot be loaded. *)
Theorem Load_never_finds_a_key_with_Undo w r h :
  s_Lock w = false -> live_rec w r h ->
  IsUndoingOrRedoing (m_SubContext h) w = Returns true w ->
  (forall K a, m_Data h !! K = Some a -> find "_Undo" K <> None) ->
  forall T key output,
    find "_Undo" (lookup_id key) = None /\
    Load r T key output w = Returns (false, output) w.
Proof.
  intros Hl Hr Hb Hkeys T key output.
  pose proof (lookup_id_has_no_Undo key) as Hid. split; [exact Hid|].
  rewrite (Load_replaying w r h) by assumption.
  destruct (m_Data h !! lookup_id key) as [a|] eqn:Hk; [|reflexivity].
  exfalso. exact (Hkeys _ _ Hk Hid).
Qed.

End UndoKeysInTheStore.

Lemma Load_succeeds_exactly_when_witness :
  Load 0%nat TyInt "hOldValue<-RemoveObject_Undo" (VInt 0)
    (Example.in_undo {[ "hOldValue<-RemoveObject" := Some (VInt 11) ]})
  = Returns (true, VInt 11)
      (Example.in_undo {[ "hOldValue<-RemoveObject" := Some (VInt 11) ]}).
Proof.
  apply (Load_succeeds_exactly_when
           (Example.in_undo {[ "hOldValue<-RemoveObject" := Some (VInt 11) ]})
           0%nat _ true TyInt "hOldValue<-RemoveObject_Undo" (VInt 0) eq_refl eq_refl).
  repeat split; reflexivity.
Defined.

Lemma Save_overwrites_silently_witness :
  exists w1 w2,
    Save 0%nat "hOldValue<-RemoveObject" (VInt 11) (Example.recorded ∅) = Returns true w1 /\
    Save 0%nat "hOldValue<-RemoveObject" (VInt 12) w1 = Returns true w2 /\
    Save 0%nat "hOldValue<-RemoveObject" (VInt 12) (Example.recorded ∅) = Returns true w2.
Proof.
  destruct (Save_overwrites_silently (Example.recorded ∅) 0%nat _
              "hOldValue<-RemoveObject" (VInt 11) (VInt 12) eq_refl eq_refl eq_refl)
    as (w1 & w2 & _ & H1 & H2 & H3 & _).
  exists w1, w2. split; [exact H1|]. split; [exact H2 | exact H3].
Defined.

Lemma Load_never_finds_a_key_with_Undo_witness :
  Load 0%nat TyInt "h_Undo" (VInt 0) (Example.in_undo {[ "h_Undo" := Some (VInt 11) ]})
  = Returns (false, VInt 0) (Example.in_undo {[ "h_Undo" := Some (VInt 11) ]}).
Proof.
  refine (proj2 (Load_never_finds_a_key_with_Undo
                   (Example.in_undo {[ "h_Undo" := Some (VInt 11) ]}) 0%nat _
                   eq_refl eq_refl eq_refl _ TyInt "h_Undo" (VInt 0))).
  intros K a HK. cbn in HK. apply lookup_singleton_Some in HK as [<- _].
  vm_compute. discriminate.
Defined.

(** ** The macros of the memento store *)

Section MementoMacros.

Context {Host : Type}.
Implicit Types (w : World Host) (x : HistoryContext) (h : History).

Lemma record_in_progress_inside w r h :
  s_Lock w = false -> inside_scope_of w r h ->
  Showcase.record_in_progress w = Returns r w.
Proof.
  intros Hl (sub & xs & c & xc & Hs & Hxs & Hp & Hxc & Hrange & Hslot & Hr).
  unfold Showcase.record_in_progress, GetContext_deref, GetContext.
  unfold bind, gets, lift. rewrite Hs. unfold ret.
  rewrite (ParentContext_unlocked _ _ _ Hl Hxs), Hp.
  rewrite (Present_unlocked w c xc (Some r)) by assumption. reflexivity.
Qed.

Lemma HISTORY_KEY_Undo var func :
  Showcase.HISTORY_KEY var (func +:+ "_Undo") = Showcase.HISTORY_KEY var func +:+ "_Undo".
Proof. unfold Showcase.HISTORY_KEY. rewrite !append_assoc_s. reflexivity. Qed.

(** [HISTORY_SAVE(var)] in a function and [HISTORY_LOAD(var)] in its
    [_Undo] counterpart meet in one slot of the record in progress - the
    record under the cursor of the active context's parent: for a key
    [var<-func] without "_Undo", what the do-function saved is what the
    undo-function loads, as long as the map was not written in between. *)
Theorem HISTORY_LOAD_in_Undo_finds_HISTORY_SAVE w r h var func v :
  s_Lock w = false -> inside_scope_of w r h ->
  IsUndoingOrRedoing (m_SubContext h) w = Returns false w ->
  find "_Undo" (Showcase.HISTORY_KEY var func) = None ->
  exists w1 h1,
    Showcase.HISTORY_SAVE var func v w = Returns true w1 /\ live_rec w1 r h1 /\
    forall w2 h2 output,
      s_Lock w2 = false -> inside_scope_of w2 r h2 -> m_Data h2 = m_Data h1 ->
      IsUndoingOrRedoing (m_SubContext h2) w2 = Returns true w2 ->
      Showcase.HISTORY_LOAD var (func +:+ "_Undo") (type_of v) output w2
      = Returns (true, v) w2.
Proof.
  intros Hl Hin Hb HK.
  assert (Hr : live_rec w r h)
    by (destruct Hin as (? & ? & ? & ? & ? & ? & ? & ? & ? & ? & ?); assumption).
  eexists. eexists. split; [|split].
  - unfold Showcase.HISTORY_SAVE, bind. rewrite (record_in_progress_inside w r h) by assumption.
    apply (Save_recording w r h); assumption.
  - unfold live_rec. cbn. apply lookup_insert_eq.
  - intros w2 h2 output Hl2 Hin2 Hd Hb2.
    assert (Hr2 : live_rec w2 r h2)
      by (destruct Hin2 as (? & ? & ? & ? & ? & ? & ? & ? & ? & ? & ?); assumption).
    unfold Showcase.HISTORY_LOAD, bind.
    rewrite (record_in_progress_inside w2 r h2) by assumption.
    rewrite (Load_replaying w2 r h2) by assumption.
    rewrite HISTORY_KEY_Undo, lookup_id_Undo_suffix, Hd by assumption. cbn.
    rewrite lookup_insert_eq, any_cast_same. reflexivity.
Qed.

End MementoMacros.

(** ** The scoped controllers *)

Section Controllers.

Context {Host : Type}.
Implicit Types (w : World Host) (x : HistoryContext) (h : History).

Lemma PushController_inert w c :
  s_Lock w = false -> s_Context w = Some c -> IsUndoing c w = Returns true w ->
  HistoryPushController_ctor w = Returns (mkPushController true) w /\
  forall ctl, HistoryPushController_dtor ctl w = Returns ctl w.
Proof.
  intros Hl Hs Hb. split.
  - unfold HistoryPushController_ctor, GetContext_deref, GetContext.
    unfold bind, gets, lift. rewrite Hl, Hs. unfold ret. rewrite Hb. reflexivity.
  - intros ctl. unfold HistoryPushController_dtor, GetContext_deref, GetContext.
    unfold bind, gets, lift. rewrite Hl. destruct (active ctl); [|reflexivity].
    cbn [negb]. rewrite Hs. unfold ret. rewrite Hb. reflexivity.
Qed.

(** "No effect in Undo": while the active context or one of its ancestors
    is undoing - whether the global lock is set or not - the
    construction of a push controller leaves the active context where it
    is, and its release returns without ascending, without moving a
    cursor, without calling the observer and without clearing [active]. *)
Theorem PushController_does_nothing_while_undoing w c l :
  s_Context w = Some c -> ancestors w c l -> undoing_in w l ->
  HistoryPushController_ctor w = Returns (mkPushController true) w /\
  forall ctl, HistoryPushController_dtor ctl w = Returns ctl w.
Proof.
  intros Hs Hc Hu. destruct (s_Lock w) eqn:Hl.
  - split.
    + unfold HistoryPushController_ctor. run. rewrite Hl. reflexivity.
    + intros ctl. unfold HistoryPushController_dtor. run. rewrite Hl. reflexivity.
  - destruct (IsUndoing_chain _ _ _ Hl Hc) as (b & Hb & Hiff).
    apply Hiff in Hu. subst b. apply (PushController_inert w c); assumption.
Qed.

Lemma set_Context_restore w c p : s_Context w = Some c -> set_Context (Some c) (set_Context p w) = w.
Proof. intros Hs. destruct w; cbn in *. subst. reflexivity. Qed.

Lemma PopController_ctor_descends w c x r h :
  s_Lock w = false -> s_Context w = Some c -> live_ctx w c x ->
  0 <= m_PresentHistoryIdx x <= Int.INT_MAX ->
  m_HistoryStack x !! Z.to_nat (m_PresentHistoryIdx x) = Some (Some r) ->
  live_rec w r h ->
  HistoryPopController_ctor w = Returns tt (set_Context (Some (m_SubContext h)) w).
Proof.
  intros Hl Hs Hc Hp Hslot Hh.
  unfold HistoryPopController_ctor, GetContext_deref, GetContext, SubContext_of, SetContext.
  unfold bind, gets, lift. rewrite Hl, Hs. unfold ret.
  rewrite (Present_unlocked w c x (Some r)) by assumption.
  rewrite (load_rec_live _ _ _ Hh). reflexivity.
Qed.

Lemma PopController_dtor_ascends w sub xs c x :
  s_Lock w = false -> s_Context w = Some sub ->
  live_ctx w sub xs -> m_ParentContext xs = Some c -> live_ctx w c x ->
  HistoryPopController_dtor w =
  Returns tt
    (match m_ParentContext x with
     | Some _ =>
         if 1 <? m_PresentHistoryIdx x
         then set_contexts
                (<[c := Live (with_present (m_PresentHistoryIdx x - 1) x)]> (contexts w))
                (set_Context (Some c) w)
         else set_Context (Some c) w
     | None => set_Context (Some c) w
     end).
Proof.
  intros Hl Hs Hxs Hp Hc.
  assert (Hpc : ParentContext c (set_Context (Some c) w)
                = Returns (m_ParentContext x) (set_Context (Some c) w))
    by (apply ParentContext_unlocked; [exact Hl | exact Hc]).
  unfold HistoryPopController_dtor, GetContext_deref, GetContext, SetContext.
  unfold bind at 1. unfold gets at 1. rewrite Hl.
  unfold bind at 1. unfold bind at 1. unfold gets at 1. rewrite Hs. unfold lift at 1, ret at 1.
  unfold bind at 1. rewrite (ParentContext_unlocked _ _ _ Hl Hxs), Hp.
  unfold bind at 1. unfold modify at 1.
  unfold bind at 1. unfold bind at 1. unfold gets at 1. cbn [s_Context set_Context].
  unfold lift at 1, ret at 1.
  unfold bind at 1. fold (set_Context (Some c) w). rewrite Hpc.
  destruct (m_ParentContext x); [|reflexivity].
  unfold bind at 1. rewrite (load_ctx_live (set_Context (Some c) w) c x) by exact Hc.
  destruct (Z.ltb_spec 1 (m_PresentHistoryIdx x)); [|reflexivity].
  rewrite decr_in_range by (unfold Int.INT_MIN; lia). reflexivity.
Qed.

(** A pop controller on a context whose cursor is on a record: the
    construction makes the record's sub-context the active context, the
    release makes the parent the active context again.  On a root context
    the store is then exactly as before; on a nested context the release
    also moves the cursor down by one, but never below 1. *)
Theorem PopController_descends_and_ascends w c x r h xs :
  s_Lock w = false -> s_Context w = Some c -> live_ctx w c x ->
  0 <= m_PresentHistoryIdx x <= Int.INT_MAX ->
  m_HistoryStack x !! Z.to_nat (m_PresentHistoryIdx x) = Some (Some r) ->
  live_rec w r h -> live_ctx w (m_SubContext h) xs -> m_ParentContext xs = Some c ->
  HistoryPopController_ctor w = Returns tt (set_Context (Some (m_SubContext h)) w) /\
  HistoryPopController_dtor (set_Context (Some (m_SubContext h)) w) =
  Returns tt
    (match m_ParentContext x with
     | Some _ =>
         if 1 <? m_PresentHistoryIdx x
         then set_contexts
                (<[c := Live (with_present (m_PresentHistoryIdx x - 1) x)]> (contexts w)) w
         else w
     | None => w
     end).
Proof.
  intros Hl Hs Hc Hp Hslot Hh Hxs Hpar. split.
  - eapply PopController_ctor_descends; eassumption.
  - rewrite (PopController_dtor_ascends _ (m_SubContext h) xs c x);
      [| exact Hl | reflexivity | exact Hxs | exact Hpar | exact Hc].
    rewrite set_Context_restore by exact Hs. reflexivity.
Qed.

Lemma PushController_release_redoing w sub c xc l :
  s_Lock w = false -> s_Context w = Some sub ->
  ancestors w sub (sub :: l) -> ancestors w c l -> live_ctx w c xc ->
  ~ undoing_in w (sub :: l) -> redoing_in w l -> int_sized xc ->
  HistoryPushController_dtor (mkPushController true) w =
  Returns (mkPushController false)
    (match m_ParentContext xc with
     | Some _ =>
         if m_PresentHistoryIdx xc <? vec_size (m_HistoryStack xc) - 1
         then set_contexts
                (<[c := Live (with_present (m_PresentHistoryIdx xc + 1) xc)]>
                   (contexts w)) (set_Context (Some c) w)
         else set_Context (Some c) w
     | None => set_Context (Some c) w
     end).
Proof.
  intros Hl Hs Hsub Hc Hxc Hnu Hrd Hsz. unfold int_sized in Hsz.
  pose proof (vec_size_nonneg (m_HistoryStack xc)) as Hnn.
  assert (Hpar : ParentContext sub w = Returns (Some c) w).
  { pose proof (ancestors_head _ _ _ Hc) as Hhd.
    inversion Hsub as [? xs Hxs Hp | ? xs p l' Hxs Hp Hl']; subst; [discriminate|].
    apply ancestors_head in Hl'. rewrite Hhd in Hl'. injection Hl' as <-.
    rewrite (ParentContext_unlocked _ _ _ Hl Hxs), Hp. reflexivity. }
  pose proof (IsUndoing_false _ _ _ Hl Hsub Hnu) as Hu.
  assert (Hr : IsRedoing c (set_Context (Some c) w) = Returns true (set_Context (Some c) w)).
  { destruct (IsRedoing_chain (set_Context (Some c) w) c l Hl
                (ancestors_set_Context _ _ _ _ Hc)) as (b & Hb & Hiff).
    replace b with true in Hb; [exact Hb|]. symmetry. apply Hiff. exact Hrd. }
  assert (Hpc : ParentContext c (set_Context (Some c) w)
                = Returns (m_ParentContext xc) (set_Context (Some c) w))
    by (apply ParentContext_unlocked; [exact Hl | exact Hxc]).
  unfold HistoryPushController_dtor, GetContext_deref, GetContext, SetContext.
  repeat (unfold bind, gets, ret, modify, lift, undefined;
          cbn [active negb s_Context s_Lock set_Context];
          rewrite ?Hl, ?Hs, ?Hu, ?Hpar).
  fold (set_Context (Some c) w). rewrite Hpc.
  destruct (m_ParentContext xc).
  - rewrite !Hr. unfold load_ctx.
    change (contexts (set_Context (Some c) w)) with (contexts w). rewrite !Hxc.
    rewrite to_int_small by lia.
    destruct (Z.ltb_spec (m_PresentHistoryIdx xc) (vec_size (m_HistoryStack xc) - 1)).
    + rewrite Hxc. rewrite incr_in_range by lia. reflexivity.
    + rewrite !Hr. reflexivity.
  - rewrite !Hr. reflexivity.
Qed.

(** The release of a push scope during a redo: the parent becomes the
    active context; if it is itself a nested context and has a record
    above its cursor, its cursor moves up by one, as a push would have
    moved it; the observer is not called. *)
Theorem PushController_release_while_redoing w sub c xc l :
  s_Lock w = false -> s_Context w = Some sub ->
  ancestors w sub (sub :: l) -> ancestors w c l -> live_ctx w c xc ->
  ~ undoing_in w (sub :: l) -> redoing_in w l -> int_sized xc ->
  exists w',
    HistoryPushController_dtor (mkPushController true) w
    = Returns (mkPushController false) w' /\
    s_Context w' = Some c /\ events w' = events w /\ records w' = records w /\
    live_ctx w' c
      (match m_ParentContext xc with
       | Some _ =>
           if m_PresentHistoryIdx xc <? vec_size (m_HistoryStack xc) - 1
           then with_present (m_PresentHistoryIdx xc + 1) xc
           else xc
       | None => xc
       end).
Proof.
  intros Hl Hs Hsub Hc Hxc Hnu Hrd Hsz.
  eexists. split; [eapply PushController_release_redoing; eassumption|].
  destruct (m_ParentContext xc);
    [destruct (m_PresentHistoryIdx xc <? vec_size (m_HistoryStack xc) - 1)|];
    cbn; repeat (split; [reflexivity|]);
    unfold live_ctx; cbn; rewrite ?lookup_insert_eq; auto.
Qed.

End Controllers.

(** ** The root context *)

Section RootContext.

Context {Host : Type}.
Implicit Types (w : World Host) (x : HistoryContext) (h : History).

Lemma GetRootContext_walk_chain w c l :
  s_Lock w = false -> ancestors w c l ->
  forall fuel, (length l <= fuel)%nat ->
  exists root x,
    last l = Some root /\ live_ctx w root x /\ m_ParentContext x = None /\
    GetRootContext_walk fuel c w = Returns root w.
Proof.
  intros Hl. induction 1 as [c x Hx Hp | c x p l Hx Hp Hanc IH];
    intros [|fuel] Hfuel; cbn in Hfuel; try lia; cbn [GetRootContext_walk];
    unfold bind at 1; rewrite (ParentContext_unlocked _ _ _ Hl Hx), Hp.
  - exists c, x. auto.
  - unfold bind. rewrite (ParentContext_unlocked _ _ _ Hl Hx), Hp. cbn [lift]. unfold ret.
    destruct (IH fuel ltac:(lia)) as (root & y & Hlast & Hy & Hroot & Hrun).
    exists root, y. split; [|auto]. rewrite last_cons, Hlast. reflexivity.
Qed.

(** [History::GetRootContext()] with the global lock released walks from
    the active context up the parent chain and returns the context at its
    end, the one without a parent, leaving the store alone.  While the
    global lock is set, [ParentContext()] answers null at once and the
    active context itself is returned, root or not. *)
Theorem GetRootContext_returns_the_end_of_the_chain w c l :
  s_Context w = Some c -> ancestors w c l ->
  (s_Lock w = false ->
   exists root x,
     last l = Some root /\ live_ctx w root x /\ m_ParentContext x = None /\
     GetRootContext w = Returns root w) /\
  (s_Lock w = true -> GetRootContext w = Returns c w).
Proof.
  intros Hs Hc. split; intros Hl.
  - destruct (GetRootContext_walk_chain w c l Hl Hc (S (size (contexts w))))
      as (root & x & Hlast & Hx & Hroot & Hrun).
    { pose proof (ancestors_length _ _ _ Hc). lia. }
    exists root, x. repeat (split; [assumption|]).
    unfold GetRootContext, GetContext_deref, GetContext, bind, gets, lift.
    rewrite Hs. exact Hrun.
  - unfold GetRootContext, GetContext_deref, GetContext, bind, gets, lift.
    rewrite Hs. unfold ret. cbn [GetRootContext_walk]. unfold bind, ParentContext, bind, gets.
    rewrite Hl. reflexivity.
Qed.

End RootContext.

Lemma HISTORY_LOAD_in_Undo_finds_HISTORY_SAVE_witness :
  exists w1,
    Showcase.HISTORY_SAVE "hOldValue" "RemoveObject" (VInt 11) Example.in_do
    = Returns true w1 /\
    Showcase.HISTORY_LOAD "hOldValue" ("RemoveObject" +:+ "_Undo") TyInt (VInt 0)
      (Example.in_undo {[ "hOldValue<-RemoveObject" := Some (VInt 11) ]})
    = Returns (true, VInt 11)
        (Example.in_undo {[ "hOldValue<-RemoveObject" := Some (VInt 11) ]}).
Proof.
  assert (Hin : forall w : World unit,
             w = Example.in_do ->
             inside_scope_of w 0%nat
               (mkHistory ∅ "RemoveObject" 1 1%nat [VString "foo"]
                  "RemoveObject" "RemoveObject_Undo")).
  { intros w ->. exists 1%nat, (HistoryContext_ctor (Some 0%nat)), 0%nat,
      (mkContext [None; Some 0%nat] 1 false false None NoopObserver false).
    repeat (split; [reflexivity|]). split; [vm_compute; split; congruence|].
    split; reflexivity. }
  destruct (HISTORY_LOAD_in_Undo_finds_HISTORY_SAVE Example.in_do 0%nat _
              "hOldValue" "RemoveObject" (VInt 11) eq_refl (Hin _ eq_refl) eq_refl eq_refl)
    as (w1 & h1 & HS & Hh1 & HL).
  exists w1. split; [exact HS|].
  refine (HL (Example.in_undo {[ "hOldValue<-RemoveObject" := Some (VInt 11) ]})
             (mkHistory {[ "hOldValue<-RemoveObject" := Some (VInt 11) ]} "RemoveObject" 1
                1%nat [VString "foo"] "RemoveObject" "RemoveObject_Undo")
             (VInt 0) eq_refl _ _ eq_refl).
  - exists 1%nat, (HistoryContext_ctor (Some 0%nat)), 0%nat,
      (mkContext [None; Some 0%nat] 1 true false None NoopObserver true).
    repeat (split; [reflexivity|]). split; [vm_compute; split; congruence|].
    split; reflexivity.
  - unfold live_rec in Hh1. vm_compute in HS. injection HS as <-.
    vm_compute in Hh1. injection Hh1 as <-. reflexivity.
Defined.

Lemma PushController_does_nothing_while_undoing_witness :
  HistoryPushController_ctor (Example.in_undo ∅)
  = Returns (mkPushController true) (Example.in_undo ∅) /\
  HistoryPushController_dtor (mkPushController true) (Example.in_undo ∅)
  = Returns (mkPushController true) (Example.in_undo ∅).
Proof.
  assert (Hchain : ancestors (Example.in_undo ∅) 1%nat [1%nat; 0%nat]).
  { eapply ancestors_step; [reflexivity | reflexivity |].
    eapply ancestors_root; reflexivity. }
  assert (Hflag : undoing_in (Example.in_undo ∅) [1%nat; 0%nat]).
  { eexists 0%nat, _. split; [|split; reflexivity].
    apply elem_of_cons. right. apply elem_of_cons. left. reflexivity. }
  destruct (PushController_does_nothing_while_undoing (Example.in_undo ∅) 1%nat _
              eq_refl Hchain Hflag) as [Hctor Hdtor].
  split; [exact Hctor | apply Hdtor].
Defined.

Lemma PopController_descends_and_ascends_witness :
  HistoryPopController_ctor (Example.recorded ∅)
  = Returns tt (set_Context (Some 1%nat) (Example.recorded ∅)) /\
  HistoryPopController_dtor (set_Context (Some 1%nat) (Example.recorded ∅))
  = Returns tt (Example.recorded ∅).
Proof.
  exact (PopController_descends_and_ascends (Example.recorded ∅) 0%nat _ 0%nat _ _
           eq_refl eq_refl eq_refl ltac:(vm_compute; split; congruence)
           eq_refl eq_refl eq_refl eq_refl).
Defined.

Lemma PushController_release_while_redoing_witness :
  exists w',
    HistoryPushController_dtor (mkPushController true) Example.in_nested_redo
    = Returns (mkPushController false) w' /\
    s_Context w' = Some 1%nat /\ events w' = [] /\
    live_ctx w' 1%nat
      (mkContext [None; Some 1%nat; Some 2%nat] 2 false false (Some 0%nat)
         NoopObserver false).
Proof.
  assert (H0 : ancestors Example.in_nested_redo 0%nat [0%nat])
    by (eapply ancestors_root; reflexivity).
  assert (H1 : ancestors Example.in_nested_redo 1%nat [1%nat; 0%nat])
    by (eapply ancestors_step; [reflexivity | reflexivity | exact H0]).
  assert (H2 : ancestors Example.in_nested_redo 2%nat [2%nat; 1%nat; 0%nat])
    by (eapply ancestors_step; [reflexivity | reflexivity | exact H1]).
  destruct (PushController_release_while_redoing Example.in_nested_redo 2%nat 1%nat _ _
              eq_refl eq_refl H2 H1 eq_refl) as (w' & Hrun & Hs & He & _ & Hx).
  - intros (a & y & Ha & Hy & Hf). unfold live_ctx in Hy.
    repeat (apply elem_of_cons in Ha as [->|Ha];
            [vm_compute in Hy; injection Hy as <-; discriminate|]).
    inversion Ha.
  - eexists 0%nat, _. split; [|split; reflexivity].
    apply elem_of_cons. right. apply elem_of_cons. left. reflexivity.
  - vm_compute. congruence.
  - exists w'. split; [exact Hrun|]. split; [exact Hs|]. split; [exact He | exact Hx].
Defined.

Lemma GetRootContext_returns_the_end_of_the_chain_witness :
  (exists root,
      last [1%nat; 0%nat] = Some root /\
      GetRootContext (Example.in_undo ∅) = Returns root (Example.in_undo ∅)) /\
  GetRootContext Example.in_undo_locked = Returns 1%nat Example.in_undo_locked.
Proof.
  assert (Hchain : forall w : World unit,
             w = Example.in_undo ∅ \/ w = Example.in_undo_locked ->
             ancestors w 1%nat [1%nat; 0%nat]).
  { intros w [-> | ->];
      (eapply ancestors_step; [reflexivity | reflexivity |];
       eapply ancestors_root; reflexivity). }
  split.
  - destruct (GetRootContext_returns_the_end_of_the_chain (Example.in_undo ∅) 1%nat _
                eq_refl (Hchain _ (or_introl eq_refl))) as [H _].
    destruct (H eq_refl) as (root & x & Hlast & _ & _ & Hrun).
    exists root. split; [exact Hlast | exact Hrun].
  - destruct (GetRootContext_returns_the_end_of_the_chain Example.in_undo_locked 1%nat _
                eq_refl (Hchain _ (or_intror eq_refl))) as [_ H].
    exact (H eq_refl).
Defined.

(** ** What a push changes and what it leaves alone *)

Section PushFrame.

Context {Host : Type}.
Implicit Types (w : World Host) (x : HistoryContext) (h : History).

Lemma delete_History_frame w p :
  (forall r, p = Some r -> exists h, live_rec w r h) ->
  exists w1,
    delete_History p w = Returns tt w1 /\
    (forall a, (forall r h, p = Some r -> live_rec w r h -> m_SubContext h <> a) ->
               contexts w1 !! a = contexts w !! a) /\
    (forall a, is_Some (contexts w !! a) -> is_Some (contexts w1 !! a)) /\
    (forall r, records w1 !! r
               = if decide (p = Some r) then Some Freed else records w !! r) /\
    s_Lock w1 = s_Lock w /\ events w1 = events w /\ s_Context w1 = s_Context w /\
    s_id w1 = s_id w /\ host w1 = host w.
Proof.
  intros Hp. destruct p as [r|].
  - destruct (Hp r eq_refl) as (h & Hh).
    eexists. split; [unfold delete_History; run; rewrite Hh; reflexivity|].
    split; [|split; [|split; [|repeat split]]].
    + intros a Ha. cbn. apply lookup_insert_ne. exact (Ha r h eq_refl Hh).
    + intros a Ha. cbn. rewrite lookup_insert. case_decide; [eauto | exact Ha].
    + intros r'. cbn. destruct (decide (Some r = Some r')) as [[= ->]|Hne].
      * apply lookup_insert_eq.
      * apply lookup_insert_ne. congruence.
  - exists w. split; [reflexivity|]. split; [reflexivity|]. split; [auto|].
    split; [|repeat split].
    intros r. destruct (decide (None = Some r)); [discriminate | reflexivity].
Qed.

(** The loop of [PrePush]: besides the context [c] and the records of the
    tail, with their sub-contexts, nothing changes. *)
Lemma PrePush_loop_frame c tail :
  forall pre w x fuel,
    live_ctx w c x -> m_HistoryStack x = pre ++ tail ->
    vec_size pre = Int.to_size_t (m_PresentHistoryIdx x) ->
    deletable w c tail -> (length tail <= fuel)%nat ->
    exists w',
      PrePush_loop fuel c w = Returns tt w' /\
      live_ctx w' c (with_stack pre x) /\
      (forall a, a <> c ->
                 (forall r h, Some r ∈ tail -> live_rec w r h -> m_SubContext h <> a) ->
                 contexts w' !! a = contexts w !! a) /\
      (forall a, is_Some (contexts w !! a) -> is_Some (contexts w' !! a)) /\
      (forall r, Some r ∉ tail -> records w' !! r = records w !! r) /\
      (forall r, Some r ∈ tail -> records w' !! r = Some Freed) /\
      s_Lock w' = s_Lock w /\ events w' = events w /\ s_Context w' = s_Context w /\
      s_id w' = s_id w /\ host w' = host w.
Proof.
  induction tail as [|p tail IH] using rev_ind; intros pre w x fuel Hx Hst Hsz Hdel Hfuel.
  - rewrite app_nil_r in Hst. exists w.
    split; [|split; [|split; [|split; [|split; [|split; [|repeat split]]]]]].
    + rewrite PrePush_loop_eq. unfold bind. rewrite (load_ctx_live _ _ _ Hx).
      rewrite Hst, Hsz, Z.eqb_refl. reflexivity.
    + destruct x; cbn in *. subst. exact Hx.
    + reflexivity.
    + auto.
    + reflexivity.
    + intros r Hin. inversion Hin.
  - destruct (deletable_snoc _ _ _ _ Hdel) as (Hdel' & Hfresh & Hlivep).
    rewrite length_app in Hfuel. cbn in Hfuel.
    destruct fuel as [|fuel]; [lia|].
    destruct (delete_History_frame w p) as (w1 & Hd & Hc1 & Hdom1 & Hr1 & Hl1 & He1 & Hs1 & Hi1 & Hh1).
    { intros r Hr. destruct (Hlivep r Hr) as (h & Hh & _). eauto. }
    assert (Hx1 : live_ctx w1 c x).
    { unfold live_ctx. rewrite Hc1; [exact Hx|].
      intros r h -> Hh. destruct (Hlivep r eq_refl) as (h' & Hh' & Hne).
      unfold live_rec in *. congruence. }
    set (x2 := with_stack (pre ++ tail) x).
    set (w2 := set_contexts (<[c := Live x2]> (contexts w1)) w1).
    assert (Hlive2 : forall r h, Some r ∈ tail -> live_rec w2 r h -> live_rec w r h).
    { intros r h Hr Hh. unfold live_rec, w2 in *. cbn in Hh. rewrite Hr1 in Hh.
      destruct (decide (p = Some r)); [discriminate | exact Hh]. }
    destruct (IH pre w2 x2 fuel)
      as (w' & Hrun & Hx' & Hctx & Hdom & Hrec & Hfreed & Hl' & He' & Hs' & Hi' & Hh').
    + unfold live_ctx, w2. cbn. apply lookup_insert_eq.
    + reflexivity.
    + exact Hsz.
    + destruct Hdel' as [Hnd Hlive]. split; [exact Hnd|].
      intros r Hr. destruct (Hlive r Hr) as (h & Hh & Hs). exists h. split; [|exact Hs].
      unfold live_rec, w2. cbn. rewrite Hr1.
      destruct (decide (p = Some r)) as [->|_]; [|exact Hh].
      exfalso. exact (Hfresh r eq_refl Hr).
    + lia.
    + exists w'. split; [|split; [|split; [|split; [|split; [|split; [|repeat split]]]]]].
      * rewrite PrePush_loop_eq. unfold bind at 1. rewrite (load_ctx_live _ _ _ Hx).
        rewrite Hst.
        assert (Hne : (vec_size (pre ++ tail ++ [p])
                       =? Int.to_size_t (m_PresentHistoryIdx x)) = false).
        { apply Z.eqb_neq. rewrite <- Hsz. unfold vec_size.
          rewrite !length_app. cbn. lia. }
        rewrite Hne. rewrite app_assoc, last_snoc. unfold bind, lift, ret.
        rewrite Hd. unfold update_ctx, bind. rewrite (load_ctx_live _ _ _ Hx1).
        unfold store_ctx, modify. rewrite Hst, app_assoc, removelast_last.
        exact Hrun.
      * exact Hx'.
      * intros a Hne Ha. rewrite Hctx.
        -- unfold w2. cbn. rewrite lookup_insert_ne by congruence. apply Hc1.
           intros r h -> Hh. apply (Ha r h); [|exact Hh].
           apply elem_of_app. right. apply list_elem_of_singleton. reflexivity.
        -- exact Hne.
        -- intros r h Hr Hh. apply (Ha r h); [|exact (Hlive2 r h Hr Hh)].
           apply elem_of_app. left. exact Hr.
      * intros a Ha. apply Hdom. unfold w2. cbn. rewrite lookup_insert.
        case_decide; [eauto | apply Hdom1; exact Ha].
      * intros r Hr. rewrite Hrec.
        -- unfold w2. cbn. rewrite Hr1.
           destruct (decide (p = Some r)) as [->|_]; [|reflexivity].
           exfalso. apply Hr. apply elem_of_app. right.
           apply list_elem_of_singleton. reflexivity.
        -- intros Hin. apply Hr. apply elem_of_app. left. exact Hin.
      * intros r Hr. apply elem_of_app in Hr as [Hr|Hr]; [apply Hfreed; exact Hr|].
        apply list_elem_of_singleton in Hr.
        destruct (decide (Some r ∈ tail)) as [Hin|Hnin]; [apply Hfreed; exact Hin|].
        rewrite Hrec by exact Hnin. unfold w2. cbn. rewrite Hr1.
        destruct (decide (p = Some r)); [reflexivity | congruence].
      * rewrite Hl'. exact Hl1.
      * rewrite He'. exact He1.
      * rewrite Hs'. exact Hs1.
      * rewrite Hi'. exact Hi1.
      * rewrite Hh'. exact Hh1.
Qed.

Lemma IsUndoingOrRedoing_false w c l :
  s_Lock w = false -> ancestors w c l -> ~ undoing_in w l -> ~ redoing_in w l ->
  IsUndoingOrRedoing c w = Returns false w.
Proof.
  intros Hl Hc Hnu Hnr.
  destruct (IsUndoingOrRedoing_chain _ _ _ Hl Hc) as ([|] & Hb & Hiff); [|exact Hb].
  exfalso. destruct (proj1 Hiff eq_refl); auto.
Qed.

(** A push that goes through, in full: what it changes and what it leaves
    alone. *)
Lemma Push_full w c x l name d ud args :
  accepts_push w c x l ->
  exists w' r sub,
    Push c name d ud args w = Returns tt w' /\
    live_ctx w' c (pushed r x) /\
    live_rec w' r (mkHistory ∅ name (Int.uincr (s_id w)) sub args d ud) /\
    live_ctx w' sub (HistoryContext_ctor (Some c)) /\
    contexts w !! sub = None /\ records w !! r = None /\
    (forall a, a <> c -> a <> sub ->
       (forall r0 h0,
           Some r0 ∈ drop (Z.to_nat (m_PresentHistoryIdx x + 1)) (m_HistoryStack x) ->
           live_rec w r0 h0 -> m_SubContext h0 <> a) ->
       contexts w' !! a = contexts w !! a) /\
    (forall r0,
        r0 <> r ->
        Some r0 ∉ drop (Z.to_nat (m_PresentHistoryIdx x + 1)) (m_HistoryStack x) ->
        records w' !! r0 = records w !! r0) /\
    (forall r0,
        Some r0 ∈ drop (Z.to_nat (m_PresentHistoryIdx x + 1)) (m_HistoryStack x) ->
        records w' !! r0 = Some Freed) /\
    s_Lock w' = false /\ events w' = events w /\ s_Context w' = s_Context w /\
    s_id w' = Int.uincr (s_id w) /\ host w' = host w.
Proof.
  intros (Hl & Hx & Hanc & Hnu & Hnr & [Hp0 Hp1] & Hsz & Hdel & Htail).
  pose proof (IsUndoingOrRedoing_false _ _ _ Hl Hanc Hnu Hnr) as Hur.
  unfold int_sized, vec_size in *.
  set (n := Z.to_nat (m_PresentHistoryIdx x + 1)) in *.
  set (x0 := with_present (m_PresentHistoryIdx x + 1) x).
  set (w0 := set_contexts (<[c := Live x0]> (contexts w)) w).
  destruct (PrePush_loop_frame c (drop n (m_HistoryStack x))
              (take n (m_HistoryStack x)) w0 x0 (S (length (m_HistoryStack x))))
    as (w1 & Hrun & Hx1 & Hctx & Hdom & Hrec & Hfreed & Hl1 & He1 & Hs1 & Hi1 & Hh1).
  { unfold live_ctx, w0. cbn. apply lookup_insert_eq. }
  { cbn. symmetry. apply take_drop. }
  { cbn [x0 m_PresentHistoryIdx with_present]. rewrite to_size_t_small by lia.
    unfold vec_size. rewrite length_take. lia. }
  { exact Hdel. }
  { rewrite length_drop. lia. }
  set (r := fresh (dom (records w1))).
  set (sub := fresh (dom (contexts w1))).
  assert (Hsub1 : contexts w1 !! sub = None).
  { apply not_elem_of_dom. apply is_fresh. }
  assert (Hr1 : records w1 !! r = None).
  { apply not_elem_of_dom. apply is_fresh. }
  assert (Hsub : sub <> c).
  { intros E. unfold live_ctx in Hx1. rewrite E, Hx1 in Hsub1. discriminate. }
  assert (Hsub0 : contexts w !! sub = None).
  { destruct (contexts w !! sub) as [cell|] eqn:E; [|reflexivity].
    destruct (Hdom sub) as [cell' Hcell'].
    - unfold w0. cbn. rewrite lookup_insert_ne by congruence. rewrite E. eauto.
    - rewrite Hcell' in Hsub1. discriminate. }
  assert (Hr0 : records w !! r = None).
  { destruct (decide (Some r ∈ drop n (m_HistoryStack x))) as [Hin|Hnin].
    - rewrite (Hfreed r Hin) in Hr1. discriminate.
    - rewrite (Hrec r Hnin) in Hr1. exact Hr1. }
  exists (set_contexts
            (<[c := Live (pushed r x)]>
               (<[sub := Live (HistoryContext_ctor (Some c))]> (contexts w1)))
            (set_records
               (<[r := Live (mkHistory ∅ name (Int.uincr (s_id w)) sub args d ud)]>
                  (records w1))
               (set_id (Int.uincr (s_id w)) w1))), r, sub.
  split; [|split; [|split; [|split; [|split; [|split; [|split; [|split; [|repeat split]]]]]]]].
  - unfold Push. unfold bind at 1, gets. rewrite Hl. unfold bind at 1. rewrite Hur.
    unfold bind at 1.
    assert (Hpre : PrePush c w = Returns tt w1).
    { unfold PrePush. run. rewrite Hl, Hx. rewrite incr_in_range by lia.
      exact Hrun. }
    rewrite Hpre. unfold new_HistoryWithParams, NewID. run. fold r sub.
    rewrite lookup_insert_ne by exact Hsub. rewrite Hx1, Hi1. reflexivity.
  - unfold live_ctx. cbn. apply lookup_insert_eq.
  - unfold live_rec. cbn. apply lookup_insert_eq.
  - unfold live_ctx. cbn. rewrite lookup_insert_ne by congruence. apply lookup_insert_eq.
  - exact Hsub0.
  - exact Hr0.
  - intros a Hne Hnesub Ha. cbn. rewrite lookup_insert_ne by congruence.
    rewrite lookup_insert_ne by congruence.
    rewrite Hctx.
    + unfold w0. cbn. apply lookup_insert_ne. congruence.
    + exact Hne.
    + intros r0 h0 Hin Hh0. apply (Ha r0 h0 Hin). exact Hh0.
  - intros r0 Hne Hnin. cbn. rewrite lookup_insert_ne by congruence.
    apply Hrec. exact Hnin.
  - intros r0 Hin. cbn. rewrite lookup_insert_ne; [apply Hfreed; exact Hin|].
    intros E. pose proof (Hfreed r0 Hin) as Hf. rewrite <- E in Hf.
    rewrite Hf in Hr1. discriminate.
  - cbn. rewrite Hl1. exact Hl.
  - cbn. rewrite He1. reflexivity.
  - cbn. rewrite Hs1. reflexivity.
  - cbn. rewrite Hh1. reflexivity.
Qed.

(** The same, for the parent chain of the context. *)
Lemma Push_spec w c x l name d ud args :
  accepts_push w c x l ->
  exists w' r sub,
    Push c name d ud args w = Returns tt w' /\
    live_ctx w' c (pushed r x) /\
    live_rec w' r (mkHistory ∅ name (Int.uincr (s_id w)) sub args d ud) /\
    live_ctx w' sub (HistoryContext_ctor (Some c)) /\
    contexts w !! sub = None /\ records w !! r = None /\
    (forall a, a ∈ l -> a <> c -> contexts w' !! a = contexts w !! a) /\
    (forall r0,
        Some r0 ∈ drop (Z.to_nat (m_PresentHistoryIdx x + 1)) (m_HistoryStack x) ->
        records w' !! r0 = Some Freed) /\
    s_Lock w' = false /\ events w' = events w /\ s_Context w' = s_Context w /\
    s_id w' = Int.uincr (s_id w) /\ host w' = host w.
Proof.
  intros Hok.
  destruct (Push_full w c x l name d ud args Hok)
    as (w' & r & sub & HP & Hx' & Hr' & Hsub' & Hsub0 & Hr0 & Hctx & _ & Hfreed & Hrest).
  destruct Hok as (_ & _ & Hanc & _ & _ & _ & _ & _ & Htail).
  exists w', r, sub. repeat (split; [assumption|]). split; [|split; [exact Hfreed | exact Hrest]].
  intros a Ha Hne. apply Hctx; [exact Hne | |].
  - intros E. pose proof (ancestors_live _ _ _ Hanc a Ha) as Hdom.
    apply elem_of_dom in Hdom as [cell Hcell]. rewrite E, Hsub0 in Hcell. discriminate.
  - intros r0 h0 Hin Hh0 E. apply (Htail r0 h0 Hin Hh0). rewrite E. exact Ha.
Qed.

Lemma ancestors_member_live w c l :
  ancestors w c l -> forall a, a ∈ l -> exists y, live_ctx w a y.
Proof.
  induction 1 as [c x Hx Hp | c x p l Hx Hp Hl IH]; intros a Ha.
  - apply list_elem_of_singleton in Ha as ->. eauto.
  - apply elem_of_cons in Ha as [->|Ha]; eauto.
Qed.

(** A chain whose contexts keep their parent pointers and flags from one
    store to another is a chain of the other store, with no more flags
    set. *)
Lemma chain_transfer w w' c l :
  ancestors w c l ->
  (forall a y, a ∈ l -> live_ctx w a y ->
     exists y', live_ctx w' a y' /\ m_ParentContext y' = m_ParentContext y /\
                m_IsUndoing y' = m_IsUndoing y /\ m_IsRedoing y' = m_IsRedoing y) ->
  ancestors w' c l /\
  (undoing_in w' l -> undoing_in w l) /\ (redoing_in w' l -> redoing_in w l).
Proof.
  intros Hanc Hsame. split; [|split].
  - revert Hsame. induction Hanc as [c x Hx Hp | c x p l Hx Hp Hl IH]; intros Hsame.
    + destruct (Hsame c x) as (y' & Hy' & Hpar & _);
        [apply list_elem_of_singleton; reflexivity | exact Hx |].
      apply (ancestors_root w' c y' Hy'). rewrite Hpar. exact Hp.
    + destruct (Hsame c x) as (y' & Hy' & Hpar & _);
        [apply elem_of_cons; auto | exact Hx |].
      apply (ancestors_step w' c y' p l Hy'); [rewrite Hpar; exact Hp|].
      apply IH. intros a y Ha Hy. apply Hsame; [apply elem_of_cons; auto | exact Hy].
  - intros (a & y' & Ha & Hy' & Hf).
    destruct (ancestors_member_live _ _ _ Hanc a Ha) as (y & Hy).
    destruct (Hsame a y Ha Hy) as (y'' & Hy'' & _ & Hu & _).
    pose proof (live_ctx_functional _ _ _ _ Hy' Hy''). subst y''.
    exists a, y. split; [exact Ha|]. split; [exact Hy | congruence].
  - intros (a & y' & Ha & Hy' & Hf).
    destruct (ancestors_member_live _ _ _ Hanc a Ha) as (y & Hy).
    destruct (Hsame a y Ha Hy) as (y'' & Hy'' & _ & _ & Hr).
    pose proof (live_ctx_functional _ _ _ _ Hy' Hy''). subst y''.
    exists a, y. split; [exact Ha|]. split; [exact Hy | congruence].
Qed.

(** After a push that went through, the chain of the context is as
    before and still free of replay flags. *)
Lemma Push_keeps_chain w w' c x l r :
  ancestors w c l -> live_ctx w c x -> live_ctx w' c (pushed r x) ->
  (forall a, a ∈ l -> a <> c -> contexts w' !! a = contexts w !! a) ->
  ancestors w' c l /\
  (undoing_in w' l -> undoing_in w l) /\ (redoing_in w' l -> redoing_in w l).
Proof.
  intros Hanc Hx Hx' Hothers. apply (chain_transfer w w' c l Hanc).
  intros a y Ha Hy. destruct (decide (a = c)) as [->|Hne].
  - pose proof (live_ctx_functional _ _ _ _ Hx Hy). subst y.
    exists (pushed r x). split; [exact Hx'|]. repeat split.
  - exists y. split; [|repeat split]. unfold live_ctx. rewrite Hothers by assumption.
    exact Hy.
Qed.

(** A push that goes through allocates one record and one sub-context at
    addresses that were not in use, draws one id, appends the record to
    the stack of its context with the cursor on it, and deletes the
    records of the redo tail.  Nothing else changes: every other context
    that is not the sub-context of a deleted record, every other record,
    the active context, the global lock, the calls of observers and the
    host's data are as before. *)
Theorem Push_changes_only_what_it_must w c x l name d ud args :
  accepts_push w c x l ->
  exists w' r sub,
    Push c name d ud args w = Returns tt w' /\
    contexts w !! sub = None /\ records w !! r = None /\
    live_ctx w' c (pushed r x) /\
    live_rec w' r (mkHistory ∅ name (Int.uincr (s_id w)) sub args d ud) /\
    live_ctx w' sub (HistoryContext_ctor (Some c)) /\
    s_id w' = Int.uincr (s_id w) /\
    (forall r0,
        Some r0 ∈ drop (Z.to_nat (m_PresentHistoryIdx x + 1)) (m_HistoryStack x) ->
        records w' !! r0 = Some Freed) /\
    (forall a, a <> c -> a <> sub ->
       (forall r0 h0,
           Some r0 ∈ drop (Z.to_nat (m_PresentHistoryIdx x + 1)) (m_HistoryStack x) ->
           live_rec w r0 h0 -> m_SubContext h0 <> a) ->
       contexts w' !! a = contexts w !! a) /\
    (forall r0,
        r0 <> r ->
        Some r0 ∉ drop (Z.to_nat (m_PresentHistoryIdx x + 1)) (m_HistoryStack x) ->
        records w' !! r0 = records w !! r0) /\
    s_Context w' = s_Context w /\ s_Lock w' = s_Lock w /\
    events w' = events w /\ host w' = host w.
Proof.
  intros Hok.
  destruct (Push_full w c x l name d ud args Hok)
    as (w' & r & sub & HP & Hx' & Hr' & Hsub' & Hsub0 & Hr0 & Hctx & Hrec & Hfreed & Hl'
        & He' & Hs' & Hi' & Hh').
  destruct Hok as (Hl & _).
  exists w', r, sub. repeat (split; [assumption|]).
  split; [congruence|]. split; assumption.
Qed.

End PushFrame.

(** ** A push and what follows it *)

Section AfterPush.

Context {Host : Type}.
Implicit Types (w : World Host) (x : HistoryContext) (h : History).

Variable call : FnId -> list Value -> M Host bool.

Lemma match_snoc {A B} (l : list A) (a : A) (u v : B) :
  match l ++ [a] with [] => u | _ :: _ => v end = v.
Proof. destruct l; reflexivity. Qed.

Lemma pushed_slot r x :
  cursor_in_range x ->
  m_HistoryStack (pushed r x) !! Z.to_nat (m_PresentHistoryIdx (pushed r x))
  = Some (Some r).
Proof.
  intros [Hp0 Hp1]. unfold vec_size in Hp1. cbn.
  apply list_lookup_middle. rewrite length_take. lia.
Qed.

Lemma pushed_at_top r x :
  cursor_in_range x ->
  m_PresentHistoryIdx (pushed r x) = vec_size (m_HistoryStack (pushed r x)) - 1.
Proof.
  intros [Hp0 Hp1]. unfold vec_size in *. cbn.
  rewrite length_app, length_take. cbn. lia.
Qed.

Lemma Push_then_idle w w1 c x l r :
  accepts_push w c x l -> live_ctx w1 c (pushed r x) -> s_Lock w1 = false ->
  (forall a, a ∈ l -> a <> c -> contexts w1 !! a = contexts w !! a) ->
  ancestors w1 c l /\ ~ undoing_in w1 l /\ ~ redoing_in w1 l /\
  IsUndoingOrRedoing c w1 = Returns false w1.
Proof.
  intros (Hl & Hx & Hanc & Hnu & Hnr & _) Hx1 Hl1 Hothers.
  destruct (Push_keeps_chain w w1 c x l r Hanc Hx Hx1 Hothers) as (Hanc1 & Hu1 & Hr1).
  assert (Hnu1 : ~ undoing_in w1 l) by auto.
  assert (Hnr1 : ~ redoing_in w1 l) by auto.
  repeat (split; [assumption|]). eapply IsUndoingOrRedoing_false; eassumption.
Qed.

Lemma AbortPush_pushed w1 c x r :
  s_Lock w1 = false -> live_ctx w1 c (pushed r x) ->
  IsUndoingOrRedoing c w1 = Returns false w1 -> cursor_in_range x ->
  AbortPush c w1 =
  Returns tt
    (set_contexts
       (<[c := Live (with_stack
                       (take (Z.to_nat (m_PresentHistoryIdx x + 1)) (m_HistoryStack x)) x)]>
          (contexts w1)) w1).
Proof.
  intros Hl1 Hx1 Hidle [Hp0 Hp1].
  set (n := Z.to_nat (m_PresentHistoryIdx x + 1)) in *.
  assert (Hfinal : with_stack (removelast (take n (m_HistoryStack x) ++ [Some r]))
                     (with_present (m_PresentHistoryIdx x + 1 - 1) (pushed r x))
                   = with_stack (take n (m_HistoryStack x)) x).
  { rewrite removelast_last. replace (m_PresentHistoryIdx x + 1 - 1)
      with (m_PresentHistoryIdx x) by lia. destruct x; reflexivity. }
  unfold AbortPush. unfold bind at 1, gets. rewrite Hl1. unfold bind at 1. rewrite Hidle.
  unfold bind at 1. rewrite (load_ctx_live _ _ _ Hx1).
  cbn [m_PresentHistoryIdx pushed with_stack with_present].
  rewrite decr_in_range by (unfold Int.INT_MIN; lia).
  unfold bind at 1, lift, ret. unfold bind at 1, store_ctx, modify.
  cbn [m_HistoryStack pushed with_stack with_present]. fold n.
  rewrite match_snoc.
  unfold update_ctx, bind, load_ctx, store_ctx, modify.
  cbn [contexts set_contexts]. rewrite lookup_insert_eq.
  cbn [m_HistoryStack with_present pushed with_stack]. fold n.
  flat_world. rewrite insert_insert_eq. rewrite Hfinal. reflexivity.
Qed.

(** [AbortPush()] after a push that went through takes the new record off
    the stack again and the cursor back: the context is as before the
    push, except that a redo tail which the push deleted stays deleted.
    The record itself is not deleted - it stays allocated with nothing
    pointing to it - and the observer is not called. *)
Theorem AbortPush_after_Push_restores_the_context w c x l name d ud args :
  accepts_push w c x l ->
  exists w1 w2 r h,
    Push c name d ud args w = Returns tt w1 /\
    live_ctx w1 c (pushed r x) /\ live_rec w1 r h /\
    AbortPush c w1 = Returns tt w2 /\
    live_ctx w2 c
      (with_stack (take (Z.to_nat (m_PresentHistoryIdx x + 1)) (m_HistoryStack x)) x) /\
    (m_PresentHistoryIdx x = vec_size (m_HistoryStack x) - 1 -> live_ctx w2 c x) /\
    live_rec w2 r h /\ events w2 = events w.
Proof.
  intros Hok.
  destruct (Push_spec w c x l name d ud args Hok)
    as (w1 & r & sub & HP & Hx1 & Hr1 & Hsub1 & _ & _ & Hothers & _ & Hl1 & He1 & _).
  destruct (Push_then_idle w w1 c x l r Hok Hx1 Hl1 Hothers) as (_ & _ & _ & Hidle).
  destruct Hok as (Hl & Hx & _ & _ & _ & Hrange & Hsz & _).
  eexists w1, _, r, _. split; [exact HP|]. split; [exact Hx1|]. split; [exact Hr1|].
  split; [apply (AbortPush_pushed w1 c x r); assumption|].
  split; [|split; [|split]].
  - unfold live_ctx. cbn. apply lookup_insert_eq.
  - intros Htop. unfold live_ctx. cbn. rewrite lookup_insert_eq.
    destruct Hrange as [Hp0 Hp1].
    rewrite firstn_all2 by (unfold vec_size in *; lia).
    destruct x; reflexivity.
  - exact Hr1.
  - cbn. exact He1.
Qed.

(** After a push that went through, the new record is the present one
    and there is nothing to redo; the next [Undo()] invokes the undo
    function registered by that push on the arguments captured by it and
    hands back its result. *)
Theorem Undo_after_Push_runs_the_registered_undo w c x l name d ud args :
  accepts_push w c x l -> m_Mutex x = false ->
  exists w1 r,
    Push c name d ud args w = Returns tt w1 /\
    live_ctx w1 c (pushed r x) /\
    Present c w1 = Returns (Some r) w1 /\
    Redo call c w1 = Returns false w1 /\
    forall result w2 x2,
      call ud args (entering_undo c (pushed r x) w1) = Returns result w2 ->
      live_ctx w2 c x2 -> Int.INT_MIN < m_PresentHistoryIdx x2 ->
      Undo call c w1 = Returns result (leaving_undo c x2 w2).
Proof.
  intros Hok Hm.
  destruct (Push_spec w c x l name d ud args Hok)
    as (w1 & r & sub & HP & Hx1 & Hr1 & _ & _ & _ & _ & _ & Hl1 & _).
  destruct Hok as (Hl & Hx & _ & _ & _ & Hrange & Hsz & _).
  pose proof (pushed_slot r x Hrange) as Hslot.
  pose proof (pushed_at_top r x Hrange) as Htop.
  assert (Hpos : 1 <= m_PresentHistoryIdx (pushed r x) <= Int.INT_MAX).
  { destruct Hrange as [Hp0 Hp1]. unfold int_sized in Hsz. cbn. lia. }
  exists w1, r. split; [exact HP|]. split; [exact Hx1|]. split; [|split].
  - eapply Present_unlocked; try eassumption. lia.
  - eapply Redo_at_top; try eassumption.
  - intros result w2 x2 Hcall Hx2 Hmin.
    eapply (Undo_runs_body call w1 c (pushed r x) r); try eassumption.
Qed.

Lemma ancestors_same_contexts w w' c l :
  contexts w' = contexts w -> ancestors w c l -> ancestors w' c l.
Proof.
  intros E. induction 1 as [c x Hx Hp | c x p l Hx Hp Hl IH].
  - eapply ancestors_root; [|exact Hp]. unfold live_ctx. rewrite E. exact Hx.
  - eapply ancestors_step; [|exact Hp | exact IH]. unfold live_ctx. rewrite E. exact Hx.
Qed.

Lemma undoing_in_same_contexts w w' l :
  contexts w' = contexts w -> undoing_in w' l -> undoing_in w l.
Proof.
  intros E (a & y & Ha & Hy & Hf). exists a, y. unfold live_ctx in *. rewrite <- E. auto.
Qed.

Lemma redoing_in_same_contexts w w' l :
  contexts w' = contexts w -> redoing_in w' l -> redoing_in w l.
Proof.
  intros E (a & y & Ha & Hy & Hf). exists a, y. unfold live_ctx in *. rewrite <- E. auto.
Qed.

(** Inside the scope opened by [HISTORY_PUSH]. *)
Lemma HISTORY_PUSH_enters w c x l func args :
  s_Context w = Some c -> accepts_push w c x l ->
  exists w1 r sub,
    Showcase.HISTORY_PUSH func args w = Returns (mkPushController true) w1 /\
    s_Context w1 = Some sub /\ s_Lock w1 = false /\
    live_ctx w1 c (pushed r x) /\
    live_rec w1 r (mkHistory ∅ func (Int.uincr (s_id w)) sub args func (func +:+ "_Undo")) /\
    live_ctx w1 sub (HistoryContext_ctor (Some c)) /\
    ancestors w1 sub (sub :: l) /\ ancestors w1 c l /\
    ~ undoing_in w1 (sub :: l) /\ ~ redoing_in w1 l /\
    events w1 = events w /\ host w1 = host w.
Proof.
  intros Hs Hok.
  destruct (Push_spec w c x l func func (func +:+ "_Undo") args Hok)
    as (w1 & r & sub & HP & Hx1 & Hr1 & Hsub1 & Hsub0 & _ & Hothers & _ & Hl1 & He1 & Hs1
        & _ & Hh1).
  destruct (Push_then_idle w w1 c x l r Hok Hx1 Hl1 Hothers) as (Hanc1 & Hnu1 & Hnr1 & Hidle).
  destruct Hok as (Hl & Hx & Hanc & _ & _ & Hrange & Hsz & _).
  pose proof (pushed_slot r x Hrange) as Hslot.
  assert (Hpos : 0 <= m_PresentHistoryIdx (pushed r x) <= Int.INT_MAX).
  { destruct Hrange as [Hp0 Hp1]. unfold int_sized in Hsz. cbn. lia. }
  set (w2 := set_Context (Some sub) w1).
  assert (Hanc2 : ancestors w2 c l) by (apply ancestors_set_Context; exact Hanc1).
  assert (Hsub2 : ancestors w2 sub (sub :: l)).
  { eapply ancestors_step; [exact Hsub1 | reflexivity | exact Hanc2]. }
  assert (Hnu2 : ~ undoing_in w2 (sub :: l)).
  { intros (a & y & Ha & Hy & Hf). apply elem_of_cons in Ha as [->|Ha].
    - pose proof (live_ctx_functional _ _ _ _ Hsub1 Hy). subst y. discriminate.
    - apply Hnu1. exists a, y. auto. }
  assert (Hnr2 : ~ redoing_in w2 l).
  { intros (a & y & Ha & Hy & Hf). apply Hnr1. exists a, y. auto. }
  exists w2, r, sub. split.
  { unfold Showcase.HISTORY_PUSH, GetContext_deref, GetContext.
    unfold bind at 1. unfold bind at 1. unfold gets at 1. rewrite Hs.
    unfold lift at 1, ret at 1. unfold bind at 1. rewrite HP.
    unfold HistoryPushController_ctor, GetContext_deref, GetContext, SubContext_of, SetContext.
    unfold bind, gets, lift. rewrite Hl1, Hs1, Hs. unfold ret.
    rewrite (IsUndoing_false _ _ _ Hl1 Hanc1 Hnu1).
    rewrite (Present_unlocked w1 c (pushed r x) (Some r)) by assumption.
    rewrite (load_rec_live _ _ _ Hr1). reflexivity. }
  split; [reflexivity|]. split; [exact Hl1|]. split; [exact Hx1|]. split; [exact Hr1|].
  split; [exact Hsub1|]. split; [exact Hsub2|]. split; [exact Hanc2|].
  split; [exact Hnu2|]. split; [exact Hnr2|]. split; [exact He1 | exact Hh1].
Qed.

Lemma HISTORY_PUSH_scope w c x l func args :
  s_Context w = Some c -> accepts_push w c x l ->
  exists w1 w' r sub,
    Showcase.HISTORY_PUSH func args w = Returns (mkPushController true) w1 /\
    s_Context w1 = Some sub /\
    live_ctx w1 c (pushed r x) /\
    live_rec w1 r (mkHistory ∅ func (Int.uincr (s_id w)) sub args func (func +:+ "_Undo")) /\
    live_ctx w1 sub (HistoryContext_ctor (Some c)) /\
    HistoryPushController_dtor (mkPushController true) w1
    = Returns (mkPushController false) w' /\
    s_Context w' = Some c /\ contexts w' = contexts w1 /\ records w' = records w1 /\
    events w' = events w ++
      [StackChanged c (m_OnStackChanged x) (m_PresentHistoryIdx x + 1)] /\
    s_Lock w' = false /\ IsUndoingOrRedoing c w' = Returns false w'.
Proof.
  intros Hs Hok.
  destruct (HISTORY_PUSH_enters w c x l func args Hs Hok)
    as (w1 & r & sub & HH & Hs1 & Hl1 & Hx1 & Hr1 & Hsub1 & Hanc_sub & Hanc & Hnu & Hnr
        & He1 & _).
  pose proof (PushController_release_fires w1 sub c (pushed r x) l
                Hl1 Hs1 Hanc_sub Hanc Hx1 Hnu Hnr) as Hrel.
  eexists w1, _, r, sub. split; [exact HH|]. split; [exact Hs1|]. split; [exact Hx1|].
  split; [exact Hr1|]. split; [exact Hsub1|]. split; [exact Hrel|].
  split; [reflexivity|]. split; [reflexivity|]. split; [reflexivity|].
  split; [cbn; rewrite He1; reflexivity|]. split; [exact Hl1|].
  apply (IsUndoingOrRedoing_false _ c l); [exact Hl1 | | |].
  - eapply ancestors_same_contexts; [|exact Hanc]. reflexivity.
  - intros H. apply Hnu. apply (undoing_in_same_contexts w1) in H; [|reflexivity].
    destruct H as (a & y & Ha & Hy & Hf). exists a, y.
    split; [apply elem_of_cons; auto | auto].
  - intros H. apply Hnr. apply (redoing_in_same_contexts w1) in H; [|reflexivity]. exact H.
Qed.

(** [HISTORY_PUSH] on the active context, when the push goes through:
    inside the scope the active context is the sub-context of the new
    record, so that pushes of nested calls land there; the release of the
    scope makes the pushing context the active one again and calls its
    observer once, with the cursor on the new record. *)
Theorem HISTORY_PUSH_scope_descends_and_returns w c x l func args :
  s_Context w = Some c -> accepts_push w c x l ->
  exists w1 w' r sub,
    Showcase.HISTORY_PUSH func args w = Returns (mkPushController true) w1 /\
    s_Context w1 = Some sub /\
    live_ctx w1 c (pushed r x) /\
    live_rec w1 r (mkHistory ∅ func (Int.uincr (s_id w)) sub args func (func +:+ "_Undo")) /\
    live_ctx w1 sub (HistoryContext_ctor (Some c)) /\
    HistoryPushController_dtor (mkPushController true) w1
    = Returns (mkPushController false) w' /\
    s_Context w' = Some c /\ contexts w' = contexts w1 /\ records w' = records w1 /\
    events w' = events w ++
      [StackChanged c (m_OnStackChanged x) (m_PresentHistoryIdx x + 1)].
Proof.
  intros Hs Hok.
  destruct (HISTORY_PUSH_scope w c x l func args Hs Hok)
    as (w1 & w' & r & sub & H1 & H2 & H3 & H4 & H5 & H6 & H7 & H8 & H9 & H10 & _).
  exists w1, w', r, sub. auto 12.
Qed.

(** [HISTORY_PUSH] followed by [HISTORY_ABORT_PUSH]: the record is off
    the stack again, the cursor is back and the pushing context is the
    active one - but the forced release inside the abort has called the
    observer, with the index of the record that the abort then removes. *)
Theorem HISTORY_ABORT_PUSH_takes_the_record_back w c x l func args :
  s_Context w = Some c -> accepts_push w c x l ->
  exists w1 w2,
    Showcase.HISTORY_PUSH func args w = Returns (mkPushController true) w1 /\
    Showcase.HISTORY_ABORT_PUSH (mkPushController true) w1 = Returns tt w2 /\
    s_Context w2 = Some c /\
    live_ctx w2 c
      (with_stack (take (Z.to_nat (m_PresentHistoryIdx x + 1)) (m_HistoryStack x)) x) /\
    events w2 = events w ++
      [StackChanged c (m_OnStackChanged x) (m_PresentHistoryIdx x + 1)].
Proof.
  intros Hs Hok.
  destruct (HISTORY_PUSH_scope w c x l func args Hs Hok)
    as (w1 & w' & r & sub & HH & _ & Hx1 & _ & _ & HD & Hs' & Hc' & _ & He' & Hl' & Hidle).
  destruct Hok as (_ & _ & _ & _ & _ & Hrange & _).
  assert (Hx' : live_ctx w' c (pushed r x)) by (unfold live_ctx; rewrite Hc'; exact Hx1).
  eexists w1, _. split; [exact HH|]. split.
  { unfold Showcase.HISTORY_ABORT_PUSH, GetContext_deref, GetContext.
    unfold bind at 1. rewrite HD. unfold bind at 1. unfold bind at 1. unfold gets at 1.
    rewrite Hs'. unfold lift at 1, ret at 1.
    rewrite (AbortPush_pushed w' c x r Hl' Hx' Hidle Hrange). reflexivity. }
  split; [exact Hs'|]. split; [unfold live_ctx; cbn; apply lookup_insert_eq|].
  exact He'.
Qed.

End AfterPush.

Lemma undone_accepts_push :
  accepts_push Example.undone 0%nat
    (mkContext [None; Some 0%nat] 0 false false None NoopObserver false) [0%nat].
Proof.
  split; [reflexivity|]. split; [reflexivity|].
  split; [eapply ancestors_root; reflexivity|].
  split; [|split; [|split; [|split; [|split]]]].
  - intros (a & y & Ha & Hy & Hf). apply list_elem_of_singleton in Ha as ->.
    unfold live_ctx in Hy. vm_compute in Hy. injection Hy as <-. discriminate.
  - intros (a & y & Ha & Hy & Hf). apply list_elem_of_singleton in Ha as ->.
    unfold live_ctx in Hy. vm_compute in Hy. injection Hy as <-. discriminate.
  - vm_compute. split; congruence.
  - vm_compute. congruence.
  - split; [apply NoDup_singleton|].
    intros r Hr. apply list_elem_of_singleton in Hr. injection Hr as ->.
    eexists. split; [reflexivity | cbn; discriminate].
  - intros r h Hr Hh. apply list_elem_of_singleton in Hr. injection Hr as ->.
    unfold live_rec in Hh. vm_compute in Hh. injection Hh as <-. cbn.
    intros Hin. apply list_elem_of_singleton in Hin. discriminate.
Qed.

Lemma Push_changes_only_what_it_must_witness :
  exists w' r sub,
    Push 0%nat "SetObject" "SetObject" "SetObject_Undo" [VString "bar"] Example.undone
    = Returns tt w' /\
    contexts Example.undone !! sub = None /\ records Example.undone !! r = None /\
    s_id w' = 2 /\ records w' !! 0%nat = Some Freed /\
    s_Context w' = Some 0%nat /\ events w' = [].
Proof.
  destruct (Push_changes_only_what_it_must Example.undone 0%nat _ _
              "SetObject" "SetObject" "SetObject_Undo" [VString "bar"]
              undone_accepts_push)
    as (w' & r & sub & HP & Hsub & Hr & _ & _ & _ & Hid & Hfreed & _ & _ & Hs & _ & He & _).
  exists w', r, sub. split; [exact HP|]. split; [exact Hsub|]. split; [exact Hr|].
  split; [exact Hid|]. split; [|split; [exact Hs | exact He]].
  apply Hfreed. apply list_elem_of_singleton. reflexivity.
Defined.

Lemma AbortPush_after_Push_restores_the_context_witness :
  exists w1 w2,
    Push 0%nat "SetObject" "SetObject" "SetObject_Undo" [VString "bar"] Example.undone
    = Returns tt w1 /\
    AbortPush 0%nat w1 = Returns tt w2 /\
    live_ctx w2 0%nat (mkContext [None] 0 false false None NoopObserver false) /\
    events w2 = [].
Proof.
  destruct (AbortPush_after_Push_restores_the_context Example.undone 0%nat _ _
              "SetObject" "SetObject" "SetObject_Undo" [VString "bar"]
              undone_accepts_push)
    as (w1 & w2 & r & h & HP & _ & _ & HA & Hx & _ & _ & He).
  exists w1, w2. split; [exact HP|]. split; [exact HA|]. split; [exact Hx | exact He].
Defined.

Lemma Undo_after_Push_runs_the_registered_undo_witness :
  exists w1 r w2,
    Push 0%nat "SetObject" "SetObject" "SetObject_Undo" [VString "bar"] Example.undone
    = Returns tt w1 /\
    Present 0%nat w1 = Returns (Some r) w1 /\
    Redo Example.idle 0%nat w1 = Returns false w1 /\
    Undo Example.idle 0%nat w1 = Returns true w2.
Proof.
  destruct (Undo_after_Push_runs_the_registered_undo Example.idle Example.undone 0%nat _ _
              "SetObject" "SetObject" "SetObject_Undo" [VString "bar"]
              undone_accepts_push eq_refl)
    as (w1 & r & HP & _ & Hpresent & HR & HU).
  exists w1, r. eexists. split; [exact HP|]. split; [exact Hpresent|]. split; [exact HR|].
  refine (HU true _ _ eq_refl _ _).
  - unfold live_ctx, entering_undo. cbn. apply lookup_insert_eq.
  - vm_compute. reflexivity.
Defined.

Lemma HISTORY_PUSH_scope_descends_and_returns_witness :
  exists w1 w',
    Showcase.HISTORY_PUSH "SetObject" [VString "bar"] Example.undone
    = Returns (mkPushController true) w1 /\
    HistoryPushController_dtor (mkPushController true) w1
    = Returns (mkPushController false) w' /\
    s_Context w' = Some 0%nat /\
    events w' = [StackChanged 0%nat NoopObserver 1].
Proof.
  destruct (HISTORY_PUSH_scope_descends_and_returns Example.undone 0%nat _ _
              "SetObject" [VString "bar"] eq_refl undone_accepts_push)
    as (w1 & w' & r & sub & HH & _ & _ & _ & _ & HD & Hs & _ & _ & He).
  exists w1, w'. split; [exact HH|]. split; [exact HD|]. split; [exact Hs | exact He].
Defined.

Lemma HISTORY_ABORT_PUSH_takes_the_record_back_witness :
  exists w1 w2,
    Showcase.HISTORY_PUSH "SetObject" [VString "bar"] Example.undone
    = Returns (mkPushController true) w1 /\
    Showcase.HISTORY_ABORT_PUSH (mkPushController true) w1 = Returns tt w2 /\
    live_ctx w2 0%nat (mkContext [None] 0 false false None NoopObserver false) /\
    events w2 = [StackChanged 0%nat NoopObserver 1].
Proof.
  destruct (HISTORY_ABORT_PUSH_takes_the_record_back Example.undone 0%nat _ _
              "SetObject" [VString "bar"] eq_refl undone_accepts_push)
    as (w1 & w2 & HH & HA & _ & Hx & He).
  exists w1, w2. split; [exact HH|]. split; [exact HA|]. split; [exact Hx | exact He].
Defined.

(** ** The dump *)

Section Dumping.

Context {Host : Type}.
Implicit Types (w : World Host) (x : HistoryContext) (h : History).

(** [Dump()] of a context without records - the sentinel alone, as the
    constructor or [Clear()] leaves the stack, or no slot at all, as
    [AbortPush()] on such a stack leaves it - is the empty string, at any
    indentation and whether or not the global lock is set; the store is
    left alone. *)
Theorem Dump_of_an_empty_history w c x indent :
  live_ctx w c x -> (length (m_HistoryStack x) <= 1)%nat ->
  Dump c indent w = Returns "" w.
Proof.
  intros Hc Hlen. unfold Dump. cbn [Dump_nested]. unfold bind at 1.
  rewrite (load_ctx_live _ _ _ Hc).
  rewrite to_int_small by (unfold vec_size, Int.INT_MAX; lia).
  rewrite decr_in_range by (unfold vec_size, Int.INT_MIN; lia).
  unfold bind, lift, ret.
  replace (Z.to_nat (vec_size (m_HistoryStack x) - 1)) with 0%nat
    by (unfold vec_size; lia).
  reflexivity.
Qed.

End Dumping.

Lemma Dump_of_an_empty_history_witness :
  Dump 1%nat 3 Example.in_undo_locked = Returns "" Example.in_undo_locked.
Proof.
  exact (Dump_of_an_empty_history Example.in_undo_locked 1%nat _ 3 eq_refl (le_n 1)).
Defined.

Section DumpingTrees.

Context {Host : Type}.
Implicit Types (w : World Host) (x : HistoryContext) (h : History).

Lemma live_rec_functional w r h1 h2 : live_rec w r h1 -> live_rec w r h2 -> h1 = h2.
Proof. unfold live_rec. congruence. Qed.

(** The store determines the tree. *)
Lemma shows_functional w :
  (forall c es1, shows w c es1 -> forall es2, shows w c es2 -> es1 = es2) /\
  (forall x es1, shows_rows w x es1 ->
     forall es2, shows_rows w x es2 -> count_entries es1 = count_entries es2 -> es1 = es2).
Proof.
  apply (shows_mutual _ w
           (fun c es1 _ => forall es2, shows w c es2 -> es1 = es2)
           (fun x es1 _ => forall es2, shows_rows w x es2 ->
                             count_entries es1 = count_entries es2 -> es1 = es2)).
  - intros c x es Hx Hsz Hlen Hrows IH es2 H2.
    inversion H2 as [c' x' es' Hx' Hsz' Hlen' Hrows']; subst.
    pose proof (live_ctx_functional _ _ _ _ Hx Hx'). subst x'.
    apply IH; [exact Hrows' | congruence].
  - intros x es2 H2 Hcount. inversion H2; subst; [reflexivity | discriminate].
  - intros x r h nested older Hslot Hh Hsub IHsub Hrows IHrows es2 H2 Hcount.
    inversion H2 as [| x' r' h' nested' older' Hslot' Hh' Hsub' Hrows']; subst;
      [discriminate|].
    cbn in Hcount. injection Hcount as Hcount.
    rewrite <- Hcount in Hslot'. rewrite Hslot in Hslot'. injection Hslot' as <-.
    pose proof (live_rec_functional _ _ _ _ Hh Hh'). subst h'.
    rewrite (IHsub nested' Hsub'), (IHrows older' Hrows' Hcount). reflexivity.
Qed.

(** Under a tree of height [S n] hangs a tree of height [n]. *)
Lemma shows_rows_deepest w x es :
  shows_rows w x es -> forall n, height_entries es = S n ->
  exists sub nested, shows w sub nested /\ height_entries nested = n.
Proof.
  induction 1 as [x | x r h nested older Hslot Hh Hsub Hrows IH]; intros n Hn;
    [discriminate|].
  cbn in Hn.
  destruct (Nat.max_spec (S (height_entries nested)) (height_entries older))
    as [[_ Hmax] | [_ Hmax]]; rewrite Hmax in Hn.
  - apply IH. exact Hn.
  - injection Hn as Hn. eauto.
Qed.

(** A path of contexts down a tree, one for every level. *)
Lemma shows_path w :
  forall n c es, shows w c es -> height_entries es = n ->
  exists path,
    NoDup path /\ length path = S n /\
    forall a, a ∈ path ->
      a ∈ dom (contexts w) /\ exists es', shows w a es' /\ (height_entries es' <= n)%nat.
Proof.
  induction n as [|n IH]; intros c es Hshows Hn.
  - exists [c]. split; [apply NoDup_singleton|]. split; [reflexivity|].
    intros a Ha. apply list_elem_of_singleton in Ha as ->. split.
    + inversion Hshows; subst. apply elem_of_dom. eexists. eassumption.
    + exists es. split; [exact Hshows | lia].
  - assert (Hc : c ∈ dom (contexts w)).
    { inversion Hshows; subst. apply elem_of_dom. eexists. eassumption. }
    inversion Hshows as [c' x es' Hx Hsz Hlen Hrows]; subst.
    destruct (shows_rows_deepest w x es Hrows n Hn) as (sub & nested & Hsub & Hnested).
    destruct (IH sub nested Hsub Hnested) as (path & Hnd & Hlen' & Hall).
    exists (c :: path). split; [|split].
    + apply NoDup_cons. split; [|exact Hnd]. intros Hin.
      destruct (Hall c Hin) as (_ & es' & Hes' & Hh').
      pose proof (proj1 (shows_functional w) c es Hshows es' Hes'). subst es'. lia.
    + cbn. rewrite Hlen'. reflexivity.
    + intros a Ha. apply elem_of_cons in Ha as [->|Ha].
      * split; [exact Hc|]. exists es. split; [exact Hshows | lia].
      * destruct (Hall a Ha) as (Hdom & es' & Hes' & Hh'). split; [exact Hdom|].
        exists es'. split; [exact Hes' | lia].
Qed.

(** A tree that the store holds is not higher than the store has
    contexts. *)
Lemma shows_height w c es :
  shows w c es -> (S (height_entries es) <= size (contexts w))%nat.
Proof.
  intros Hshows.
  destruct (shows_path w _ c es Hshows eq_refl) as (path & Hnd & Hlen & Hall).
  rewrite <- Hlen, <- size_dom.
  rewrite <- (size_list_to_set (C := gset nat) path) by exact Hnd.
  apply subseteq_size. intros a Ha. apply elem_of_list_to_set in Ha.
  apply Hall. exact Ha.
Qed.

Lemma Dump_nested_shows w :
  (forall c es, shows w c es ->
     forall fuel indent,
       (height_entries es < fuel)%nat ->
       indent + Z.of_nat (height_entries es) <= Int.INT_MAX ->
       Dump_nested fuel c indent w = Returns (Dump_entries indent es) w) /\
  (forall x es, shows_rows w x es ->
     forall fuel indent,
       (height_entries es <= fuel)%nat ->
       indent + Z.of_nat (height_entries es) <= Int.INT_MAX ->
       int_sized x ->
       Dump_rows (Dump_nested fuel) x (Dump_tabs indent) indent (count_entries es) w
       = Returns (Dump_entries indent es) w).
Proof.
  apply (shows_mutual _ w
           (fun c es _ =>
              forall fuel indent,
                (height_entries es < fuel)%nat ->
                indent + Z.of_nat (height_entries es) <= Int.INT_MAX ->
                Dump_nested fuel c indent w = Returns (Dump_entries indent es) w)
           (fun x es _ =>
              forall fuel indent,
                (height_entries es <= fuel)%nat ->
                indent + Z.of_nat (height_entries es) <= Int.INT_MAX ->
                int_sized x ->
                Dump_rows (Dump_nested fuel) x (Dump_tabs indent) indent (count_entries es) w
                = Returns (Dump_entries indent es) w)).
  - intros c x es Hx Hsz Hlen Hrows IH [|fuel] indent Hfuel Hind; [lia|].
    cbn [Dump_nested]. unfold bind at 1. rewrite (load_ctx_live _ _ _ Hx).
    pose proof Hsz as Hsz'. unfold int_sized, vec_size in Hsz'.
    rewrite to_int_small by (unfold vec_size; lia).
    rewrite decr_in_range by (unfold vec_size, Int.INT_MIN; lia).
    unfold bind, lift, ret.
    replace (Z.to_nat (vec_size (m_HistoryStack x) - 1)) with (count_entries es)
      by (unfold vec_size; lia).
    apply IH; [lia | exact Hind | exact Hsz].
  - intros x fuel indent _ _ _. reflexivity.
  - intros x r h nested older Hslot Hh Hsub IHsub Hrows IHrows fuel indent Hfuel Hind Hsz.
    cbn [height_entries height_entry] in Hfuel, Hind.
    cbn [count_entries Dump_rows]. unfold bind at 1.
    pose proof (lookup_lt_Some _ _ _ Hslot) as Hlt.
    pose proof Hsz as Hsz'. unfold int_sized, vec_size in Hsz'.
    rewrite (vec_at_in_range _ _ (Some r)).
    2:{ lia. }
    2:{ rewrite Nat2Z.id. exact Hslot. }
    unfold lift at 1, ret at 1. unfold bind at 1. unfold lift at 1, ret at 1.
    unfold bind at 1. rewrite (load_rec_live _ _ _ Hh).
    unfold bind at 1. rewrite incr_in_range by lia. unfold lift at 1, ret at 1.
    unfold bind at 1. rewrite (IHsub fuel (indent + 1)) by lia.
    unfold bind at 1. rewrite (IHrows fuel indent) by (lia || exact Hsz). unfold ret.
    cbn [Dump_entries Dump_entry]. unfold Dump_line.
    rewrite !append_assoc_s. reflexivity.
Qed.

(** [Dump()] prints the tree of records below a context, whatever its
    depth: for every record, newest first and the sentinel left out, a
    line with the indentation, the label, " <<<" if the cursor of its
    context is on it, and an end of line, followed by the dump of the
    record's sub-context one tab deeper.  The store is left alone and the
    global lock is not looked at. *)
Theorem Dump_prints_the_tree w c es indent :
  shows w c es ->
  indent + Z.of_nat (height_entries es) <= Int.INT_MAX ->
  Dump c indent w = Returns (Dump_entries indent es) w.
Proof.
  intros Hshows Hind. unfold Dump.
  apply (proj1 (Dump_nested_shows w) c es Hshows); [|exact Hind].
  pose proof (shows_height w c es Hshows). lia.
Qed.

End DumpingTrees.

Lemma Dump_prints_the_tree_witness :
  Dump 0%nat 0 Example.in_nested_redo
  = Returns
      (Dump_entries 0
         (more_entries
            (entry "MergeObjects" true
               (more_entries (entry "RemoveObject" false no_entries)
                  (more_entries (entry "SetObject" true no_entries) no_entries)))
            no_entries))
      Example.in_nested_redo.
Proof.
  assert (Hleaf : forall c, c = 2%nat \/ c = 3%nat ->
            shows Example.in_nested_redo c no_entries).
  { intros c [-> | ->];
      (eapply shows_context;
       [reflexivity | vm_compute; congruence | reflexivity | apply shows_no_rows]). }
  apply Dump_prints_the_tree; [|vm_compute; congruence].
  pose (x0 := mkContext [None; Some 0%nat] 1 false true None NoopObserver true).
  pose (x1 := mkContext [None; Some 1%nat; Some 2%nat] 1 false false (Some 0%nat)
                NoopObserver false).
  apply (shows_context Example.in_nested_redo 0%nat x0);
    [reflexivity | vm_compute; congruence | reflexivity |].
  refine (shows_more_rows Example.in_nested_redo x0 0%nat _ _ no_entries
            eq_refl eq_refl _ (shows_no_rows _ _)).
  apply (shows_context Example.in_nested_redo 1%nat x1);
    [reflexivity | vm_compute; congruence | reflexivity |].
  refine (shows_more_rows Example.in_nested_redo x1 2%nat _ no_entries
            (more_entries (entry "SetObject" true no_entries) no_entries)
            eq_refl eq_refl (Hleaf _ (or_intror eq_refl)) _).
  refine (shows_more_rows Example.in_nested_redo x1 1%nat _ no_entries no_entries
            eq_refl eq_refl (Hleaf _ (or_introl eq_refl)) (shows_no_rows _ _)).
Defined.

(** ** The showcase managers under undo and redo *)

Section TrivialManagerRoundTrip.

Implicit Types (w : World (list Z)) (x : HistoryContext) (h : History).

Lemma root_of_singleton_chain {Host} (w : World Host) c x :
  ancestors w c [c] -> live_ctx w c x -> m_ParentContext x = None.
Proof.
  intros Hanc Hx. inversion Hanc as [c' y Hy Hp | c' y p l Hy Hp Hl]; subst.
  - pose proof (live_ctx_functional _ _ _ _ Hx Hy). subst y. exact Hp.
  - inversion Hl.
Qed.

Lemma idle_flags {Host} (w : World Host) c x l :
  ancestors w c l -> live_ctx w c x -> ~ undoing_in w l -> ~ redoing_in w l ->
  m_IsUndoing x = false /\ m_IsRedoing x = false.
Proof.
  intros Hanc Hx Hnu Hnr.
  assert (Hin : c ∈ l).
  { apply ancestors_head in Hanc. destruct l; [discriminate|].
    injection Hanc as ->. apply elem_of_cons. auto. }
  split.
  - destruct (m_IsUndoing x) eqn:E; [|reflexivity]. exfalso. apply Hnu. exists c, x. auto.
  - destruct (m_IsRedoing x) eqn:E; [|reflexivity]. exfalso. apply Hnr. exists c, x. auto.
Qed.

(** [Manager::AddNewObject] called outside a replay. *)
Lemma AddNewObject_recording w c x l :
  s_Context w = Some c -> accepts_push w c x l ->
  exists w1 r sub,
    Showcase.AddNewObject w = Returns true w1 /\
    host w1 = host w ++ [0] /\ s_Context w1 = Some c /\ s_Lock w1 = false /\
    live_ctx w1 c (pushed r x) /\
    live_rec w1 r (mkHistory ∅ "AddNewObject" (Int.uincr (s_id w)) sub []
                     "AddNewObject" ("AddNewObject" +:+ "_Undo")) /\
    live_ctx w1 sub (HistoryContext_ctor (Some c)) /\ sub <> c /\
    events w1 = events w ++
      [StackChanged c (m_OnStackChanged x) (m_PresentHistoryIdx x + 1)].
Proof.
  intros Hs Hok.
  destruct (HISTORY_PUSH_enters w c x l "AddNewObject" [] Hs Hok)
    as (w1 & r & sub & HH & Hs1 & Hl1 & Hx1 & Hr1 & Hsub1 & Hanc_sub & Hanc & Hnu & Hnr
        & He1 & Hh1).
  set (wh := set_host (host w1 ++ [0]) w1).
  assert (Hrel : HistoryPushController_dtor (mkPushController true) wh =
                 Returns (mkPushController false)
                   (set_events
                      (events wh ++ [StackChanged c (m_OnStackChanged (pushed r x))
                                       (m_PresentHistoryIdx (pushed r x))])
                      (set_Context (Some c) wh))).
  { apply (PushController_release_fires wh sub c (pushed r x) l);
      [exact Hl1 | exact Hs1 | | | exact Hx1 | |].
    - apply (ancestors_same_contexts w1); [reflexivity | exact Hanc_sub].
    - apply (ancestors_same_contexts w1); [reflexivity | exact Hanc].
    - intros H. apply Hnu. apply (undoing_in_same_contexts w1 wh); [reflexivity | exact H].
    - intros H. apply Hnr. apply (redoing_in_same_contexts w1 wh); [reflexivity | exact H]. }
  assert (Hne : sub <> c).
  { pose proof (ancestors_NoDup _ _ _ Hanc_sub) as Hnd.
    apply NoDup_cons in Hnd as [Hnotin _]. intros ->. apply Hnotin.
    apply ancestors_head in Hanc. destruct l; [discriminate|].
    injection Hanc as ->. apply elem_of_cons. auto. }
  eexists _, r, sub. split.
  { unfold Showcase.AddNewObject. unfold bind at 1. rewrite HH.
    unfold bind at 1. unfold modify at 1. fold wh. unfold bind at 1. rewrite Hrel.
    reflexivity. }
  split; [cbn; rewrite Hh1; reflexivity|]. split; [reflexivity|]. split; [exact Hl1|].
  split; [exact Hx1|]. split; [exact Hr1|]. split; [exact Hsub1|]. split; [exact Hne|].
  cbn. rewrite He1. reflexivity.
Qed.

(** [Manager::AddNewObject_Undo] called by [Undo()] on a root context. *)
Lemma AddNewObject_Undo_replaying w c xin r h xs :
  s_Lock w = false -> s_Context w = Some c -> live_ctx w c xin ->
  m_ParentContext xin = None ->
  0 <= m_PresentHistoryIdx xin <= Int.INT_MAX ->
  m_HistoryStack xin !! Z.to_nat (m_PresentHistoryIdx xin) = Some (Some r) ->
  live_rec w r h -> live_ctx w (m_SubContext h) xs -> m_ParentContext xs = Some c ->
  Showcase.AddNewObject_Undo w = Returns true (set_host (removelast (host w)) w).
Proof.
  intros Hl Hs Hx Hpar Hp Hslot Hh Hxs Hpxs.
  unfold Showcase.AddNewObject_Undo. unfold bind at 1.
  rewrite (PopController_ctor_descends w c xin r h) by assumption.
  unfold bind at 1. unfold modify at 1. unfold bind at 1.
  rewrite (PopController_dtor_ascends _ (m_SubContext h) xs c xin);
    [| exact Hl | reflexivity | exact Hxs | exact Hpxs | exact Hx].
  rewrite Hpar. unfold ret. f_equal.
  destruct w; cbn in *. subst. reflexivity.
Qed.

(** [Manager::AddNewObject] called by [Redo()] on a root context. *)
Lemma AddNewObject_replaying w c xR r h :
  s_Lock w = false -> s_Context w = Some c -> live_ctx w c xR ->
  m_ParentContext xR = None -> m_IsUndoing xR = false -> m_IsRedoing xR = true ->
  0 <= m_PresentHistoryIdx xR <= Int.INT_MAX -> int_sized xR ->
  m_HistoryStack xR !! Z.to_nat (m_PresentHistoryIdx xR) = Some (Some r) ->
  live_rec w r h -> live_ctx w (m_SubContext h) (HistoryContext_ctor (Some c)) ->
  Showcase.AddNewObject w = Returns true (set_host (host w ++ [0]) w).
Proof.
  intros Hl Hs Hx Hpar Hu Hrd Hp Hsz Hslot Hh Hsub.
  assert (Hanc : ancestors w c [c]) by (eapply ancestors_root; eassumption).
  assert (Hnu : ~ undoing_in w [c]).
  { intros (a & y & Ha & Hy & Hf). apply list_elem_of_singleton in Ha as ->.
    pose proof (live_ctx_functional _ _ _ _ Hx Hy). subst y. congruence. }
  pose proof (IsUndoing_false _ _ _ Hl Hanc Hnu) as HU.
  pose proof (IsRedoing_own_flag _ _ _ Hx Hrd) as HR.
  assert (HUR : IsUndoingOrRedoing c w = Returns true w).
  { unfold IsUndoingOrRedoing, bind. rewrite HU. exact HR. }
  set (sub := m_SubContext h) in *.
  set (w1 := set_Context (Some sub) w).
  set (wh := set_host (host w1 ++ [0]) w1).
  assert (Hrel : HistoryPushController_dtor (mkPushController true) wh =
                 Returns (mkPushController false) (set_Context (Some c) wh)).
  { rewrite (PushController_release_redoing wh sub c xR [c]);
      [rewrite Hpar; reflexivity | exact Hl | reflexivity | | | exact Hx | | | exact Hsz].
    - eapply ancestors_step; [exact Hsub | reflexivity |].
      apply (ancestors_same_contexts w); [reflexivity | exact Hanc].
    - apply (ancestors_same_contexts w); [reflexivity | exact Hanc].
    - intros (a & y & Ha & Hy & Hf). apply elem_of_cons in Ha as [->|Ha].
      + pose proof (live_ctx_functional _ _ _ _ Hsub Hy). subst y. discriminate.
      + apply list_elem_of_singleton in Ha as ->.
        pose proof (live_ctx_functional _ _ _ _ Hx Hy). subst y. congruence.
    - exists c, xR. split; [apply list_elem_of_singleton; reflexivity | auto]. }
  unfold Showcase.AddNewObject, Showcase.HISTORY_PUSH, GetContext_deref, GetContext.
  unfold bind at 1. unfold bind at 1. unfold bind at 1. unfold gets at 1. rewrite Hs.
  unfold lift at 1, ret at 1. unfold bind at 1.
  assert (HP : Push c "AddNewObject" "AddNewObject" ("AddNewObject" +:+ "_Undo") [] w
               = Returns tt w).
  { unfold Push. unfold bind at 1, gets. rewrite Hl. unfold bind at 1. rewrite HUR.
    reflexivity. }
  rewrite HP.
  assert (HC : HistoryPushController_ctor w = Returns (mkPushController true) w1).
  { unfold HistoryPushController_ctor, GetContext_deref, GetContext, SubContext_of,
      SetContext.
    unfold bind, gets, lift. rewrite Hl, Hs. unfold ret. rewrite HU.
    rewrite (Present_unlocked w c xR (Some r)) by assumption.
    rewrite (load_rec_live _ _ _ Hh). reflexivity. }
  rewrite HC. unfold bind at 1. unfold modify at 1. fold wh. unfold bind at 1.
  rewrite Hrel. unfold ret. f_equal.
  unfold wh, w1. destruct w; cbn in *. subst. reflexivity.
Qed.

(** [Manager::AddNewObject] on a root context, then [Undo()], then
    [Redo()]: the call appends an object and records itself; the undo
    runs [AddNewObject_Undo], which removes the object again and leaves
    the cursor one down with the record as redo tail; the redo runs
    [AddNewObject] once more, which appends an object without pushing a
    second record, and leaves the context as the first call left it. *)
Theorem AddNewObject_is_undone_and_redone w c x :
  s_Context w = Some c -> accepts_push w c x [c] -> m_Mutex x = false ->
  m_PresentHistoryIdx x + 1 < Int.INT_MAX ->
  exists w1 w2 w3 r,
    Showcase.AddNewObject w = Returns true w1 /\
    host w1 = host w ++ [0] /\ live_ctx w1 c (pushed r x) /\
    Undo Showcase.TrivialManager c w1 = Returns true w2 /\
    host w2 = host w /\
    live_ctx w2 c (with_present (m_PresentHistoryIdx x) (pushed r x)) /\
    Redo Showcase.TrivialManager c w2 = Returns true w3 /\
    host w3 = host w ++ [0] /\ live_ctx w3 c (pushed r x).
Proof.
  intros Hs Hok Hm Hbig.
  destruct (AddNewObject_recording w c x [c] Hs Hok)
    as (w1 & r & sub & HA & Hh1 & Hs1 & Hl1 & Hx1 & Hr1 & Hsub1 & Hne & _).
  destruct Hok as (Hl & Hx & Hanc & Hnu & Hnr & Hrange & Hsz & _).
  pose proof (root_of_singleton_chain w c x Hanc Hx) as Hpar.
  destruct (idle_flags w c x [c] Hanc Hx Hnu Hnr) as [Hu Hrd].
  pose proof (pushed_slot r x Hrange) as Hslot.
  pose proof Hrange as [Hp0 Hp1]. unfold int_sized in Hsz.
  set (h := mkHistory ∅ "AddNewObject" (Int.uincr (s_id w)) sub []
              "AddNewObject" ("AddNewObject" +:+ "_Undo")) in *.
  (* the undo *)
  set (xin := with_undoing true (with_mutex true (pushed r x))).
  set (Win := entering_undo c (pushed r x) w1).
  assert (Hxin : live_ctx Win c xin) by (unfold live_ctx, Win; cbn; apply lookup_insert_eq).
  assert (Hbody1 : Showcase.TrivialManager (m_UndoFunc h) (m_Params h) Win
                   = Returns true (set_host (removelast (host Win)) Win)).
  { change (Showcase.TrivialManager (m_UndoFunc h) (m_Params h))
      with Showcase.AddNewObject_Undo.
    apply (AddNewObject_Undo_replaying Win c xin r h (HistoryContext_ctor (Some c)));
      [exact Hl1 | exact Hs1 | exact Hxin | exact Hpar | cbn; lia | exact Hslot
      | exact Hr1 | | reflexivity].
    unfold live_ctx, Win. cbn. rewrite lookup_insert_ne by congruence. exact Hsub1. }
  set (W3 := set_host (removelast (host Win)) Win) in *.
  assert (HU : Undo Showcase.TrivialManager c w1 = Returns true (leaving_undo c xin W3)).
  { apply (Undo_runs_body Showcase.TrivialManager w1 c (pushed r x) r h);
      [exact Hl1 | exact Hx1 | exact Hm | cbn; lia | exact Hslot | exact Hr1
      | exact Hbody1 | exact Hxin | cbn; unfold Int.INT_MIN; lia]. }
  set (w2 := leaving_undo c xin W3) in *.
  set (xB := with_present (m_PresentHistoryIdx x) (pushed r x)).
  assert (HxB : live_ctx w2 c xB).
  { unfold live_ctx, w2, leaving_undo. cbn. rewrite lookup_insert_eq.
    unfold xB, xin. replace (m_PresentHistoryIdx x + 1 - 1) with (m_PresentHistoryIdx x)
      by lia.
    destruct x; cbn in *. subst. reflexivity. }
  assert (Hhost2 : host w2 = host w).
  { unfold w2, W3, Win. cbn. rewrite Hh1. apply removelast_last. }
  (* the redo *)
  assert (HszB : int_sized xB).
  { unfold int_sized, vec_size in *. cbn. rewrite length_app, length_take. cbn. lia. }
  set (xR := with_present (m_PresentHistoryIdx xB + 1)
               (with_redoing true (with_mutex true xB))).
  set (WR := entering_redo c xB w2).
  assert (HxR : live_ctx WR c xR) by (unfold live_ctx, WR; cbn; apply lookup_insert_eq).
  assert (Hbody2 : Showcase.TrivialManager (m_DoFunc h) (m_Params h) WR
                   = Returns true (set_host (host WR ++ [0]) WR)).
  { change (Showcase.TrivialManager (m_DoFunc h) (m_Params h)) with Showcase.AddNewObject.
    apply (AddNewObject_replaying WR c xR r h);
      [exact Hl1 | exact Hs1 | exact HxR | exact Hpar | exact Hu | reflexivity
      | cbn; lia | exact HszB | exact Hslot | exact Hr1 |].
    unfold live_ctx, WR. cbn. rewrite !lookup_insert_ne by congruence. exact Hsub1. }
  set (W4 := set_host (host WR ++ [0]) WR) in *.
  assert (HR : Redo Showcase.TrivialManager c w2 = Returns true (leaving_redo c xR W4)).
  { apply (Redo_runs_body Showcase.TrivialManager w2 c xB r h);
      [exact Hl1 | exact HxB | exact Hm | | exact HszB | exact Hslot | exact Hr1
      | exact Hbody2 | exact HxR].
    unfold vec_size in *. cbn. rewrite length_app, length_take. cbn. lia. }
  exists w1, w2, (leaving_redo c xR W4), r.
  split; [exact HA|]. split; [exact Hh1|]. split; [exact Hx1|]. split; [exact HU|].
  split; [exact Hhost2|]. split; [exact HxB|]. split; [exact HR|]. split.
  - change (host (leaving_redo c xR W4)) with (host w2 ++ [0]).
    rewrite Hhost2. reflexivity.
  - unfold live_ctx, leaving_redo. cbn. rewrite lookup_insert_eq.
    unfold xR, xB. destruct x; cbn in *. subst. reflexivity.
Qed.

End TrivialManagerRoundTrip.

Lemma constructed_accepts_push {Host} (objects : Host) :
  accepts_push (Showcase.constructed objects) 0%nat (HistoryContext_ctor None) [0%nat].
Proof.
  split; [reflexivity|]. split; [reflexivity|].
  split; [eapply ancestors_root; reflexivity|].
  split; [|split; [|split; [|split; [|split]]]].
  - intros (a & y & Ha & Hy & Hf). apply list_elem_of_singleton in Ha as ->.
    unfold live_ctx in Hy. cbn in Hy. rewrite lookup_singleton_eq in Hy.
    injection Hy as <-. discriminate.
  - intros (a & y & Ha & Hy & Hf). apply list_elem_of_singleton in Ha as ->.
    unfold live_ctx in Hy. cbn in Hy. rewrite lookup_singleton_eq in Hy.
    injection Hy as <-. discriminate.
  - vm_compute. split; congruence.
  - vm_compute. congruence.
  - split; [apply NoDup_nil; exact I|]. intros r Hr. inversion Hr.
  - intros r h Hr. inversion Hr.
Qed.

Lemma AddNewObject_is_undone_and_redone_witness :
  exists w1 w2 w3,
    Showcase.AddNewObject (Showcase.constructed []) = Returns true w1 /\
    host w1 = [0] /\
    Undo Showcase.TrivialManager 0%nat w1 = Returns true w2 /\ host w2 = [] /\
    Redo Showcase.TrivialManager 0%nat w2 = Returns true w3 /\ host w3 = [0].
Proof.
  destruct (AddNewObject_is_undone_and_redone (Showcase.constructed []) 0%nat _
              eq_refl (constructed_accepts_push []) eq_refl
              ltac:(vm_compute; reflexivity))
    as (w1 & w2 & w3 & r & HA & H1 & _ & HU & H2 & _ & HR & H3 & _).
  exists w1, w2, w3. auto 8.
Defined.

Section MapManagerRoundTrip.

Implicit Types (w : World (gmap string Z)) (x : HistoryContext) (h : History).

(** A sub-context of an undoing root answers that it is undoing. *)
Lemma undoing_below_root {Host} (w : World Host) sub xs c xc :
  s_Lock w = false ->
  live_ctx w sub xs -> m_ParentContext xs = Some c ->
  live_ctx w c xc -> m_ParentContext xc = None -> m_IsUndoing xc = true ->
  IsUndoing sub w = Returns true w /\ IsUndoingOrRedoing sub w = Returns true w.
Proof.
  intros Hl Hxs Hpxs Hxc Hpxc Hf.
  assert (Hanc : ancestors w sub [sub; c]).
  { eapply ancestors_step; [exact Hxs | exact Hpxs |].
    eapply ancestors_root; [exact Hxc | exact Hpxc]. }
  destruct (IsUndoing_chain _ _ _ Hl Hanc) as (b & Hb & Hiff).
  assert (b = true) as ->.
  { apply Hiff. exists c, xc. split; [|auto].
    apply elem_of_cons. right. apply list_elem_of_singleton. reflexivity. }
  split; [exact Hb|]. unfold IsUndoingOrRedoing, bind. rewrite Hb. reflexivity.
Qed.

(** [Manager2::AddObject] called from an undo function: the object is
    added, the history is left alone. *)
Lemma AddObject_inside_undo w sub key value :
  s_Lock w = false -> s_Context w = Some sub -> IsUndoing sub w = Returns true w ->
  host w !! key = None ->
  Showcase.AddObject key value w = Returns true (set_host (<[key := value]> (host w)) w).
Proof.
  intros Hl Hs HU Hnone.
  assert (HUR : IsUndoingOrRedoing sub w = Returns true w).
  { unfold IsUndoingOrRedoing, bind. rewrite HU. reflexivity. }
  destruct (PushController_inert w sub Hl Hs HU) as [Hctor _].
  set (wh := set_host (<[key := value]> (host w)) w).
  assert (HUh : IsUndoing sub wh = Returns true wh)
    by (apply (IsUndoing_frame w); [reflexivity | reflexivity | exact HU]).
  destruct (PushController_inert wh sub Hl Hs HUh) as [_ Hdtor].
  unfold Showcase.AddObject. unfold bind at 1. unfold gets at 1. rewrite Hnone.
  unfold Showcase.HISTORY_PUSH, GetContext_deref, GetContext.
  unfold bind at 1. unfold bind at 1. unfold bind at 1. unfold gets at 1. rewrite Hs.
  unfold lift at 1, ret at 1. unfold bind at 1.
  assert (HP : forall name d ud args, Push sub name d ud args w = Returns tt w).
  { intros. unfold Push. unfold bind at 1, gets. rewrite Hl. unfold bind at 1. rewrite HUR.
    reflexivity. }
  rewrite HP, Hctor. unfold bind at 1. unfold modify at 1. fold wh.
  unfold bind at 1. rewrite Hdtor. reflexivity.
Qed.

(** [Manager3::RemoveObject] called outside a replay. *)
Lemma RemoveObject_recording w c x l key :
  s_Context w = Some c -> accepts_push w c x l ->
  exists w1 r sub,
    Showcase.RemoveObject key w = Returns true w1 /\
    host w1 = delete key (host w) /\ s_Context w1 = Some c /\ s_Lock w1 = false /\
    live_ctx w1 c (pushed r x) /\
    live_rec w1 r
      (mkHistory {[ "hOldValue<-RemoveObject" := Some (VInt (default 0 (host w !! key))) ]}
         "RemoveObject" (Int.uincr (s_id w)) sub [VString key]
         "RemoveObject" ("RemoveObject" +:+ "_Undo")) /\
    live_ctx w1 sub (HistoryContext_ctor (Some c)) /\ sub <> c /\
    events w1 = events w ++
      [StackChanged c (m_OnStackChanged x) (m_PresentHistoryIdx x + 1)].
Proof.
  intros Hs Hok.
  destruct (HISTORY_PUSH_enters w c x l "RemoveObject" [VString key] Hs Hok)
    as (w1 & r & sub & HH & Hs1 & Hl1 & Hx1 & Hr1 & Hsub1 & Hanc_sub & Hanc & Hnu & Hnr
        & He1 & Hh1).
  destruct Hok as (Hl & Hx & _ & _ & _ & Hrange & Hsz & _).
  pose proof (pushed_slot r x Hrange) as Hslot.
  assert (Hpos : 0 <= m_PresentHistoryIdx (pushed r x) <= Int.INT_MAX).
  { destruct Hrange as [Hp0 Hp1]. unfold int_sized in Hsz. cbn. lia. }
  assert (Hne : sub <> c).
  { pose proof (ancestors_NoDup _ _ _ Hanc_sub) as Hnd.
    apply NoDup_cons in Hnd as [Hnotin _]. intros ->. apply Hnotin.
    apply ancestors_head in Hanc. destruct l; [discriminate|].
    injection Hanc as ->. apply elem_of_cons. auto. }
  set (h := mkHistory ∅ "RemoveObject" (Int.uincr (s_id w)) sub [VString key]
              "RemoveObject" ("RemoveObject" +:+ "_Undo")) in *.
  set (v := VInt (default 0 (host w !! key))).
  (* the save *)
  assert (Hin : inside_scope_of w1 r h).
  { exists sub, (HistoryContext_ctor (Some c)), c, (pushed r x).
    split; [exact Hs1|]. split; [exact Hsub1|]. split; [reflexivity|].
    split; [exact Hx1|]. split; [exact Hpos|]. split; [exact Hslot | exact Hr1]. }
  assert (Hidle : IsUndoingOrRedoing sub w1 = Returns false w1).
  { apply (IsUndoingOrRedoing_false w1 sub (sub :: l)); [exact Hl1 | exact Hanc_sub | exact Hnu |].
    intros (a & y & Ha & Hy & Hf). apply elem_of_cons in Ha as [->|Ha].
    - pose proof (live_ctx_functional _ _ _ _ Hsub1 Hy). subst y. discriminate.
    - apply Hnr. exists a, y. auto. }
  set (ws := set_records
               (<[r := Live (with_data (<[Showcase.HISTORY_KEY "hOldValue" "RemoveObject"
                                          := Some v]> (m_Data h)) h)]> (records w1)) w1).
  assert (HS : Showcase.HISTORY_SAVE "hOldValue" "RemoveObject" v w1 = Returns true ws).
  { unfold Showcase.HISTORY_SAVE, bind.
    rewrite (record_in_progress_inside w1 r h Hl1 Hin).
    apply (Save_recording w1 r h); [exact Hl1 | exact Hr1 | exact Hidle]. }
  set (wd := set_host (delete key (host ws)) ws).
  assert (Hrel : HistoryPushController_dtor (mkPushController true) wd =
                 Returns (mkPushController false)
                   (set_events
                      (events wd ++ [StackChanged c (m_OnStackChanged (pushed r x))
                                       (m_PresentHistoryIdx (pushed r x))])
                      (set_Context (Some c) wd))).
  { apply (PushController_release_fires wd sub c (pushed r x) l);
      [exact Hl1 | exact Hs1 | | | exact Hx1 | |].
    - apply (ancestors_same_contexts w1); [reflexivity | exact Hanc_sub].
    - apply (ancestors_same_contexts w1); [reflexivity | exact Hanc].
    - intros H. apply Hnu. apply (undoing_in_same_contexts w1 wd); [reflexivity | exact H].
    - intros H. apply Hnr. apply (redoing_in_same_contexts w1 wd); [reflexivity | exact H]. }
  eexists _, r, sub. split.
  { unfold Showcase.RemoveObject. unfold bind at 1. rewrite HH.
    unfold bind at 1. unfold gets at 1. rewrite Hh1. fold v.
    unfold bind at 1. rewrite HS.
    unfold bind at 1. unfold modify at 1. fold wd. unfold bind at 1. rewrite Hrel.
    reflexivity. }
  split; [cbn; rewrite Hh1; reflexivity|]. split; [reflexivity|]. split; [exact Hl1|].
  split; [exact Hx1|]. split; [unfold live_rec; cbn; apply lookup_insert_eq|].
  split; [exact Hsub1|]. split; [exact Hne|].
  cbn. rewrite He1. reflexivity.
Qed.

(** [Manager3::RemoveObject_Undo] called by [Undo()] on a root context. *)
Lemma RemoveObject_Undo_replaying w c xin r h key value :
  s_Lock w = false -> s_Context w = Some c -> live_ctx w c xin ->
  m_ParentContext xin = None -> m_IsUndoing xin = true ->
  0 <= m_PresentHistoryIdx xin <= Int.INT_MAX ->
  m_HistoryStack xin !! Z.to_nat (m_PresentHistoryIdx xin) = Some (Some r) ->
  live_rec w r h -> live_ctx w (m_SubContext h) (HistoryContext_ctor (Some c)) ->
  m_Data h !! "hOldValue<-RemoveObject" = Some (Some (VInt value)) ->
  host w !! key = None ->
  Showcase.RemoveObject_Undo key w
  = Returns true (set_host (<[key := value]> (host w)) w).
Proof.
  intros Hl Hs Hx Hpar Hf Hp Hslot Hh Hsub Hdata Hnone.
  set (sub := m_SubContext h) in *.
  set (w1 := set_Context (Some sub) w).
  assert (Hin : inside_scope_of w1 r h).
  { exists sub, (HistoryContext_ctor (Some c)), c, xin.
    split; [reflexivity|]. split; [exact Hsub|]. split; [reflexivity|].
    split; [exact Hx|]. split; [exact Hp|]. split; [exact Hslot | exact Hh]. }
  destruct (undoing_below_root w1 sub (HistoryContext_ctor (Some c)) c xin
              Hl Hsub eq_refl Hx Hpar Hf) as [HU HUR].
  assert (HL : Showcase.HISTORY_LOAD "hOldValue" "RemoveObject_Undo" TyInt (VInt 0) w1
               = Returns (true, VInt value) w1).
  { unfold Showcase.HISTORY_LOAD, bind.
    rewrite (record_in_progress_inside w1 r h Hl Hin).
    rewrite (Load_replaying w1 r h) by assumption.
    change (lookup_id (Showcase.HISTORY_KEY "hOldValue" "RemoveObject_Undo"))
      with "hOldValue<-RemoveObject".
    rewrite Hdata. reflexivity. }
  set (w2 := set_host (<[key := value]> (host w1)) w1).
  assert (HA : Showcase.AddObject key value w1 = Returns true w2)
    by (apply (AddObject_inside_undo w1 sub); [exact Hl | reflexivity | exact HU | exact Hnone]).
  unfold Showcase.RemoveObject_Undo. unfold bind at 1.
  rewrite (PopController_ctor_descends w c xin r h) by assumption.
  fold sub. fold w1. unfold bind at 1. rewrite HL. cbn [snd].
  unfold bind at 1. rewrite HA. unfold bind at 1.
  rewrite (PopController_dtor_ascends w2 sub (HistoryContext_ctor (Some c)) c xin);
    [| exact Hl | reflexivity | exact Hsub | reflexivity | exact Hx].
  rewrite Hpar. unfold ret. f_equal.
  unfold w2, w1. destruct w; cbn in *. subst. reflexivity.
Qed.

(** [Manager3::RemoveObject] on a root context, then [Undo()]: the call
    erases the key and saves the value found under it - 0 when the key was
    missing - in the record it pushes; the undo runs [RemoveObject_Undo],
    which loads that value and adds the key with it through [AddObject],
    without recording anything.  For a key that was in the map the map is
    afterwards as before the call; for a key that was missing the undo
    adds it with the value 0. *)
Theorem RemoveObject_is_undone w c x key :
  s_Context w = Some c -> accepts_push w c x [c] -> m_Mutex x = false ->
  exists w1 w2 r,
    Showcase.RemoveObject key w = Returns true w1 /\
    host w1 = delete key (host w) /\ live_ctx w1 c (pushed r x) /\
    Undo Showcase.MapWithRemoveManager c w1 = Returns true w2 /\
    host w2 = <[key := default 0 (host w !! key)]> (host w) /\
    (forall value, host w !! key = Some value -> host w2 = host w) /\
    (host w !! key = None -> host w2 !! key = Some 0) /\
    live_ctx w2 c (with_present (m_PresentHistoryIdx x) (pushed r x)) /\
    records w2 = records w1.
Proof.
  intros Hs Hok Hm.
  destruct (RemoveObject_recording w c x [c] key Hs Hok)
    as (w1 & r & sub & HA & Hh1 & Hs1 & Hl1 & Hx1 & Hr1 & Hsub1 & Hne & _).
  destruct Hok as (Hl & Hx & Hanc & Hnu & Hnr & Hrange & Hsz & _).
  pose proof (root_of_singleton_chain w c x Hanc Hx) as Hpar.
  destruct (idle_flags w c x [c] Hanc Hx Hnu Hnr) as [Hu Hrd].
  pose proof (pushed_slot r x Hrange) as Hslot.
  pose proof Hrange as [Hp0 Hp1]. unfold int_sized in Hsz.
  set (value := default 0 (host w !! key)) in *.
  set (h := mkHistory {[ "hOldValue<-RemoveObject" := Some (VInt value) ]}
              "RemoveObject" (Int.uincr (s_id w)) sub [VString key]
              "RemoveObject" ("RemoveObject" +:+ "_Undo")) in *.
  set (xin := with_undoing true (with_mutex true (pushed r x))).
  set (Win := entering_undo c (pushed r x) w1).
  assert (Hxin : live_ctx Win c xin) by (unfold live_ctx, Win; cbn; apply lookup_insert_eq).
  assert (Hbody : Showcase.MapWithRemoveManager (m_UndoFunc h) (m_Params h) Win
                  = Returns true (set_host (<[key := value]> (host Win)) Win)).
  { change (Showcase.MapWithRemoveManager (m_UndoFunc h) (m_Params h))
      with (Showcase.RemoveObject_Undo key).
    apply (RemoveObject_Undo_replaying Win c xin r h key value);
      [exact Hl1 | exact Hs1 | exact Hxin | exact Hpar | reflexivity | cbn; lia
      | exact Hslot | exact Hr1 | | apply lookup_singleton_eq |].
    - unfold live_ctx, Win. cbn. rewrite lookup_insert_ne by congruence. exact Hsub1.
    - change (host Win) with (host w1). rewrite Hh1. apply lookup_delete_eq. }
  set (W3 := set_host (<[key := value]> (host Win)) Win) in *.
  assert (HU : Undo Showcase.MapWithRemoveManager c w1
               = Returns true (leaving_undo c xin W3)).
  { apply (Undo_runs_body Showcase.MapWithRemoveManager w1 c (pushed r x) r h);
      [exact Hl1 | exact Hx1 | exact Hm | cbn; lia | exact Hslot | exact Hr1
      | exact Hbody | exact Hxin | cbn; unfold Int.INT_MIN; lia]. }
  assert (Hhost : host (leaving_undo c xin W3) = <[key := value]> (host w)).
  { change (host (leaving_undo c xin W3)) with (<[key := value]> (host w1)).
    rewrite Hh1. apply insert_delete_eq. }
  exists w1, (leaving_undo c xin W3), r.
  split; [exact HA|]. split; [exact Hh1|]. split; [exact Hx1|]. split; [exact HU|].
  split; [exact Hhost|]. split; [|split; [|split]].
  - intros v0 Hv0. rewrite Hhost. apply insert_id. unfold value. rewrite Hv0. reflexivity.
  - intros Hnone. rewrite Hhost. unfold value. rewrite Hnone. apply lookup_insert_eq.
  - unfold live_ctx, leaving_undo. cbn. rewrite lookup_insert_eq.
    unfold xin. replace (m_PresentHistoryIdx x + 1 - 1) with (m_PresentHistoryIdx x) by lia.
    destruct x; cbn in *. subst. reflexivity.
  - reflexivity.
Qed.

End MapManagerRoundTrip.

Lemma RemoveObject_is_undone_witness :
  exists w1 w2,
    Showcase.RemoveObject "foo" (Showcase.constructed {[ "foo" := 11 ]}) = Returns true w1 /\
    host w1 = delete "foo" {[ "foo" := 11 ]} /\
    Undo Showcase.MapWithRemoveManager 0%nat w1 = Returns true w2 /\
    host w2 = {[ "foo" := 11 ]}.
Proof.
  destruct (RemoveObject_is_undone (Showcase.constructed {[ "foo" := 11 ]}) 0%nat _ "foo"
              eq_refl (constructed_accepts_push _) eq_refl)
    as (w1 & w2 & r & HR & H1 & _ & HU & _ & H2 & _).
  exists w1, w2. split; [exact HR|]. split; [exact H1|]. split; [exact HU|].
  apply (H2 11). reflexivity.
Defined.

(** ** The showcase runs as its assertions say *)

(** [HistoryShowcase_Basics]: one object after the call, none after
    [Undo()], one again after [Redo()]; the cursor follows. *)
Lemma HistoryShowcase_Basics :
  Showcase.outcome (Showcase.basics_added (mkWorld None false 0 ∅ ∅ [] []))
  = Some ([0], Some 1) /\
  Showcase.outcome (Showcase.basics_undone (mkWorld None false 0 ∅ ∅ [] []))
  = Some ([], Some 0) /\
  Showcase.outcome (Showcase.basics_redone (mkWorld None false 0 ∅ ∅ [] []))
  = Some ([0], Some 1).
Proof. repeat split; vm_compute; reflexivity. Qed.

(** [HistoryShowcase_UserParams]: the map is empty after the removal, holds
    "foo" -> 11 again after [Undo()] - the memento saved under
    "hOldValue<-RemoveObject" is found under "hOldValue<-RemoveObject_Undo"
    - and is empty after [Redo()]. *)
Lemma HistoryShowcase_UserParams :
  Showcase.outcome (Showcase.userparams_removed (mkWorld None false 0 ∅ ∅ [] ∅))
  = Some (∅, Some 2) /\
  Showcase.outcome (Showcase.userparams_undone (mkWorld None false 0 ∅ ∅ [] ∅))
  = Some ({[ "foo" := 11 ]}, Some 1) /\
  Showcase.outcome (Showcase.userparams_redone (mkWorld None false 0 ∅ ∅ [] ∅))
  = Some (∅, Some 2).
Proof. repeat split; vm_compute; reflexivity. Qed.
